(** * Gesture recogniser: a shallow embedding of [gesture_recognizer.py]

    The recogniser is a Python object mutated in place by [update], once per
    video frame.  It is embedded here as a record threaded through a small
    state-and-exception monad.  Python floats are idealised as real numbers
    (no rounding error, no signed zero, no NaN); [time.time()] is an
    explicit sequence of clock readings, consumed one per call. *)

From Stdlib Require Import Reals Lra Lia ZArith.
From stdpp Require Import base gmap strings list.

Local Open Scope R_scope.

(** ** Numbers *)

#[global] Instance Rlt_decision : RelDecision Rlt := Rlt_dec.
#[global] Instance Rle_decision : RelDecision Rle := Rle_dec.
#[global] Instance Rgt_decision : RelDecision Rgt := Rgt_dec.
#[global] Instance Rge_decision : RelDecision Rge := Rge_dec.

Module math.

Definition pi : R := PI.

(** [math.hypot(x, y)] *)
Definition hypot (x y : R) : R := sqrt (x * x + y * y).

(** [math.atan2(y, x)], the angle of the point [(x, y)] in (-pi, pi]. *)
Definition atan2 (y x : R) : R :=
  if decide (0 < x) then atan (y / x)
  else if decide (x < 0) then
    (if decide (0 <= y) then atan (y / x) + PI else atan (y / x) - PI)
  else if decide (0 < y) then PI / 2
  else if decide (y < 0) then - (PI / 2)
  else 0.

End math.

(** The builtin [round(x, ndigits)]: nearest multiple of [10^-ndigits],
    ties to even. *)
Definition round_half_even (y : R) : Z :=
  let f := Zfloor y in
  let r := y - IZR f in
  if decide (r < 1 / 2) then f
  else if decide (1 / 2 < r) then (f + 1)%Z
  else if Z.even f then f else (f + 1)%Z.

Definition round (x : R) (ndigits : nat) : R :=
  IZR (round_half_even (x * 10 ^ ndigits)) / 10 ^ ndigits.

(** ** [config.py]: the constants the recogniser reads *)

Module config.
Definition ZOOM_DIST_RATE_MIN : R := 0.015.
Definition SWIPE_VELOCITY_THRESHOLD : R := 0.04.
Definition SWIPE_MIN_FRAMES : Z := 3.
Definition SMOOTHING_WINDOW : nat := 5.
Definition GESTURE_COOLDOWN_MS : R := 80.
Definition ACTIVATION_ZONE : R * R * R * R := (0.2, 0.8, 0.15, 0.85).
Definition PITCH_TILT_RATE_MIN : R := 0.03.
Definition PITCH_COOLDOWN_MS : R := 50.
Definition BEARING_ANGLE_RATE_MIN : R := 0.06.
Definition BEARING_COOLDOWN_MS : R := 50.
End config.

(** ** State constants *)

Definition STATE_IDLE : string := "idle".
Definition STATE_ZOOM : string := "zoom".
Definition STATE_SWIPE_LEFT : string := "swipe_left".
Definition STATE_SWIPE_RIGHT : string := "swipe_right".
Definition STATE_PITCH_UP : string := "pitch_up".
Definition STATE_PITCH_DOWN : string := "pitch_down".
Definition STATE_BEARING_CW : string := "bearing_cw".
Definition STATE_BEARING_CCW : string := "bearing_ccw".

(** ** Data *)

Definition Point2 : Type := R * R.
Definition Point3 : Type := R * R * R.

Definition px (p : Point3) : R := fst (fst p).
Definition py (p : Point3) : R := snd (fst p).

(** One entry of [hand_data["hands"]]. *)
Record Hand := {
  landmarks : gmap string Point3;
  palm_center : Point2;
  handedness : string
}.

(** The argument of [update]. *)
Record HandData := {
  detected : bool;
  hand_count : Z;
  hands : list Hand
}.

(** The event dicts: [{"gesture": g, "intensity": v}] and
    [{"gesture": g, "velocity": v}]. *)
Inductive Event :=
| IntensityEvent (gesture : string) (intensity : R)
| VelocityEvent (gesture : string) (velocity : R).

Definition event_gesture (e : Event) : string :=
  match e with IntensityEvent g _ | VelocityEvent g _ => g end.

Definition event_magnitude (e : Event) : R :=
  match e with IntensityEvent _ v | VelocityEvent _ v => v end.

(** [collections.deque(maxlen=n)]: [append] drops the oldest element when
    the deque is full. *)
Definition deque_append {A} (maxlen : nat) (buf : list A) (x : A) : list A :=
  match maxlen with
  | O => buf
  | _ => let b := buf ++ [x] in
         if decide (maxlen < length b)%nat then tail b else b
  end.

(** The instance attributes set by [__init__]. *)
Record GestureRecognizer := {
  _state : string;
  _dist_buf : list R;
  _palm_buf : list Point2;
  _tilt_buf : list R;
  _angle_buf : list R;
  _swipe_frames_left : Z;
  _swipe_frames_right : Z;
  _coast_dir : Z;
  _coast_frames : Z;
  _cooldowns : gmap string R
}.

Definition _COAST_MAX : Z := 12.

Definition __init__ : GestureRecognizer := {|
  _state := STATE_IDLE;
  _dist_buf := [];
  _palm_buf := [];
  _tilt_buf := [];
  _angle_buf := [];
  _swipe_frames_left := 0;
  _swipe_frames_right := 0;
  _coast_dir := 0;
  _coast_frames := 0;
  _cooldowns := ∅
|}.

(** Attribute assignment [self.f = v]. *)
Definition set_state (v : string) (s : GestureRecognizer) :=
  {| _state := v; _dist_buf := _dist_buf s; _palm_buf := _palm_buf s;
     _tilt_buf := _tilt_buf s; _angle_buf := _angle_buf s;
     _swipe_frames_left := _swipe_frames_left s;
     _swipe_frames_right := _swipe_frames_right s;
     _coast_dir := _coast_dir s; _coast_frames := _coast_frames s;
     _cooldowns := _cooldowns s |}.

Definition set_dist_buf (v : list R) (s : GestureRecognizer) :=
  {| _state := _state s; _dist_buf := v; _palm_buf := _palm_buf s;
     _tilt_buf := _tilt_buf s; _angle_buf := _angle_buf s;
     _swipe_frames_left := _swipe_frames_left s;
     _swipe_frames_right := _swipe_frames_right s;
     _coast_dir := _coast_dir s; _coast_frames := _coast_frames s;
     _cooldowns := _cooldowns s |}.

Definition set_palm_buf (v : list Point2) (s : GestureRecognizer) :=
  {| _state := _state s; _dist_buf := _dist_buf s; _palm_buf := v;
     _tilt_buf := _tilt_buf s; _angle_buf := _angle_buf s;
     _swipe_frames_left := _swipe_frames_left s;
     _swipe_frames_right := _swipe_frames_right s;
     _coast_dir := _coast_dir s; _coast_frames := _coast_frames s;
     _cooldowns := _cooldowns s |}.

Definition set_tilt_buf (v : list R) (s : GestureRecognizer) :=
  {| _state := _state s; _dist_buf := _dist_buf s; _palm_buf := _palm_buf s;
     _tilt_buf := v; _angle_buf := _angle_buf s;
     _swipe_frames_left := _swipe_frames_left s;
     _swipe_frames_right := _swipe_frames_right s;
     _coast_dir := _coast_dir s; _coast_frames := _coast_frames s;
     _cooldowns := _cooldowns s |}.

Definition set_angle_buf (v : list R) (s : GestureRecognizer) :=
  {| _state := _state s; _dist_buf := _dist_buf s; _palm_buf := _palm_buf s;
     _tilt_buf := _tilt_buf s; _angle_buf := v;
     _swipe_frames_left := _swipe_frames_left s;
     _swipe_frames_right := _swipe_frames_right s;
     _coast_dir := _coast_dir s; _coast_frames := _coast_frames s;
     _cooldowns := _cooldowns s |}.

Definition set_swipe_frames_left (v : Z) (s : GestureRecognizer) :=
  {| _state := _state s; _dist_buf := _dist_buf s; _palm_buf := _palm_buf s;
     _tilt_buf := _tilt_buf s; _angle_buf := _angle_buf s;
     _swipe_frames_left := v;
     _swipe_frames_right := _swipe_frames_right s;
     _coast_dir := _coast_dir s; _coast_frames := _coast_frames s;
     _cooldowns := _cooldowns s |}.

Definition set_swipe_frames_right (v : Z) (s : GestureRecognizer) :=
  {| _state := _state s; _dist_buf := _dist_buf s; _palm_buf := _palm_buf s;
     _tilt_buf := _tilt_buf s; _angle_buf := _angle_buf s;
     _swipe_frames_left := _swipe_frames_left s;
     _swipe_frames_right := v;
     _coast_dir := _coast_dir s; _coast_frames := _coast_frames s;
     _cooldowns := _cooldowns s |}.

Definition set_coast_dir (v : Z) (s : GestureRecognizer) :=
  {| _state := _state s; _dist_buf := _dist_buf s; _palm_buf := _palm_buf s;
     _tilt_buf := _tilt_buf s; _angle_buf := _angle_buf s;
     _swipe_frames_left := _swipe_frames_left s;
     _swipe_frames_right := _swipe_frames_right s;
     _coast_dir := v; _coast_frames := _coast_frames s;
     _cooldowns := _cooldowns s |}.

Definition set_coast_frames (v : Z) (s : GestureRecognizer) :=
  {| _state := _state s; _dist_buf := _dist_buf s; _palm_buf := _palm_buf s;
     _tilt_buf := _tilt_buf s; _angle_buf := _angle_buf s;
     _swipe_frames_left := _swipe_frames_left s;
     _swipe_frames_right := _swipe_frames_right s;
     _coast_dir := _coast_dir s; _coast_frames := v;
     _cooldowns := _cooldowns s |}.

Definition set_cooldowns (v : gmap string R) (s : GestureRecognizer) :=
  {| _state := _state s; _dist_buf := _dist_buf s; _palm_buf := _palm_buf s;
     _tilt_buf := _tilt_buf s; _angle_buf := _angle_buf s;
     _swipe_frames_left := _swipe_frames_left s;
     _swipe_frames_right := _swipe_frames_right s;
     _coast_dir := _coast_dir s; _coast_frames := _coast_frames s;
     _cooldowns := v |}.

(** ** The monad: the recogniser, the clock position, and exceptions *)

Inductive Exn :=
| IndexError
| KeyError (key : string).

Inductive Outcome (A : Type) :=
| Return (a : A)
| Raise (e : Exn).
Arguments Return {A} a.
Arguments Raise {A} e.

(** [self] is the object; [ticks] counts the calls to [time.time()] made so
    far, so that the next call reads [wall ticks]. *)
Record World := {
  self : GestureRecognizer;
  ticks : nat
}.

Definition M (A : Type) : Type := World -> Outcome A * World.

Definition ret {A} (a : A) : M A := fun w => (Return a, w).

Definition raise {A} (e : Exn) : M A := fun w => (Raise e, w).

Definition bind {A B} (m : M A) (k : A -> M B) : M B :=
  fun w => match m w with
           | (Return a, w') => k a w'
           | (Raise e, w') => (Raise e, w')
           end.

Notation "'let*' x ':=' m 'in' k" := (bind m (fun x => k))
  (at level 10, x name, m at level 100, k at level 200).
Notation "m '>>' k" := (bind m (fun _ => k))
  (at level 90, right associativity).

(** Read the object. *)
Definition get : M GestureRecognizer := fun w => (Return (self w), w).

(** Mutate the object. *)
Definition modify (f : GestureRecognizer -> GestureRecognizer) : M unit :=
  fun w => (Return tt, {| self := f (self w); ticks := ticks w |}).

(** Subscripting: [seq[0]], [seq[-1]], [d[key]]. *)
Definition first {A} (l : list A) : M A :=
  match head l with Some x => ret x | None => raise IndexError end.

Definition newest {A} (l : list A) : M A :=
  match last l with Some x => ret x | None => raise IndexError end.

Definition item (d : gmap string Point3) (key : string) : M Point3 :=
  match d !! key with Some v => ret v | None => raise (KeyError key) end.

Definition subscript {A} (l : list A) (i : nat) : M A :=
  match l !! i with Some x => ret x | None => raise IndexError end.

(** ** The methods of [GestureRecognizer] *)

Section Recognizer.

(** [wall n] is what the [n]-th call of [time.time()] returns, in
    seconds. *)
Variable wall : nat -> R.

Definition time_time : M R :=
  fun w => (Return (wall (ticks w)),
            {| self := self w; ticks := S (ticks w) |}).

Definition _reset_buffers : M unit :=
  modify (set_dist_buf []) >>
  modify (set_palm_buf []) >>
  modify (set_tilt_buf []) >>
  modify (set_angle_buf []) >>
  modify (set_swipe_frames_left 0) >>
  modify (set_swipe_frames_right 0) >>
  modify (set_coast_dir 0) >>
  modify (set_coast_frames 0).

Definition _in_activation_zone (palm_center : Point2) : bool :=
  let '(x, y) := palm_center in
  let '(xmin, xmax, ymin, ymax) := config.ACTIVATION_ZONE in
  bool_decide (xmin <= x <= xmax) && bool_decide (ymin <= y <= ymax).

Definition _can_emit (gesture : string) : M bool :=
  let* s := get in
  let last := default 0 (_cooldowns s !! gesture) in
  let cooldown :=
    if String.prefix "pitch" gesture then config.PITCH_COOLDOWN_MS
    else if String.prefix "bearing" gesture then config.BEARING_COOLDOWN_MS
    else config.GESTURE_COOLDOWN_MS in
  let* now := time_time in
  ret (bool_decide ((now - last) * 1000 >= cooldown)).

Definition _record_emit (gesture : string) : M unit :=
  let* now := time_time in
  modify (fun s => set_cooldowns (<[gesture := now]> (_cooldowns s)) s).

Definition _hand_norm_dy (hand : Hand) : M (option R) :=
  let* wrist := item (landmarks hand) "wrist" in
  let* middle_mcp := item (landmarks hand) "middle_mcp" in
  let dx := px middle_mcp - px wrist in
  let dy := py middle_mcp - py wrist in
  let len := math.hypot dx dy in
  ret (if decide (len >= 0.01) then Some (dy / len) else None).

Definition _eval_two_hand_pitch : M (option Event) :=
  let* s := get in
  if decide (length (_tilt_buf s) < 2)%nat then ret None else
  let* hi := newest (_tilt_buf s) in
  let* lo := first (_tilt_buf s) in
  let tilt_rate := hi - lo in
  if decide (Rabs tilt_rate < config.PITCH_TILT_RATE_MIN) then ret None else
  let gesture := if decide (tilt_rate < 0) then "pitch_up" else "pitch_down" in
  let intensity := Rmin (Rabs tilt_rate / 0.3) 1 in
  modify (set_state (if String.eqb gesture "pitch_up"
                     then STATE_PITCH_UP else STATE_PITCH_DOWN)) >>
  let* ok := _can_emit gesture in
  if negb ok then ret None else
  _record_emit gesture >>
  ret (Some (IntensityEvent gesture (round intensity 3))).

Definition _eval_two_hand (hand_a hand_b : Hand) : M (option Event) :=
  modify (set_palm_buf []) >>
  modify (set_angle_buf []) >>
  modify (set_swipe_frames_left 0) >>
  modify (set_swipe_frames_right 0) >>
  let pc_a := palm_center hand_a in
  let pc_b := palm_center hand_b in
  if negb (_in_activation_zone pc_a) && negb (_in_activation_zone pc_b) then
    modify (set_dist_buf []) >>
    modify (set_tilt_buf []) >>
    ret None
  else
  modify (fun s => set_dist_buf
    (deque_append config.SMOOTHING_WINDOW (_dist_buf s)
       (math.hypot (fst pc_a - fst pc_b) (snd pc_a - snd pc_b))) s) >>
  let* ndy_a := _hand_norm_dy hand_a in
  let* ndy_b := _hand_norm_dy hand_b in
  match ndy_a, ndy_b with
  | Some a, Some b =>
      modify (fun s => set_tilt_buf
        (deque_append config.SMOOTHING_WINDOW (_tilt_buf s) ((a + b) / 2)) s)
  | _, _ => ret tt
  end >>
  let* s := get in
  if decide (length (_dist_buf s) < 2)%nat then ret None else
  let* hi := newest (_dist_buf s) in
  let* lo := first (_dist_buf s) in
  let dist_rate := hi - lo in
  if decide (Rabs dist_rate >= config.ZOOM_DIST_RATE_MIN) then
    modify (set_state STATE_ZOOM) >>
    let gesture := if decide (dist_rate > 0) then "zoom_out" else "zoom_in" in
    let intensity := Rmin (Rabs dist_rate / 0.3) 1 in
    let* ok := _can_emit gesture in
    if negb ok then ret None else
    _record_emit gesture >>
    ret (Some (IntensityEvent gesture (round intensity 3)))
  else
  _eval_two_hand_pitch.

Definition _eval_swipe (velocity : R) : M (option Event) :=
  let* moving :=
    if decide (velocity < - config.SWIPE_VELOCITY_THRESHOLD) then
      modify (fun s => set_swipe_frames_left (_swipe_frames_left s + 1) s) >>
      modify (set_swipe_frames_right 0) >>
      ret true
    else if decide (velocity > config.SWIPE_VELOCITY_THRESHOLD) then
      modify (fun s => set_swipe_frames_right (_swipe_frames_right s + 1) s) >>
      modify (set_swipe_frames_left 0) >>
      ret true
    else
      modify (set_swipe_frames_left 0) >>
      modify (set_swipe_frames_right 0) >>
      ret false in
  if negb moving then ret None else
  let* s := get in
  if decide (_swipe_frames_left s >= config.SWIPE_MIN_FRAMES)%Z then
    let gesture := "pan_left" in
    let vel := Rabs velocity in
    let* ok := _can_emit gesture in
    if negb ok then ret None else
    _record_emit gesture >>
    modify (set_state STATE_SWIPE_LEFT) >>
    ret (Some (VelocityEvent gesture (round vel 3)))
  else
  if decide (_swipe_frames_right s >= config.SWIPE_MIN_FRAMES)%Z then
    let gesture := "pan_right" in
    let vel := Rabs velocity in
    let* ok := _can_emit gesture in
    if negb ok then ret None else
    _record_emit gesture >>
    modify (set_state STATE_SWIPE_RIGHT) >>
    ret (Some (VelocityEvent gesture (round vel 3)))
  else
  ret None.

(** The loop of [_eval_bearing]:
    [for i in range(1, len(buf)): d = buf[i] - buf[i - 1]; ...]. *)
Definition total_delta_loop (buf : list R) : R :=
  foldl (fun total_delta i =>
           let d := nth i buf 0 - nth (i - 1) buf 0 in
           let d := if decide (d > math.pi) then d - 2 * math.pi
                    else if decide (d < - math.pi) then d + 2 * math.pi
                    else d in
           total_delta + d)
        0 (seq 1 (length buf - 1)).

Definition _eval_bearing (hand : Hand) : M (option Event) :=
  let* wrist := item (landmarks hand) "wrist" in
  let* middle_mcp := item (landmarks hand) "middle_mcp" in
  let dx := px middle_mcp - px wrist in
  let dy := py middle_mcp - py wrist in
  let len := math.hypot dx dy in
  if decide (len < 0.01) then ret None else
  let angle := math.atan2 dy dx in
  modify (fun s => set_angle_buf
    (deque_append config.SMOOTHING_WINDOW (_angle_buf s) angle) s) >>
  let* s := get in
  if decide (length (_angle_buf s) < 2)%nat then ret None else
  let total_delta := total_delta_loop (_angle_buf s) in
  if decide (Rabs total_delta < config.BEARING_ANGLE_RATE_MIN) then ret None else
  let gesture := if decide (total_delta > 0) then "bearing_cw" else "bearing_ccw" in
  let intensity := Rmin (Rabs total_delta / (math.pi / 3)) 1 in
  modify (set_state (if String.eqb gesture "bearing_cw"
                     then STATE_BEARING_CW else STATE_BEARING_CCW)) >>
  let* ok := _can_emit gesture in
  if negb ok then ret None else
  _record_emit gesture >>
  ret (Some (IntensityEvent gesture (round intensity 3))).

Definition _eval_single_hand (hand : Hand) : M (option Event) :=
  modify (set_dist_buf []) >>
  modify (set_tilt_buf []) >>
  let palm_center := palm_center hand in
  if negb (_in_activation_zone palm_center) then
    _reset_buffers >>
    modify (set_state STATE_IDLE) >>
    ret None
  else
  modify (fun s => set_palm_buf
    (deque_append config.SMOOTHING_WINDOW (_palm_buf s) palm_center) s) >>
  let* s := get in
  if decide (length (_palm_buf s) < 2)%nat then ret None else
  let* hi := newest (_palm_buf s) in
  let* lo := first (_palm_buf s) in
  let velocity := fst hi - fst lo in
  let* swipe_result := _eval_swipe velocity in
  match swipe_result with
  | Some _ => modify (set_angle_buf []) >> ret swipe_result
  | None => _eval_bearing hand
  end.

(** [update(hand_data)]: one frame. *)
Definition update (hand_data : HandData) : M (option Event) :=
  if negb (detected hand_data) then
    _reset_buffers >>
    modify (set_state STATE_IDLE) >>
    ret None
  else
  let hand_count := hand_count hand_data in
  let hands := hands hand_data in
  if decide (hand_count >= 2)%Z then
    let* hand_a := subscript hands 0 in
    let* hand_b := subscript hands 1 in
    _eval_two_hand hand_a hand_b
  else
  if decide (hand_count = 1)%Z then
    let* hand := subscript hands 0 in
    _eval_single_hand hand
  else
  _reset_buffers >>
  modify (set_state STATE_IDLE) >>
  ret None.

End Recognizer.

(** ** Vocabulary for the statements *)

(** A fresh recogniser before any clock reading. *)
Definition init_world : World := {| self := __init__; ticks := 0 |}.

(** What [_reset_buffers()] followed by [self._state = STATE_IDLE] leaves:
    everything but the cooldown table is back to its initial value. *)
Definition reset_idle (s : GestureRecognizer) : GestureRecognizer := {|
  _state := STATE_IDLE;
  _dist_buf := [];
  _palm_buf := [];
  _tilt_buf := [];
  _angle_buf := [];
  _swipe_frames_left := 0;
  _swipe_frames_right := 0;
  _coast_dir := 0;
  _coast_frames := 0;
  _cooldowns := _cooldowns s
|}.

(** What a two-hand call with both palms outside the zone leaves: the four
    buffers and the two swipe counters are emptied, the rest is kept. *)
Definition two_hand_cleared (s : GestureRecognizer) : GestureRecognizer := {|
  _state := _state s;
  _dist_buf := [];
  _palm_buf := [];
  _tilt_buf := [];
  _angle_buf := [];
  _swipe_frames_left := 0;
  _swipe_frames_right := 0;
  _coast_dir := _coast_dir s;
  _coast_frames := _coast_frames s;
  _cooldowns := _cooldowns s
|}.

(** Feeding frames in order, as the main loop does; an exception ends the
    session.  Each entry is what [update] returned and the world it left. *)
Fixpoint run (wall : nat -> R) (frames : list HandData) (w : World)
  : list (option Event * World) :=
  match frames with
  | [] => []
  | hand_data :: rest =>
      match update wall hand_data w with
      | (Return ev, w1) => (ev, w1) :: run wall rest w1
      | (Raise _, _) => []
      end
  end.

(** The world after a run (the starting world if nothing was processed). *)
Definition final (w : World) (steps : list (option Event * World)) : World :=
  default w (snd <$> last steps).

(** A frame with no hand. *)
Definition no_hand : HandData :=
  {| detected := false; hand_count := 0; hands := [] |}.

(** The window delta of a sliding buffer: newest sample minus oldest
    sample. *)
Definition window_delta (buf : list R) : R :=
  default 0 (last buf) - default 0 (head buf).

(** The idiom closing every classification in the source:
    [if not self._can_emit(gesture): return None],
    [self._record_emit(gesture)], then (in [_eval_swipe] only) a write to
    the object, then [return event]. *)
Definition gate (wall : nat -> R) (gesture : string)
    (on_pass : GestureRecognizer -> GestureRecognizer) (ev : Event)
  : M (option Event) :=
  let* ok := _can_emit wall gesture in
  if negb ok then ret None else
  _record_emit wall gesture >>
  modify on_pass >>
  ret (Some ev).

(** The eight gesture kinds and the cooldown interval of each, in
    milliseconds. *)
Definition gesture_kinds : list string :=
  ["zoom_in"; "zoom_out"; "pan_left"; "pan_right";
   "pitch_up"; "pitch_down"; "bearing_cw"; "bearing_ccw"].

Definition category_interval_ms (gesture : string) : R :=
  if decide (gesture ∈ ["pitch_up"; "pitch_down"; "bearing_cw"; "bearing_ccw"])
  then 50 else 80.

(** The timestamp the gate compares against: [self._cooldowns.get(g, 0.0)]. *)
Definition last_emit (s : GestureRecognizer) (gesture : string) : R :=
  default 0 (_cooldowns s !! gesture).

(** The events of a run, each with the timestamp its emission stored in the
    cooldown table. *)
Definition emission (step : option Event * World) : option (string * R) :=
  match fst step with
  | Some e => Some (event_gesture e,
                    last_emit (self (snd step)) (event_gesture e))
  | None => None
  end.

Definition emissions (steps : list (option Event * World))
  : list (string * R) :=
  omap emission steps.

(** Any two emissions of one kind are at least that kind's interval apart. *)
Definition separated (log : list (string * R)) : Prop :=
  forall (i j : nat) (g : string) (ti tj : R),
    (i < j)%nat -> log !! i = Some (g, ti) -> log !! j = Some (g, tj) ->
    (tj - ti) * 1000 >= category_interval_ms g.

(** A clock that never runs backwards. *)
Definition monotone (wall : nat -> R) : Prop :=
  forall i j : nat, (i <= j)%nat -> wall i <= wall j.

(** Bearing, in the words of the specification: each consecutive pair's raw
    delta is adjusted by 2 pi when it exceeds pi in absolute value, and the
    adjusted deltas are summed. *)
Definition unwrap (d : R) : R :=
  if decide (d > PI) then d - 2 * PI
  else if decide (d < - PI) then d + 2 * PI
  else d.

Fixpoint net_rotation (buf : list R) : R :=
  match buf with
  | a :: (b :: _) as rest => unwrap (b - a) + net_rotation rest
  | _ => 0
  end.

(** ** Two-hand evaluation, in the words of the specification *)

(** The tilt of one hand: the vertical component of the unit vector from
    the wrist to the middle finger base, undefined for a segment shorter
    than 0.01. *)
Definition norm_dy (wrist middle_mcp : Point3) : option R :=
  let dx := px middle_mcp - px wrist in
  let dy := py middle_mcp - py wrist in
  if decide (math.hypot dx dy >= 0.01) then Some (dy / math.hypot dx dy)
  else None.

(** The object once a two-hand call has cleared the single-hand state and
    appended this frame's distance and, when both hands have a tilt, their
    average tilt. *)
Definition two_hand_accumulate (a b : Hand) (ndy_a ndy_b : option R)
    (s : GestureRecognizer) : GestureRecognizer := {|
  _state := _state s;
  _dist_buf :=
    deque_append config.SMOOTHING_WINDOW (_dist_buf s)
      (math.hypot (fst (palm_center a) - fst (palm_center b))
                  (snd (palm_center a) - snd (palm_center b)));
  _palm_buf := [];
  _tilt_buf :=
    match ndy_a, ndy_b with
    | Some x, Some y =>
        deque_append config.SMOOTHING_WINDOW (_tilt_buf s) ((x + y) / 2)
    | _, _ => _tilt_buf s
    end;
  _angle_buf := [];
  _swipe_frames_left := 0;
  _swipe_frames_right := 0;
  _coast_dir := _coast_dir s;
  _coast_frames := _coast_frames s;
  _cooldowns := _cooldowns s
|}.

(** Zoom before pitch: the gesture and its magnitude, or nothing. *)
Definition two_hand_classification (dist_buf tilt_buf : list R)
  : option (string * R) :=
  let delta := window_delta dist_buf in
  let tilt := window_delta tilt_buf in
  if decide (Rabs delta >= config.ZOOM_DIST_RATE_MIN) then
    if decide (0 < delta) then Some ("zoom_out", Rmin (Rabs delta / 0.3) 1)
    else if decide (delta < 0) then Some ("zoom_in", Rmin (Rabs delta / 0.3) 1)
    else None
  else if decide (2 <= length tilt_buf)%nat then
    if decide (Rabs tilt >= config.PITCH_TILT_RATE_MIN) then
      if decide (tilt < 0) then Some ("pitch_up", Rmin (Rabs tilt / 0.3) 1)
      else if decide (0 < tilt) then
        Some ("pitch_down", Rmin (Rabs tilt / 0.3) 1)
      else None
    else None
  else None.

(** The state that goes with each gesture kind. *)
Definition state_of_gesture (gesture : string) : string :=
  if decide (gesture = "zoom_in") then STATE_ZOOM
  else if decide (gesture = "zoom_out") then STATE_ZOOM
  else if decide (gesture = "pan_left") then STATE_SWIPE_LEFT
  else if decide (gesture = "pan_right") then STATE_SWIPE_RIGHT
  else if decide (gesture = "pitch_up") then STATE_PITCH_UP
  else if decide (gesture = "pitch_down") then STATE_PITCH_DOWN
  else if decide (gesture = "bearing_cw") then STATE_BEARING_CW
  else if decide (gesture = "bearing_ccw") then STATE_BEARING_CCW
  else STATE_IDLE.

(** ** Magnitudes *)

(** An event, if one is returned, has its magnitude in the unit interval. *)
Definition magnitude_ok (r : Outcome (option Event) * World) : Prop :=
  match fst r with
  | Return (Some e) => 0 <= event_magnitude e <= 1
  | _ => True
  end.

(** Every buffered palm centre has its abscissa inside the zone. *)
Definition palm_in_zone (s : GestureRecognizer) : Prop :=
  Forall (fun p : Point2 => 0.2 <= fst p <= 0.8) (_palm_buf s).

Definition bounded_step (w : World) (r : Outcome (option Event) * World)
  : Prop :=
  magnitude_ok r /\ (palm_in_zone (self w) -> palm_in_zone (self (snd r))).

(** ** Concrete observations *)

(** A hand as the detector reports it: the palm centre [(x, y)] is the mean
    of the wrist and the four finger bases, and [(dx, dy)] is the vector from
    the wrist to the middle finger base. *)
Definition wrist_of (x y dx dy : R) : Point3 :=
  (x - 4 * dx / 5, y - 4 * dy / 5, 0).

Definition middle_mcp_of (x y dx dy : R) : Point3 :=
  (x + dx / 5, y + dy / 5, 0).

Definition hand_at (x y dx dy : R) : Hand := {|
  landmarks :=
    <["wrist" := wrist_of x y dx dy]>
    (<["middle_mcp" := middle_mcp_of x y dx dy]>
    (<["index_mcp" := (x + dx / 5 - 3 * dy / 10, y + dy / 5 + 3 * dx / 10, 0)]>
    (<["ring_mcp" := (x + dx / 5 + dy / 10, y + dy / 5 - dx / 10, 0)]>
    (<["pinky_mcp" := (x + dx / 5 + dy / 5, y + dy / 5 - dx / 5, 0)]>
    (<["thumb_tip" := (x - dy / 2, y + dx / 2, 0)]>
    (<["index_tip" := (x + dx - 3 * dy / 10, y + dy + 3 * dx / 10, 0)]>
    (<["middle_tip" := (x + dx, y + dy, 0)]>
    (<["ring_tip" := (x + dx + dy / 10, y + dy - dx / 10, 0)]>
    (<["pinky_tip" := (x + dx + dy / 5, y + dy - dx / 5, 0)]> ∅)))))))));
  palm_center := (x, y);
  handedness := "Right"
|}.

Definition one_hand (h : Hand) : HandData :=
  {| detected := true; hand_count := 1; hands := [h] |}.

Definition two_hands (a b : Hand) : HandData :=
  {| detected := true; hand_count := 2; hands := [a; b] |}.

(** A clock read once a second from [t = 1000 s]. *)
Definition steady_clock (n : nat) : R := 1000 + INR n.

(** A clock whose successive readings are listed. *)
Definition clock_of (readings : list R) (n : nat) : R :=
  nth n readings (default 0 (last readings)).

(** ** What one call may do to the cooldown table *)

(** [gated_step wall w r]: the result [r] of a call started in world [w]
    either carries an event of a kind [g], in which case a clock reading
    [tc] of this call was at least [g]'s interval after [g]'s stored
    timestamp and a later reading [tr] of this call became the new stored
    timestamp, or it carries none and the table is unchanged. *)
Definition gated_step (wall : nat -> R) (w : World)
    (r : Outcome (option Event) * World) : Prop :=
  (ticks w <= ticks (snd r))%nat /\
  match fst r with
  | Return (Some e) =>
      let g := event_gesture e in
      g ∈ gesture_kinds /\
      exists tc tr : nat,
        (ticks w <= tc)%nat /\ (tc <= tr)%nat /\ (tr < ticks (snd r))%nat /\
        (wall tc - last_emit (self w) g) * 1000 >= category_interval_ms g /\
        _cooldowns (self (snd r)) = <[g := wall tr]> (_cooldowns (self w))
  | _ => _cooldowns (self (snd r)) = _cooldowns (self w)
  end.

(** ** A swipe to the left with a turn of the hand

    One hand slides left by 0.05 per frame, 25 ms per frame, pointing along
    the x axis; on the sixth frame it points along the y axis, on the seventh
    along the x axis again. *)

Definition pan_frames : list HandData :=
  [ one_hand (hand_at 0.70 0.5 0.1 0);
    one_hand (hand_at 0.65 0.5 0.1 0);
    one_hand (hand_at 0.60 0.5 0.1 0);
    one_hand (hand_at 0.55 0.5 0.1 0);
    one_hand (hand_at 0.50 0.5 0.1 0);
    one_hand (hand_at 0.45 0.5 0 0.1);
    one_hand (hand_at 0.40 0.5 0.1 0) ].

(** The clock as the calls of [time.time()] read it: twice in the fourth
    frame (t = 1000 s), once in the fifth (25 ms later), three times in the
    sixth (50 ms), once in the seventh (75 ms), twice in an eighth
    (100 ms). *)
Definition pan_clock : nat -> R :=
  clock_of [1000; 1000; 1000.025; 1000.05; 1000.05; 1000.05; 1000.075;
            1000.1; 1000.1].

(** An eighth frame, 100 ms after the fourth: the clock is read twice. *)
Definition pan_frame_after_cooldown : HandData :=
  one_hand (hand_at 0.35 0.5 0.1 0).

(** The object in single-hand mode: the two-hand buffers are empty and the
    right counter is zero. *)
Definition single_hand_object (state : string) (palm : list Point2)
    (angle : list R) (frames_left : Z) (cooldowns : gmap string R)
  : GestureRecognizer := {|
  _state := state;
  _dist_buf := [];
  _palm_buf := palm;
  _tilt_buf := [];
  _angle_buf := angle;
  _swipe_frames_left := frames_left;
  _swipe_frames_right := 0;
  _coast_dir := 0;
  _coast_frames := 0;
  _cooldowns := cooldowns
|}.

(** The worlds the seven frames leave, one after the other. *)
Definition pan_world_1 : World :=
  {| self := single_hand_object STATE_IDLE [(0.70, 0.5)] [] 0 ∅;
     ticks := 0 |}.

Definition pan_world_2 : World :=
  {| self := single_hand_object STATE_IDLE [(0.70, 0.5); (0.65, 0.5)] [0] 1 ∅;
     ticks := 0 |}.

Definition pan_world_3 : World :=
  {| self := single_hand_object STATE_IDLE
               [(0.70, 0.5); (0.65, 0.5); (0.60, 0.5)] [0; 0] 2 ∅;
     ticks := 0 |}.

Definition pan_world_4 : World :=
  {| self := single_hand_object STATE_SWIPE_LEFT
               [(0.70, 0.5); (0.65, 0.5); (0.60, 0.5); (0.55, 0.5)] [] 3
               (<["pan_left" := 1000]> ∅);
     ticks := 2 |}.

Definition pan_world_5 : World :=
  {| self := single_hand_object STATE_SWIPE_LEFT
               [(0.70, 0.5); (0.65, 0.5); (0.60, 0.5); (0.55, 0.5);
                (0.50, 0.5)] [0] 4
               (<["pan_left" := 1000]> ∅);
     ticks := 3 |}.

Definition pan_world_6 : World :=
  {| self := single_hand_object STATE_BEARING_CW
               [(0.65, 0.5); (0.60, 0.5); (0.55, 0.5); (0.50, 0.5);
                (0.45, 0.5)] [0; PI / 2] 5
               (<["bearing_cw" := 1000.05]> (<["pan_left" := 1000]> ∅));
     ticks := 6 |}.

Definition pan_world_7 : World :=
  {| self := single_hand_object STATE_BEARING_CW
               [(0.60, 0.5); (0.55, 0.5); (0.50, 0.5); (0.45, 0.5);
                (0.40, 0.5)] [0; PI / 2; 0] 6
               (<["bearing_cw" := 1000.05]> (<["pan_left" := 1000]> ∅));
     ticks := 7 |}.

Definition pan_world_8 : World :=
  {| self := single_hand_object STATE_SWIPE_LEFT
               [(0.55, 0.5); (0.50, 0.5); (0.45, 0.5); (0.40, 0.5);
                (0.35, 0.5)] [] 7
               (<["pan_left" := 1000.1]>
                  (<["bearing_cw" := 1000.05]> (<["pan_left" := 1000]> ∅)));
     ticks := 9 |}.

(** The world in which the sixth frame reaches the gate with its bearing
    candidate. *)
Definition pan_world_at_bearing_gate : World :=
  {| self := single_hand_object STATE_BEARING_CW
               [(0.65, 0.5); (0.60, 0.5); (0.55, 0.5); (0.50, 0.5);
                (0.45, 0.5)] [0; PI / 2] 5
               (<["pan_left" := 1000]> ∅);
     ticks := 4 |}.

(** ** Invariants of the object *)

(** The eight values the state field can take. *)
Definition state_names : list string :=
  [STATE_IDLE; STATE_ZOOM; STATE_SWIPE_LEFT; STATE_SWIPE_RIGHT;
   STATE_PITCH_UP; STATE_PITCH_DOWN; STATE_BEARING_CW; STATE_BEARING_CCW].

(** No buffer holds more than [SMOOTHING_WINDOW] samples. *)
Definition buffers_bounded (s : GestureRecognizer) : Prop :=
  (length (_dist_buf s) <= config.SMOOTHING_WINDOW)%nat /\
  (length (_palm_buf s) <= config.SMOOTHING_WINDOW)%nat /\
  (length (_tilt_buf s) <= config.SMOOTHING_WINDOW)%nat /\
  (length (_angle_buf s) <= config.SMOOTHING_WINDOW)%nat.

(** The two swipe counters are not negative and not both running. *)
Definition counters_ok (s : GestureRecognizer) : Prop :=
  (0 <= _swipe_frames_left s)%Z /\ (0 <= _swipe_frames_right s)%Z /\
  (_swipe_frames_left s = 0%Z \/ _swipe_frames_right s = 0%Z).

(** The coasting attributes still have the values [__init__] gave them. *)
Definition coast_idle (s : GestureRecognizer) : Prop :=
  _coast_dir s = 0%Z /\ _coast_frames s = 0%Z.

(** The two-hand family is empty. *)
Definition single_hand_mode (s : GestureRecognizer) : Prop :=
  _dist_buf s = [] /\ _tilt_buf s = [].

(** The single-hand family is empty. *)
Definition two_hand_mode (s : GestureRecognizer) : Prop :=
  _palm_buf s = [] /\ _angle_buf s = [] /\
  _swipe_frames_left s = 0%Z /\ _swipe_frames_right s = 0%Z.

Definition base_ok (s : GestureRecognizer) : Prop :=
  buffers_bounded s /\ counters_ok s /\ coast_idle s /\
  _state s ∈ state_names.

Definition object_ok (s : GestureRecognizer) : Prop :=
  base_ok s /\ (single_hand_mode s \/ two_hand_mode s).

(** [kept P Q w r]: if the object satisfies [P] when the call starts in
    [w], it satisfies [Q] when the call ends with [r]. *)
Definition kept (P Q : GestureRecognizer -> Prop) (w : World)
    (r : Outcome (option Event) * World) : Prop :=
  P (self w) -> Q (self (snd r)).

(** ** Events and the calls that return them *)

(** [emits P r]: if the call returned an event, [P] holds of the event and
    of the object the call left. *)
Definition emits (P : Event -> GestureRecognizer -> Prop)
    (r : Outcome (option Event) * World) : Prop :=
  match fst r with
  | Return (Some e) => P e (self (snd r))
  | _ => True
  end.

(** What [_eval_swipe] has established when it returns an event. *)
Definition swipe_event (e : Event) (s : GestureRecognizer) : Prop :=
  match e with
  | VelocityEvent g _ =>
      g = "pan_left" /\ _state s = STATE_SWIPE_LEFT /\
      (config.SWIPE_MIN_FRAMES <= _swipe_frames_left s)%Z \/
      g = "pan_right" /\ _state s = STATE_SWIPE_RIGHT /\
      (config.SWIPE_MIN_FRAMES <= _swipe_frames_right s)%Z
  | IntensityEvent _ _ => False
  end.

(** Likewise for [_eval_bearing], [_eval_two_hand_pitch] and the zoom part
    of [_eval_two_hand]. *)
Definition bearing_event (e : Event) (s : GestureRecognizer) : Prop :=
  match e with
  | IntensityEvent g _ =>
      (g = "bearing_cw" /\ _state s = STATE_BEARING_CW \/
       g = "bearing_ccw" /\ _state s = STATE_BEARING_CCW) /\
      (2 <= length (_angle_buf s))%nat
  | VelocityEvent _ _ => False
  end.

Definition pitch_event (e : Event) (s : GestureRecognizer) : Prop :=
  match e with
  | IntensityEvent g _ =>
      (g = "pitch_up" /\ _state s = STATE_PITCH_UP \/
       g = "pitch_down" /\ _state s = STATE_PITCH_DOWN) /\
      (2 <= length (_tilt_buf s))%nat
  | VelocityEvent _ _ => False
  end.

Definition zoom_event (e : Event) (s : GestureRecognizer) : Prop :=
  match e with
  | IntensityEvent g _ =>
      (g = "zoom_in" \/ g = "zoom_out") /\ _state s = STATE_ZOOM
  | VelocityEvent _ _ => False
  end.

Definition two_hand_event (e : Event) (s : GestureRecognizer) : Prop :=
  (2 <= length (_dist_buf s))%nat /\ (zoom_event e s \/ pitch_event e s).

Definition single_hand_event (e : Event) (s : GestureRecognizer) : Prop :=
  (2 <= length (_palm_buf s))%nat /\
  (swipe_event e s /\ _angle_buf s = [] \/ bearing_event e s).

Definition update_event (hand_data : HandData) (e : Event)
    (s : GestureRecognizer) : Prop :=
  detected hand_data = true /\
  ((hand_count hand_data >= 2)%Z /\ two_hand_event e s \/
   hand_count hand_data = 1%Z /\ single_hand_event e s).

(** The key of the event dict that carries the magnitude. *)
Definition magnitude_key (e : Event) : string :=
  match e with
  | IntensityEvent _ _ => "intensity"
  | VelocityEvent _ _ => "velocity"
  end.

(** ** How fast the buffers and the swipe counters can grow *)

(** The swipe counters lag the palm buffer: while the buffer is not full,
    the counters are 0 or their sum plus [k] is below its length. *)
Definition paced_by (k : Z) (s : GestureRecognizer) : Prop :=
  (length (_palm_buf s) < config.SMOOTHING_WINDOW)%nat ->
  (_swipe_frames_left s + _swipe_frames_right s = 0 \/
   _swipe_frames_left s + _swipe_frames_right s + k
   < Z.of_nat (length (_palm_buf s)))%Z.

Definition paced (s : GestureRecognizer) : Prop :=
  counters_ok s /\ paced_by 0 s.

(** The distance buffer, and the palm buffer, hold at most [n] samples. *)
Definition dist_within (n : nat) (s : GestureRecognizer) : Prop :=
  (length (_dist_buf s) <= n)%nat.

Definition palm_within (n : nat) (s : GestureRecognizer) : Prop :=
  (length (_palm_buf s) <= n)%nat.

(** The gesture kinds of the swipe. *)
Definition pan_kinds : list string := ["pan_left"; "pan_right"].

(** ** Exceptions *)

(** The two landmarks the recogniser reads. *)
Definition pivot_names : list string := ["wrist"; "middle_mcp"].

Definition has_pivot (h : Hand) : Prop :=
  is_Some (landmarks h !! "wrist") /\ is_Some (landmarks h !! "middle_mcp").

(** The exception is a [KeyError] for a pivot landmark that [h] lacks. *)
Definition missing_pivot (h : Hand) (x : Exn) : Prop :=
  match x with
  | KeyError key => key ∈ pivot_names /\ landmarks h !! key = None
  | IndexError => False
  end.

(** [raises P r]: if the call raised, [P] holds of the exception. *)
Definition raises (P : Exn -> Prop) (r : Outcome (option Event) * World)
  : Prop :=
  match fst r with
  | Raise x => P x
  | Return _ => True
  end.

(** The number of entries of [hands] that [update] subscripts. *)
Definition hands_read (hand_data : HandData) : nat :=
  if negb (detected hand_data) then 0
  else if decide (hand_count hand_data >= 2)%Z then 2
  else if decide (hand_count hand_data = 1%Z) then 1
  else 0.

(** A frame whose [hands] list is long enough for its [hand_count] and
    whose hands have the pivot landmarks. *)
Definition well_formed (hand_data : HandData) : Prop :=
  forall i, (i < hands_read hand_data)%nat ->
    exists h, hands hand_data !! i = Some h /\ has_pivot h.

(** A hand without landmarks. *)
Definition bare_hand (x y : R) : Hand :=
  {| landmarks := ∅; palm_center := (x, y); handedness := "Right" |}.

(** ** The distance between two palm centres *)

(** [_dist2d(a, b)]: the call [_eval_two_hand] makes for the sample it
    appends to the distance buffer. *)
Definition _dist2d (a b : Point2) : R :=
  math.hypot (fst a - fst b) (snd a - snd b).

(** ** Angles *)

(** A principal angle, as [math.atan2] returns them. *)
Definition principal (a : R) : Prop := - PI < a <= PI.

(** Every sample of the angle buffer is a principal angle. *)
Definition angles_principal (s : GestureRecognizer) : Prop :=
  Forall principal (_angle_buf s).

(** ** The cooldown table over time *)

(** The timestamps of a log never decrease. *)
Definition in_time_order (log : list (string * R)) : Prop :=
  forall (i j : nat) (gi gj : string) (ti tj : R),
    (i < j)%nat -> log !! i = Some (gi, ti) -> log !! j = Some (gj, tj) ->
    ti <= tj.

(** Every entry of the cooldown table belongs to a gesture kind and holds
    one of the first [n] readings of the clock. *)
Definition table_stamped (wall : nat -> R) (n : nat)
    (s : GestureRecognizer) : Prop :=
  forall g t, _cooldowns s !! g = Some t ->
    g ∈ gesture_kinds /\ exists k, (k < n)%nat /\ t = wall k.

(** * The detector: a shallow embedding of [hand_detector.py]

    [HandDetector.process] turns what MediaPipe reports for a frame into the
    dict that [update] reads.  The inference itself is a parameter: a
    function from images to results that may fail. *)

Module mediapipe.

Record NormalizedLandmark := {
  x : R;
  y : R;
  z : R
}.

Record Category := {
  category_name : string
}.

(** What [HandLandmarker.detect] returns: per hand, the landmarks and the
    handedness categories. *)
Record HandLandmarkerResult := {
  hand_landmarks : list (list NormalizedLandmark);
  handedness : list (list Category)
}.

End mediapipe.

(** The MediaPipe landmark indices [_LM], in the order of the dict. *)
Definition _LM : list (string * nat) :=
  [ ("wrist", 0%nat); ("thumb_tip", 4%nat); ("index_mcp", 5%nat);
    ("index_tip", 8%nat); ("middle_mcp", 9%nat); ("middle_tip", 12%nat);
    ("ring_mcp", 13%nat); ("ring_tip", 16%nat); ("pinky_mcp", 17%nat);
    ("pinky_tip", 20%nat) ].

(** Sequencing of computations that may raise and have no state. *)
Definition and_then {A B} (m : Outcome A) (k : A -> Outcome B) : Outcome B :=
  match m with
  | Return a => k a
  | Raise e => Raise e
  end.

(** [seq[i]] on a list, without state. *)
Definition at_index {A} (l : list A) (i : nat) : Outcome A :=
  match l !! i with Some v => Return v | None => Raise IndexError end.

(** [_empty_result()] *)
Definition _empty_result : HandData :=
  {| detected := false; hand_count := 0; hands := [] |}.

(** [_xyz(idx)], closed over the landmark list of one hand. *)
Definition _xyz (lm : list mediapipe.NormalizedLandmark) (idx : nat)
  : Outcome Point3 :=
  and_then (at_index lm idx) (fun l =>
  Return (mediapipe.x l, mediapipe.y l, mediapipe.z l)).

(** The dict comprehension [{name: _xyz(idx) for name, idx in items}],
    filling [d] from left to right. *)
Fixpoint landmarks_from (lm : list mediapipe.NormalizedLandmark)
    (items : list (string * nat)) (d : gmap string Point3)
  : Outcome (gmap string Point3) :=
  match items with
  | [] => Return d
  | (name, idx) :: rest =>
      and_then (_xyz lm idx) (fun p =>
      landmarks_from lm rest (<[name := p]> d))
  end.

(** The list comprehension [[lm_list[j] for j in indices]]. *)
Fixpoint points_at (lm : list mediapipe.NormalizedLandmark)
    (indices : list nat) : Outcome (list mediapipe.NormalizedLandmark) :=
  match indices with
  | [] => Return []
  | j :: rest =>
      and_then (at_index lm j) (fun p =>
      and_then (points_at lm rest) (fun ps =>
      Return (p :: ps)))
  end.

(** The builtin [sum] of a generator of floats, from 0. *)
Definition fsum (xs : list R) : R := foldl Rplus 0 xs.

(** The body of the loop over [enumerate(result.hand_landmarks)]. *)
Definition hand_of (result : mediapipe.HandLandmarkerResult) (i : nat)
    (lm_list : list mediapipe.NormalizedLandmark) : Outcome Hand :=
  and_then
    (if negb (bool_decide (mediapipe.handedness result = []))
        && bool_decide (i < length (mediapipe.handedness result))%nat
     then
       and_then (at_index (mediapipe.handedness result) i) (fun cats =>
       and_then (at_index cats 0) (fun cat =>
       Return (mediapipe.category_name cat)))
     else Return "Right")
    (fun handedness =>
  and_then (landmarks_from lm_list _LM ∅) (fun landmarks =>
  and_then (points_at lm_list [0; 5; 9; 13; 17]%nat) (fun palm_pts =>
  let px := fsum (mediapipe.x <$> palm_pts) / INR (length palm_pts) in
  let py := fsum (mediapipe.y <$> palm_pts) / INR (length palm_pts) in
  Return {| landmarks := landmarks;
            palm_center := (px, py);
            handedness := handedness |}))).

(** The loop itself: [hands.append(...)] for each hand in turn. *)
Fixpoint hands_from (result : mediapipe.HandLandmarkerResult) (i : nat)
    (rest : list (list mediapipe.NormalizedLandmark)) (hands : list Hand)
  : Outcome (list Hand) :=
  match rest with
  | [] => Return hands
  | lm_list :: rest =>
      and_then (hand_of result i lm_list) (fun hand =>
      hands_from result (S i) rest (hands ++ [hand]))
  end.

Section Detector.

(** The frames, and the inference on a frame: colour conversion and
    [self._landmarker.detect], [None] when either raises. *)
Variable Image : Type.
Variable detect : Image -> option mediapipe.HandLandmarkerResult.

(** [process(bgr_frame)] *)
Definition process (bgr_frame : option Image) : Outcome HandData :=
  match bgr_frame with
  | None => Return _empty_result
  | Some frame =>
      match detect frame with
      | None => Return _empty_result
      | Some result =>
          if bool_decide (mediapipe.hand_landmarks result = []) then
            Return _empty_result
          else
            and_then (hands_from result 0 (mediapipe.hand_landmarks result) [])
              (fun hands =>
            Return {| detected := true;
                      hand_count := Z.of_nat (length hands);
                      hands := hands |})
      end
  end.

End Detector.

(** ** Vocabulary for the detector *)

(** The names of [_LM]. *)
Definition landmark_names : list string := fst <$> _LM.

(** A result as MediaPipe gives it: 21 landmarks for each hand, and no
    empty handedness entry. *)
Definition full_result (result : mediapipe.HandLandmarkerResult) : Prop :=
  Forall (fun lm => length lm = 21%nat) (mediapipe.hand_landmarks result) /\
  Forall (fun cats => cats <> []) (mediapipe.handedness result).

(** The tuple [(l.x, l.y, l.z)]. *)
Definition xyz_of (l : mediapipe.NormalizedLandmark) : Point3 :=
  (mediapipe.x l, mediapipe.y l, mediapipe.z l).

(** The mean of the wrist and the four finger bases, per coordinate. *)
Definition palm_mean (coord : mediapipe.NormalizedLandmark -> R)
    (lm : list mediapipe.NormalizedLandmark) : R :=
  let at_ j := default 0 (coord <$> lm !! j) in
  (at_ 0%nat + at_ 5%nat + at_ 9%nat + at_ 13%nat + at_ 17%nat) / 5.

(** Twenty-one landmarks laid out like [hand_at]: the wrist, the four finger
    bases around the middle one, the tips further out. *)
Definition landmark_at (x y : R) : mediapipe.NormalizedLandmark :=
  {| mediapipe.x := x; mediapipe.y := y; mediapipe.z := 0 |}.

Definition lm_list_at (x y dx dy : R) : list mediapipe.NormalizedLandmark :=
  let p j :=
    match j with
    | 0%nat => landmark_at (x - 4 * dx / 5) (y - 4 * dy / 5)
    | 5%nat => landmark_at (x + dx / 5 - 3 * dy / 10) (y + dy / 5 + 3 * dx / 10)
    | 9%nat => landmark_at (x + dx / 5) (y + dy / 5)
    | 13%nat => landmark_at (x + dx / 5 + dy / 10) (y + dy / 5 - dx / 10)
    | 17%nat => landmark_at (x + dx / 5 + dy / 5) (y + dy / 5 - dx / 5)
    | 4%nat => landmark_at (x - dy / 2) (y + dx / 2)
    | 8%nat => landmark_at (x + dx - 3 * dy / 10) (y + dy + 3 * dx / 10)
    | 12%nat => landmark_at (x + dx) (y + dy)
    | 16%nat => landmark_at (x + dx + dy / 10) (y + dy - dx / 10)
    | 20%nat => landmark_at (x + dx + dy / 5) (y + dy - dx / 5)
    | _ => landmark_at x y
    end in
  p <$> seq 0 21.

(** A detection of one hand, and an inference that always reports it. *)
Definition result_at (x y dx dy : R) : mediapipe.HandLandmarkerResult :=
  {| mediapipe.hand_landmarks := [lm_list_at x y dx dy];
     mediapipe.handedness := [[{| mediapipe.category_name := "Right" |}]] |}.

Definition detect_at (x y dx dy : R) (_ : unit)
  : option mediapipe.HandLandmarkerResult :=
  Some (result_at x y dx dy).

(** A result whose only hand has a single landmark. *)
Definition short_result : mediapipe.HandLandmarkerResult :=
  {| mediapipe.hand_landmarks := [[landmark_at 0.5 0.5]];
     mediapipe.handedness := [] |}.

(** * The server and the camera loop: [websocket_server.py], [main.py]

    [send_gesture], [send_status], [broadcast] and the body of the heartbeat
    loop of [WebSocketServer], and the body of the loop of
    [run_camera_loop] without the debug window.  The camera and the
    inference are parameters.  The coroutines that [broadcast] hands to the
    event loop are recorded in the order of the calls; what the event loop
    does with them is not part of the embedding. *)

(** [config.HAND_TIMEOUT_SEC] *)
Definition HAND_TIMEOUT_SEC : R := 5.

(** The keyword arguments of the two calls of [send_status]. *)
Inductive StatusField :=
| camera (value : string)
| hand_timeout (value : bool).

(** The message dicts, by their ["type"]. *)
Inductive Message :=
| GestureMessage (gesture : string) (intensity velocity : R) (timestamp : Z)
| HeartbeatMessage (hand_detected : bool) (fps : R) (active_gesture : string)
    (timestamp : Z)
| StatusMessage (timestamp : Z) (field : StatusField).

(** The attributes of [WebSocketServer] that these methods use; [_loop] is
    whether the event loop has been set. *)
Record WebSocketServer := {
  _clients : gset nat;
  _loop : bool;
  hand_detected : bool;
  current_fps : R;
  active_gesture : string;
  _last_gesture_time : R
}.

(** [WebSocketServer.__init__] *)
Definition new_server : WebSocketServer := {|
  _clients := ∅;
  _loop := false;
  hand_detected := false;
  current_fps := 0;
  active_gesture := "idle";
  _last_gesture_time := 0
|}.

Definition set_hand_detected (v : bool) (srv : WebSocketServer) :=
  {| _clients := _clients srv; _loop := _loop srv; hand_detected := v;
     current_fps := current_fps srv; active_gesture := active_gesture srv;
     _last_gesture_time := _last_gesture_time srv |}.

Definition set_current_fps (v : R) (srv : WebSocketServer) :=
  {| _clients := _clients srv; _loop := _loop srv;
     hand_detected := hand_detected srv; current_fps := v;
     active_gesture := active_gesture srv;
     _last_gesture_time := _last_gesture_time srv |}.

Definition set_active_gesture (v : string) (srv : WebSocketServer) :=
  {| _clients := _clients srv; _loop := _loop srv;
     hand_detected := hand_detected srv; current_fps := current_fps srv;
     active_gesture := v; _last_gesture_time := _last_gesture_time srv |}.

Definition set_last_gesture_time (v : R) (srv : WebSocketServer) :=
  {| _clients := _clients srv; _loop := _loop srv;
     hand_detected := hand_detected srv; current_fps := current_fps srv;
     active_gesture := active_gesture srv; _last_gesture_time := v |}.

(** The state of the process: the recogniser with the clock position, the
    server, the coroutines handed to the event loop so far, and the two
    locals of [run_camera_loop]. *)
Record Process := {
  gest : World;
  ws_server : WebSocketServer;
  scheduled : list Message;
  last_hand_time : R;
  hand_timeout_sent : bool
}.

Definition set_gest (v : World) (p : Process) :=
  {| gest := v; ws_server := ws_server p; scheduled := scheduled p;
     last_hand_time := last_hand_time p;
     hand_timeout_sent := hand_timeout_sent p |}.

Definition set_ws_server (v : WebSocketServer) (p : Process) :=
  {| gest := gest p; ws_server := v; scheduled := scheduled p;
     last_hand_time := last_hand_time p;
     hand_timeout_sent := hand_timeout_sent p |}.

Definition set_scheduled (v : list Message) (p : Process) :=
  {| gest := gest p; ws_server := ws_server p; scheduled := v;
     last_hand_time := last_hand_time p;
     hand_timeout_sent := hand_timeout_sent p |}.

Definition set_last_hand_time (v : R) (p : Process) :=
  {| gest := gest p; ws_server := ws_server p; scheduled := scheduled p;
     last_hand_time := v; hand_timeout_sent := hand_timeout_sent p |}.

Definition set_hand_timeout_sent (v : bool) (p : Process) :=
  {| gest := gest p; ws_server := ws_server p; scheduled := scheduled p;
     last_hand_time := last_hand_time p; hand_timeout_sent := v |}.

(** The builtin [int] on a float: truncation towards zero. *)
Definition int (v : R) : Z :=
  if decide (0 <= v) then Zfloor v else (- Zfloor (- v))%Z.

(** [event.get("intensity", 0.0)] and [event.get("velocity", 0.0)] *)
Definition get_intensity (event : Event) : R :=
  match event with IntensityEvent _ v => v | VelocityEvent _ _ => 0 end.

Definition get_velocity (event : Event) : R :=
  match event with VelocityEvent _ v => v | IntensityEvent _ _ => 0 end.

(** What the camera delivers for one turn of the loop: [cam.get_frame()]
    and [cam.fps]. *)
Record Shot (Image : Type) := {
  shot_frame : option Image;
  shot_fps : R
}.
Arguments shot_frame {Image} s.
Arguments shot_fps {Image} s.

Section Server.

Variable wall : nat -> R.

(** [time.time()], on the clock the recogniser reads. *)
Definition clock (p : Process) : R * Process :=
  (wall (ticks (gest p)),
   set_gest {| self := self (gest p); ticks := S (ticks (gest p)) |} p).

(** [broadcast(message)] *)
Definition broadcast (message : Message) (p : Process) : Process :=
  if negb (_loop (ws_server p)) || bool_decide (_clients (ws_server p) = ∅)
  then p
  else set_scheduled (scheduled p ++ [message]) p.

(** [send_gesture(event)] *)
Definition send_gesture (event : Event) (p : Process) : Process :=
  let '(t, p) := clock p in
  let msg := GestureMessage (event_gesture event) (get_intensity event)
               (get_velocity event) (int (t * 1000)) in
  let p := set_ws_server
             (set_active_gesture (event_gesture event) (ws_server p)) p in
  let '(t, p) := clock p in
  let p := set_ws_server (set_last_gesture_time t (ws_server p)) p in
  broadcast msg p.

(** [send_status], with its one keyword argument *)
Definition send_status (field : StatusField) (p : Process) : Process :=
  let '(t, p) := clock p in
  broadcast (StatusMessage (int (t * 1000)) field) p.

(** One turn of [_heartbeat_loop] after the sleep, with the message it
    passes to [_async_broadcast]. *)
Definition heartbeat (p : Process) : Message * Process :=
  let '(t, p) := clock p in
  let p :=
    if decide (t - _last_gesture_time (ws_server p) > 1)
    then set_ws_server (set_active_gesture "idle" (ws_server p)) p
    else p in
  let '(t, p) := clock p in
  (HeartbeatMessage (hand_detected (ws_server p))
     (round (current_fps (ws_server p)) 1)
     (active_gesture (ws_server p)) (int (t * 1000)),
   p).

(** The camera, the mirroring and the inference. *)
Variable Image : Type.
Variable flip : Image -> Image.
Variable detect : Image -> option mediapipe.HandLandmarkerResult.

(** One turn of the loop of [run_camera_loop].  [Raise] is an exception
    that leaves the loop. *)
Definition camera_step (shot : Shot Image) (p : Process)
  : Outcome unit * Process :=
  match shot_frame shot with
  | None => (Return tt, send_status (camera "disconnected") p)
  | Some frame =>
      match process Image detect (Some (flip frame)) with
      | Raise _ => (Return tt, p)
      | Return hand_data =>
          let p := set_ws_server
                     (set_current_fps (shot_fps shot)
                        (set_hand_detected (detected hand_data)
                           (ws_server p))) p in
          let p :=
            if detected hand_data then
              let '(t, p) := clock p in
              set_hand_timeout_sent false (set_last_hand_time t p)
            else
              let '(t, p) := clock p in
              let elapsed := t - last_hand_time p in
              if bool_decide (elapsed > HAND_TIMEOUT_SEC)
                 && negb (hand_timeout_sent p)
              then set_hand_timeout_sent true
                     (send_status (hand_timeout true) p)
              else p in
          match update wall hand_data (gest p) with
          | (Raise e, w) => (Raise e, set_gest w p)
          | (Return None, w) => (Return tt, set_gest w p)
          | (Return (Some event), w) =>
              (Return tt, send_gesture event (set_gest w p))
          end
      end
  end.

(** The loop, for as many turns as the camera delivers shots, or until an
    exception leaves it. *)
Fixpoint camera_loop (shots : list (Shot Image)) (p : Process) : Process :=
  match shots with
  | [] => p
  | shot :: rest =>
      match camera_step shot p with
      | (Return _, p1) => camera_loop rest p1
      | (Raise _, p1) => p1
      end
  end.

(** The state in which [run_camera_loop] enters its loop: a fresh
    recogniser, and [last_hand_time] read from the clock. *)
Definition loop_entry (srv : WebSocketServer) : Process :=
  let p := {| gest := init_world; ws_server := srv; scheduled := [];
              last_hand_time := 0; hand_timeout_sent := false |} in
  let '(t, p) := clock p in
  set_last_hand_time t p.

End Server.

(** ** Vocabulary for the loop *)

(** A server with its event loop running and one client connected. *)
Definition serving : WebSocketServer := {|
  _clients := {[ 1%nat ]};
  _loop := true;
  hand_detected := false;
  current_fps := 0;
  active_gesture := "idle";
  _last_gesture_time := 0
|}.

(** A gesture message as the recogniser's events give them: a gesture
    kind, both magnitudes in the unit interval, one of them 0. *)
Definition gesture_message_ok (m : Message) : Prop :=
  match m with
  | GestureMessage g i v _ =>
      g ∈ gesture_kinds /\ 0 <= i <= 1 /\ 0 <= v <= 1 /\
      (if decide (g ∈ pan_kinds) then i = 0 else v = 0)
  | _ => True
  end.

(** The hand-timeout notices among the messages. *)
Definition is_hand_timeout (m : Message) : bool :=
  match m with
  | StatusMessage _ (hand_timeout _) => true
  | _ => false
  end.

Definition hand_timeouts (log : list Message) : nat :=
  length (filter (fun m => is_hand_timeout m = true) log).

(** The shots in which the detector finds a hand. *)
Definition sees_hand {Image} (flip : Image -> Image)
    (detect : Image -> option mediapipe.HandLandmarkerResult)
    (shot : Shot Image) : bool :=
  match shot_frame shot with
  | Some frame =>
      match process Image detect (Some (flip frame)) with
      | Return hand_data => detected hand_data
      | Raise _ => false
      end
  | None => false
  end.

(** A session: turns of the camera loop and of the heartbeat loop, in the
    order in which they run, until an exception leaves the camera loop and
    ends the process.  The result is the list of the heartbeat messages and
    the state left. *)
Inductive Action (Image : Type) :=
| Camera (shot : Shot Image)
| Heartbeat.
Arguments Camera {Image} shot.
Arguments Heartbeat {Image}.

Fixpoint session (wall : nat -> R) {Image} (flip : Image -> Image)
    (detect : Image -> option mediapipe.HandLandmarkerResult)
    (actions : list (Action Image)) (p : Process) : list Message * Process :=
  match actions with
  | [] => ([], p)
  | Camera shot :: rest =>
      match camera_step wall Image flip detect shot p with
      | (Return _, p1) => session wall flip detect rest p1
      | (Raise _, p1) => ([], p1)
      end
  | Heartbeat :: rest =>
      let '(m, p1) := heartbeat wall p in
      let '(log, p2) := session wall flip detect rest p1 in
      (m :: log, p2)
  end.

(** The hand-timeout notices sent, and one more if none has been sent
    since a hand was last seen. *)
Definition timeout_budget (p : Process) : nat :=
  hand_timeouts (scheduled p) + if hand_timeout_sent p then 0 else 1.

(** The labels a heartbeat can carry. *)
Definition gesture_labels : list string := "idle" :: gesture_kinds.

(** What the loop keeps true: buffered palm centres are inside the zone
    and the gesture messages handed over are well formed; the label is one
    of the nine. *)
Definition messages_ok (p : Process) : Prop :=
  palm_in_zone (self (gest p)) /\
  Forall gesture_message_ok (scheduled p).

Definition label_ok (p : Process) : Prop :=
  active_gesture (ws_server p) ∈ gesture_labels.

(** The label of a heartbeat message. *)
Definition heartbeat_label (m : Message) : option string :=
  match m with
  | HeartbeatMessage _ _ label _ => Some label
  | _ => None
  end.

(** The server can broadcast: its event loop is set and a client is
    connected. *)
Definition can_broadcast (srv : WebSocketServer) : Prop :=
  _loop srv = true /\ _clients srv <> ∅.

(** A shot without a frame. *)
Definition blank_shot {Image} (fps : R) : Shot Image :=
  {| shot_frame := None; shot_fps := fps |}.

(** ** Two hands moving apart, from the camera to the message

    The inference reports two hands at the same height, the second one [d]
    to the right of the first; the camera delivers the frames for
    [d = 0.2] and [d = 0.3]. *)

Definition zoom_detect (d : R) : option mediapipe.HandLandmarkerResult :=
  Some {| mediapipe.hand_landmarks :=
            [lm_list_at 0.35 0.5 0 (-0.1); lm_list_at (0.35 + d) 0.5 0 (-0.1)];
          mediapipe.handedness := [] |}.

Definition zoom_shots : list (Shot R) :=
  [ {| shot_frame := Some 0.2; shot_fps := 30 |};
    {| shot_frame := Some 0.3; shot_fps := 30 |} ].

(** No mirroring: the two hands are at the same height. *)
Definition no_flip (d : R) : R := d.

(** ** Two hands moving apart, seen by the recogniser

    Two detections of a pair of level hands inside the zone: the palms
    are 0.2 apart, then 0.3. *)
Definition zoom_frames : list HandData :=
  [ two_hands (hand_at 0.35 0.5 0 (-0.1)) (hand_at (0.35 + 0.2) 0.5 0 (-0.1));
    two_hands (hand_at 0.35 0.5 0 (-0.1)) (hand_at (0.35 + 0.3) 0.5 0 (-0.1)) ].

(** * Theorems *)

Arguments deque_append : simpl never.
Arguments Rabs : simpl never.
Arguments Rmin : simpl never.
Arguments round : simpl never.
Arguments math.hypot : simpl never.
Arguments math.atan2 : simpl never.
Arguments total_delta_loop : simpl never.
Arguments _hand_norm_dy : simpl never.
Arguments _eval_two_hand_pitch : simpl never.
Arguments _eval_two_hand : simpl never.
Arguments _eval_swipe : simpl never.
Arguments _eval_bearing : simpl never.
Arguments _eval_single_hand : simpl never.

(** ** Sliding buffers *)

Lemma deque_append_nil {A} (x : A) :
  deque_append config.SMOOTHING_WINDOW [] x = [x].
Proof. reflexivity. Qed.

Lemma deque_append_short {A} (buf : list A) (x : A) :
  (length buf < config.SMOOTHING_WINDOW)%nat ->
  deque_append config.SMOOTHING_WINDOW buf x = buf ++ [x].
Proof.
  intros Hlen. unfold deque_append, config.SMOOTHING_WINDOW in *.
  rewrite decide_False; [done |]. rewrite length_app. cbn. lia.
Qed.

Lemma deque_append_full {A} (y : A) (buf : list A) (x : A) :
  length (y :: buf) = config.SMOOTHING_WINDOW ->
  deque_append config.SMOOTHING_WINDOW (y :: buf) x = buf ++ [x].
Proof.
  intros Hlen. unfold deque_append, config.SMOOTHING_WINDOW in *.
  rewrite decide_True; [done |]. rewrite length_app. cbn in *. lia.
Qed.

Lemma deque_append_length {A} (n : nat) (buf : list A) (x : A) :
  (length buf <= n)%nat -> (length (deque_append n buf x) <= n)%nat.
Proof.
  intros Hlen. unfold deque_append. destruct n as [| n]; [done |].
  destruct (decide _) as [Hlt | Hge]; rewrite length_app in *;
    cbn [length] in *; [| lia].
  destruct buf as [| y buf]; cbn [app tail length] in *; [lia |].
  rewrite length_app. cbn [length]. lia.
Qed.

Lemma deque_append_last {A} (buf : list A) (x : A) :
  last (deque_append config.SMOOTHING_WINDOW buf x) = Some x.
Proof.
  unfold deque_append, config.SMOOTHING_WINDOW.
  destruct (decide _) as [Hlt |]; [| apply last_snoc].
  destruct buf as [| y buf]; [cbn in Hlt; lia |].
  cbn [app tail]. apply last_snoc.
Qed.

Lemma deque_append_elem {A} (n : nat) (buf : list A) (x y : A) :
  y ∈ deque_append n buf x -> y ∈ buf \/ y = x.
Proof.
  unfold deque_append. destruct n as [| n]; [by left |].
  destruct (decide _).
  - destruct buf as [| z buf]; cbn [app tail].
    + intros H. by apply elem_of_nil in H.
    + rewrite elem_of_app, list_elem_of_singleton.
      intros [H | H]; [left; by right | by right].
  - rewrite elem_of_app, list_elem_of_singleton. tauto.
Qed.

(** ** Routing *)

Lemma update_not_detected wall hd w :
  detected hd = false ->
  update wall hd w =
    (Return None, {| self := reset_idle (self w); ticks := ticks w |}).
Proof. intros Hd. unfold update. rewrite Hd. reflexivity. Qed.

Lemma update_no_hands wall hd w :
  detected hd = true -> (hand_count hd < 1)%Z ->
  update wall hd w =
    (Return None, {| self := reset_idle (self w); ticks := ticks w |}).
Proof.
  intros Hd Hc. unfold update. rewrite Hd. cbn.
  destruct (decide (hand_count hd >= 2)%Z); [lia |].
  destruct (decide (hand_count hd = 1)%Z); [lia |].
  reflexivity.
Qed.

Lemma update_two_hands wall hd a b rest w :
  detected hd = true -> (hand_count hd >= 2)%Z -> hands hd = a :: b :: rest ->
  update wall hd w = _eval_two_hand wall a b w.
Proof.
  intros Hd Hc Hh. unfold update. rewrite Hd, Hh. cbn.
  destruct (decide (hand_count hd >= 2)%Z); [reflexivity | lia].
Qed.

Lemma update_single_hand wall hd h rest w :
  detected hd = true -> hand_count hd = 1%Z -> hands hd = h :: rest ->
  update wall hd w = _eval_single_hand wall h w.
Proof. intros Hd Hc Hh. unfold update. rewrite Hd, Hc, Hh. reflexivity. Qed.

(** ** The activation zone *)

Lemma in_activation_zone_iff x y :
  _in_activation_zone (x, y) = true <->
  0.2 <= x <= 0.8 /\ 0.15 <= y <= 0.85.
Proof.
  unfold _in_activation_zone, config.ACTIVATION_ZONE.
  rewrite andb_true_iff, !bool_decide_eq_true. tauto.
Qed.

Lemma single_hand_outside_zone wall h w :
  _in_activation_zone (palm_center h) = false ->
  _eval_single_hand wall h w =
    (Return None, {| self := reset_idle (self w); ticks := ticks w |}).
Proof. intros Hz. unfold _eval_single_hand. cbn. rewrite Hz. reflexivity. Qed.

Lemma two_hand_outside_zone wall a b w :
  _in_activation_zone (palm_center a) = false ->
  _in_activation_zone (palm_center b) = false ->
  _eval_two_hand wall a b w =
    (Return None, {| self := two_hand_cleared (self w); ticks := ticks w |}).
Proof.
  intros Ha Hb. unfold _eval_two_hand. cbn. rewrite Ha, Hb. reflexivity.
Qed.

(** ** No hand: the full reset *)

Lemma update_idle wall hd w :
  detected hd = false \/ hand_count hd = 0%Z ->
  update wall hd w =
    (Return None, {| self := reset_idle (self w); ticks := ticks w |}).
Proof.
  intros [Hd | Hc].
  - by apply update_not_detected.
  - destruct (detected hd) eqn:Hd.
    + apply update_no_hands; [done | lia].
    + by apply update_not_detected.
Qed.

Lemma run_idle wall frames w :
  Forall (fun hd => detected hd = false \/ hand_count hd = 0%Z) frames ->
  run wall frames w =
    (fun _ => (None, {| self := reset_idle (self w); ticks := ticks w |}))
      <$> frames.
Proof.
  intros Hall. revert w. induction Hall as [| hd frames Hhd _ IH]; intros w.
  - reflexivity.
  - cbn [run fmap list_fmap]. rewrite (update_idle _ _ _ Hhd).
    rewrite IH. reflexivity.
Qed.

Lemma single_hand_first_sample wall h s t :
  _in_activation_zone (palm_center h) = true ->
  _palm_buf s = [] ->
  _eval_single_hand wall h {| self := s; ticks := t |} =
    (Return None,
     {| self := set_palm_buf [palm_center h]
                  (set_tilt_buf [] (set_dist_buf [] s));
        ticks := t |}).
Proof.
  intros Hz Hp. unfold _eval_single_hand. cbn. rewrite Hz. cbn.
  rewrite Hp, deque_append_nil. reflexivity.
Qed.

(** C9.  With a truthy [detected] flag and [hand_count] equal to 0, [update]
    does not raise: it returns [None] and leaves the object exactly as the
    no-detection branch does, all buffers empty, both swipe counters zero and
    the state idle. *)
Theorem update_detected_without_hands wall hd w :
  detected hd = true -> hand_count hd = 0%Z ->
  let w' := {| self := reset_idle (self w); ticks := ticks w |} in
  update wall hd w = (Return None, w') /\
  update wall hd w =
    update wall {| detected := false; hand_count := hand_count hd;
                   hands := hands hd |} w /\
  _state (self w') = STATE_IDLE /\
  _dist_buf (self w') = [] /\ _palm_buf (self w') = [] /\
  _tilt_buf (self w') = [] /\ _angle_buf (self w') = [] /\
  _swipe_frames_left (self w') = 0%Z /\ _swipe_frames_right (self w') = 0%Z.
Proof.
  intros Hd Hc w'. split; [| split].
  - apply update_no_hands; [done | lia].
  - rewrite update_no_hands by (done || lia).
    by rewrite update_not_detected.
  - by repeat split.
Qed.

Lemma update_detected_without_hands_witness :
  update steady_clock {| detected := true; hand_count := 0; hands := [] |}
    init_world = (Return None, init_world).
Proof.
  exact (proj1 (update_detected_without_hands steady_clock
    {| detected := true; hand_count := 0; hands := [] |} init_world
    eq_refl eq_refl)).
Defined.

(** C6.  A call without detection (or with [hand_count] 0) returns [None],
    sets the state to idle and empties the four buffers and both swipe
    counters; any number of such calls in a row all return [None]; and the
    next call, with one hand inside the zone, buffers a single sample and
    returns [None] too. *)
Theorem idle_is_idempotent wall w hd frames hd1 h rest :
  detected hd = false \/ hand_count hd = 0%Z ->
  Forall (fun hd => detected hd = false \/ hand_count hd = 0%Z) frames ->
  detected hd1 = true -> hand_count hd1 = 1%Z -> hands hd1 = h :: rest ->
  _in_activation_zone (palm_center h) = true ->
  let w0 := {| self := reset_idle (self w); ticks := ticks w |} in
  update wall hd w = (Return None, w0) /\
  (_state (self w0) = STATE_IDLE /\
   _dist_buf (self w0) = [] /\ _palm_buf (self w0) = [] /\
   _tilt_buf (self w0) = [] /\ _angle_buf (self w0) = [] /\
   _swipe_frames_left (self w0) = 0%Z /\
   _swipe_frames_right (self w0) = 0%Z) /\
  run wall frames w = (fun _ => (None, w0)) <$> frames /\
  update wall hd1 w0 =
    (Return None,
     {| self := set_palm_buf [palm_center h] (self w0); ticks := ticks w |}).
Proof.
  intros Hidle Hall Hd1 Hc1 Hh1 Hz w0. repeat split.
  - by apply update_idle.
  - by apply run_idle.
  - rewrite (update_single_hand _ _ _ _ _ Hd1 Hc1 Hh1).
    unfold w0. by rewrite single_hand_first_sample.
Qed.

Lemma hand_at_in_zone x y dx dy :
  0.2 <= x <= 0.8 -> 0.15 <= y <= 0.85 ->
  _in_activation_zone (palm_center (hand_at x y dx dy)) = true.
Proof. intros. by apply in_activation_zone_iff. Qed.

Lemma hand_at_left_of_zone x y dx dy :
  x < 0.2 -> _in_activation_zone (palm_center (hand_at x y dx dy)) = false.
Proof.
  intros. apply not_true_is_false. intros Hz.
  apply in_activation_zone_iff in Hz. lra.
Qed.

Lemma hand_at_right_of_zone x y dx dy :
  0.8 < x -> _in_activation_zone (palm_center (hand_at x y dx dy)) = false.
Proof.
  intros. apply not_true_is_false. intros Hz.
  apply in_activation_zone_iff in Hz. lra.
Qed.

Lemma idle_is_idempotent_witness :
  run steady_clock [no_hand; no_hand; no_hand] init_world =
    [(None, init_world); (None, init_world); (None, init_world)] /\
  update steady_clock (one_hand (hand_at 0.5 0.5 0 (-0.1))) init_world =
    (Return None,
     {| self := set_palm_buf [(0.5, 0.5)] __init__; ticks := 0 |}).
Proof.
  pose proof (idle_is_idempotent steady_clock init_world no_hand
    [no_hand; no_hand; no_hand] (one_hand (hand_at 0.5 0.5 0 (-0.1)))
    (hand_at 0.5 0.5 0 (-0.1)) []) as H.
  destruct H as (_ & _ & Hrun & Hone).
  - by left.
  - repeat constructor.
  - reflexivity.
  - reflexivity.
  - reflexivity.
  - apply hand_at_in_zone; lra.
  - split; [exact Hrun | exact Hone].
Defined.

(** ** Leaving the activation zone *)

(** C7, as the code has it.  The zone test is inclusive at its four bounds.
    A single-hand call outside the zone returns [None], empties every buffer
    and both swipe counters, sets the state to idle and keeps the cooldown
    table.  A two-hand call with both palms outside the zone returns [None]
    and keeps the state and the cooldown table, and it leaves all four
    buffers empty and both swipe counters at zero: the single-hand ones are
    cleared on entry to the two-hand evaluation, before the zone test. *)
Theorem zone_exit wall w hd1 h rest1 hd2 a b rest2 :
  detected hd1 = true -> hand_count hd1 = 1%Z -> hands hd1 = h :: rest1 ->
  _in_activation_zone (palm_center h) = false ->
  detected hd2 = true -> (hand_count hd2 >= 2)%Z ->
  hands hd2 = a :: b :: rest2 ->
  _in_activation_zone (palm_center a) = false ->
  _in_activation_zone (palm_center b) = false ->
  (forall x y, _in_activation_zone (x, y) = true <->
               0.2 <= x <= 0.8 /\ 0.15 <= y <= 0.85) /\
  _in_activation_zone (0.2, 0.15) = true /\
  update wall hd1 w =
    (Return None, {| self := reset_idle (self w); ticks := ticks w |}) /\
  _cooldowns (reset_idle (self w)) = _cooldowns (self w) /\
  update wall hd2 w =
    (Return None, {| self := two_hand_cleared (self w); ticks := ticks w |}) /\
  _state (two_hand_cleared (self w)) = _state (self w) /\
  _cooldowns (two_hand_cleared (self w)) = _cooldowns (self w) /\
  _dist_buf (two_hand_cleared (self w)) = [] /\
  _tilt_buf (two_hand_cleared (self w)) = [] /\
  _palm_buf (two_hand_cleared (self w)) = [] /\
  _angle_buf (two_hand_cleared (self w)) = [] /\
  _swipe_frames_left (two_hand_cleared (self w)) = 0%Z /\
  _swipe_frames_right (two_hand_cleared (self w)) = 0%Z.
Proof.
  intros Hd1 Hc1 Hh1 Hz1 Hd2 Hc2 Hh2 Hza Hzb.
  split; [apply in_activation_zone_iff |].
  split; [apply in_activation_zone_iff; lra |].
  split.
  { rewrite (update_single_hand _ _ _ _ _ Hd1 Hc1 Hh1).
    by apply single_hand_outside_zone. }
  split; [done |]. split; [| done].
  rewrite (update_two_hands _ _ _ _ _ _ Hd2 Hc2 Hh2).
  by apply two_hand_outside_zone.
Qed.

Lemma zone_exit_witness :
  update steady_clock (one_hand (hand_at 0.1 0.5 0 (-0.1))) init_world =
    (Return None, init_world) /\
  update steady_clock
    (two_hands (hand_at 0.1 0.5 0 (-0.1)) (hand_at 0.9 0.5 0 (-0.1)))
    init_world = (Return None, init_world).
Proof.
  pose proof (zone_exit steady_clock init_world
    (one_hand (hand_at 0.1 0.5 0 (-0.1))) (hand_at 0.1 0.5 0 (-0.1)) []
    (two_hands (hand_at 0.1 0.5 0 (-0.1)) (hand_at 0.9 0.5 0 (-0.1)))
    (hand_at 0.1 0.5 0 (-0.1)) (hand_at 0.9 0.5 0 (-0.1)) []) as H.
  destruct H as (_ & _ & H1 & _ & H2 & _).
  - reflexivity.
  - reflexivity.
  - reflexivity.
  - apply hand_at_left_of_zone; lra.
  - reflexivity.
  - cbn; lia.
  - reflexivity.
  - apply hand_at_left_of_zone; lra.
  - apply hand_at_right_of_zone; lra.
  - split; [exact H1 | exact H2].
Defined.

(** C7 as stated fails: one hand inside the zone fills the palm buffer, and
    the next call, with two hands both outside the zone, empties it, although
    it is not a two-hand buffer. *)
Lemma zone_exit_counterexample :
  let w1 := snd (update steady_clock
                   (one_hand (hand_at 0.5 0.5 0 (-0.1))) init_world) in
  let hd := two_hands (hand_at 0.1 0.5 0 (-0.1)) (hand_at 0.9 0.5 0 (-0.1)) in
  _in_activation_zone (0.1, 0.5) = false /\
  _in_activation_zone (0.9, 0.5) = false /\
  _palm_buf (self w1) = [(0.5, 0.5)] /\
  fst (update steady_clock hd w1) = Return None /\
  _palm_buf (self (snd (update steady_clock hd w1))) = [] /\
  _palm_buf (self (snd (update steady_clock hd w1))) <> _palm_buf (self w1).
Proof.
  assert (Hw1 : update steady_clock (one_hand (hand_at 0.5 0.5 0 (-0.1)))
                  init_world =
                (Return None,
                 {| self := set_palm_buf [(0.5, 0.5)] __init__; ticks := 0 |})).
  { rewrite (update_single_hand _ _ (hand_at 0.5 0.5 0 (-0.1)) []) by done.
    unfold init_world. rewrite single_hand_first_sample; [done | | done].
    apply hand_at_in_zone; lra. }
  cbv zeta. rewrite Hw1. cbn [snd].
  assert (Ha : _in_activation_zone (0.1, 0.5) = false)
    by (apply (hand_at_left_of_zone 0.1 0.5 0 0); lra).
  assert (Hb : _in_activation_zone (0.9, 0.5) = false)
    by (apply (hand_at_right_of_zone 0.9 0.5 0 0); lra).
  rewrite (update_two_hands _ _ (hand_at 0.1 0.5 0 (-0.1))
             (hand_at 0.9 0.5 0 (-0.1)) []) by (done || (cbn; lia)).
  rewrite two_hand_outside_zone by done.
  by repeat split.
Qed.

(** ** The cooldown gate *)

Lemma category_interval_cases g :
  g ∈ gesture_kinds ->
  (if String.prefix "pitch" g then config.PITCH_COOLDOWN_MS
   else if String.prefix "bearing" g then config.BEARING_COOLDOWN_MS
   else config.GESTURE_COOLDOWN_MS) = category_interval_ms g.
Proof.
  unfold gesture_kinds, category_interval_ms. intros Hg.
  repeat (apply elem_of_cons in Hg as [-> | Hg]);
    try (by apply elem_of_nil in Hg);
    destruct (decide _) as [Hin | Hin]; cbn; try reflexivity; exfalso.
  all: try (repeat (apply elem_of_cons in Hin as [Hin | Hin];
                    [discriminate Hin |]); by apply elem_of_nil in Hin).
  all: apply Hin; repeat constructor.
Qed.

Lemma can_emit_eq wall g w :
  g ∈ gesture_kinds ->
  _can_emit wall g w =
    (Return (bool_decide
       ((wall (ticks w) - last_emit (self w) g) * 1000
        >= category_interval_ms g)),
     {| self := self w; ticks := S (ticks w) |}).
Proof.
  intros Hg. unfold _can_emit, bind, get, time_time, ret. cbn.
  rewrite (category_interval_cases g Hg). reflexivity.
Qed.

Lemma gate_eq wall g f ev w :
  g ∈ gesture_kinds ->
  gate wall g f ev w =
    if decide ((wall (ticks w) - last_emit (self w) g) * 1000
               >= category_interval_ms g)
    then (Return (Some ev),
          {| self := f (set_cooldowns
                          (<[g := wall (S (ticks w))]> (_cooldowns (self w)))
                          (self w));
             ticks := S (S (ticks w)) |})
    else (Return None, {| self := self w; ticks := S (ticks w) |}).
Proof.
  intros Hg. unfold gate, bind. rewrite (can_emit_eq _ _ _ Hg).
  destruct (decide _) as [Hge | Hlt].
  - rewrite bool_decide_true by done. reflexivity.
  - rewrite bool_decide_false by done. reflexivity.
Qed.

(** ** Every path of [update] respects the gate *)

Lemma gated_step_gate wall g f ev w0 w :
  g ∈ gesture_kinds ->
  event_gesture ev = g ->
  (ticks w0 <= ticks w)%nat ->
  _cooldowns (self w) = _cooldowns (self w0) ->
  (forall s, _cooldowns (f s) = _cooldowns s) ->
  gated_step wall w0 (gate wall g f ev w).
Proof.
  intros Hg He Ht Hc Hf. rewrite gate_eq by done.
  unfold gated_step, last_emit in *. destruct (decide _) as [Hge | Hlt]; cbn.
  - rewrite He. split; [lia |]. split; [done |].
    exists (ticks w), (S (ticks w)). rewrite Hf. cbn.
    rewrite Hc in *. repeat split; try lia. done.
  - split; [lia | done].
Qed.

Lemma gated_step_none wall w0 w :
  (ticks w0 <= ticks w)%nat ->
  _cooldowns (self w) = _cooldowns (self w0) ->
  gated_step wall w0 (Return None, w).
Proof. intros. by split. Qed.

Lemma gated_step_raise wall w0 w e :
  (ticks w0 <= ticks w)%nat ->
  _cooldowns (self w) = _cooldowns (self w0) ->
  gated_step wall w0 (Raise e, w).
Proof. intros. by split. Qed.

(** A call continuing from a later world with the same table. *)
Lemma gated_step_from wall w0 w r :
  (ticks w0 <= ticks w)%nat ->
  _cooldowns (self w) = _cooldowns (self w0) ->
  gated_step wall w r -> gated_step wall w0 r.
Proof.
  intros Ht Hc [Ht' Hr]. split; [lia |].
  destruct (fst r) as [[e |] | e]; unfold last_emit in *; rewrite <- ?Hc; try done.
  destruct Hr as (Hg & tc & tr & ? & ? & ? & ? & ?).
  split; [done |]. exists tc, tr. repeat split; try done; lia.
Qed.

Ltac in_kinds :=
  unfold gesture_kinds;
  repeat first [apply list_elem_of_here | apply list_elem_of_further].

Ltac gated :=
  first
    [ unfold ret; apply gated_step_none; cbn; [lia | reflexivity]
    | unfold raise; apply gated_step_raise; cbn; [lia | reflexivity]
    | match goal with
      | |- gated_step ?wall ?w0
             (bind (_can_emit ?wall ?g)
                (fun ok => if negb ok then ret None
                           else (_record_emit _ _ >> modify ?f >>
                                 ret (Some ?ev))) ?w) =>
          apply (gated_step_gate wall g f ev w0 w)
      | |- gated_step ?wall ?w0
             (bind (_can_emit ?wall ?g)
                (fun ok => if negb ok then ret None
                           else (_record_emit _ _ >> ret (Some ?ev))) ?w) =>
          apply (gated_step_gate wall g (fun s => s) ev w0 w)
      | |- gated_step ?wall ?w0 (?body {| self := ?s1; ticks := S ?t |}) =>
          match body with
          | context [_record_emit wall ?g] =>
              match body with
              | context [Some ?ev] =>
                  change (gated_step wall w0
                            (gate wall g (fun s => s) ev {| self := s1; ticks := t |}));
                  apply gated_step_gate
              end
          end
      end;
      [in_kinds | reflexivity | cbn; lia | reflexivity | intros; reflexivity] ].

Lemma gated_step_swipe wall v w :
  gated_step wall w (_eval_swipe wall v w).
Proof.
  unfold _eval_swipe. unfold bind at 1.
  destruct (decide (v < - config.SWIPE_VELOCITY_THRESHOLD)); cbn.
  { repeat (destruct (decide _)); gated. }
  destruct (decide (v > config.SWIPE_VELOCITY_THRESHOLD)); cbn.
  { repeat (destruct (decide _)); gated. }
  gated.
Qed.

Lemma gated_step_bearing wall h w :
  gated_step wall w (_eval_bearing wall h w).
Proof.
  unfold _eval_bearing, item. unfold bind at 1.
  destruct (landmarks h !! "wrist") as [wr |]; cbn; [| gated].
  unfold bind at 1.
  destruct (landmarks h !! "middle_mcp") as [mm |]; cbn; [| gated].
  destruct (decide _); [gated |]. cbn.
  destruct (decide _); [gated |].
  destruct (decide _); [gated |].
  destruct (decide _); cbn; gated.
Qed.

Lemma gated_step_pitch wall w :
  gated_step wall w (_eval_two_hand_pitch wall w).
Proof.
  unfold _eval_two_hand_pitch, newest, first. cbn.
  destruct (decide _); [gated |].
  unfold bind at 1. destruct (last _); cbn; [| gated].
  unfold bind at 1. destruct (head _); cbn; [| gated].
  destruct (decide _); [gated |].
  destruct (decide _); cbn; gated.
Qed.

Lemma hand_norm_dy_world h w :
  exists o, _hand_norm_dy h w = (o, w).
Proof.
  unfold _hand_norm_dy, item. unfold bind at 1.
  destruct (landmarks h !! "wrist"); cbn; [| by eexists].
  unfold bind at 1.
  destruct (landmarks h !! "middle_mcp"); cbn; by eexists.
Qed.

Lemma gated_step_two_hand wall a b w :
  gated_step wall w (_eval_two_hand wall a b w).
Proof.
  unfold _eval_two_hand. cbn.
  destruct (_ && _); cbn; [gated |].
  unfold bind at 1.
  match goal with |- context [_hand_norm_dy a ?w1] =>
    destruct (hand_norm_dy_world a w1) as [oa ->] end.
  destruct oa as [ndy_a |]; [| gated].
  unfold bind at 1.
  match goal with |- context [_hand_norm_dy b ?w1] =>
    destruct (hand_norm_dy_world b w1) as [ob ->] end.
  destruct ob as [ndy_b |]; [| gated].
  unfold newest, first.
  destruct ndy_a, ndy_b; cbn.
  all: destruct (decide _); [gated |].
  all: unfold bind at 1; destruct (last _); cbn; [| gated].
  all: unfold bind at 1; destruct (head _); cbn; [| gated].
  all: destruct (decide _); cbn;
    [ destruct (decide _); cbn; gated
    | eapply gated_step_from; [| | apply gated_step_pitch]; cbn;
      [lia | reflexivity] ].
Qed.

Lemma gated_step_single_hand wall h w :
  gated_step wall w (_eval_single_hand wall h w).
Proof.
  unfold _eval_single_hand, newest, first. cbn.
  destruct (negb _); cbn; [gated |].
  destruct (decide _); [gated |].
  unfold bind at 1. destruct (last _); cbn; [| gated].
  unfold bind at 1. destruct (head _); cbn; [| gated].
  unfold bind at 1.
  match goal with |- context [_eval_swipe wall ?v ?w1] =>
    pose proof (gated_step_swipe wall v w1) as Hs;
    destruct (_eval_swipe wall v w1) as [[[e |] | e] w2] end.
  - cbn. destruct Hs as [Ht Hs]. split; [cbn in *; lia |]. exact Hs.
  - destruct Hs as [Ht Hs]. cbn in Ht, Hs.
    eapply gated_step_from; [| | apply gated_step_bearing]; [lia | done].
  - exact Hs.
Qed.

Lemma gated_step_update wall hd w :
  gated_step wall w (update wall hd w).
Proof.
  unfold update, subscript.
  destruct (negb _); cbn; [gated |].
  destruct (decide _).
  - unfold bind at 1. destruct (hands hd !! 0%nat); cbn; [| gated].
    unfold bind at 1. destruct (hands hd !! 1%nat); cbn; [| gated].
    apply gated_step_two_hand.
  - destruct (decide _); [| gated].
    unfold bind at 1. destruct (hands hd !! 0%nat); cbn; [| gated].
    apply gated_step_single_hand.
Qed.

(** ** Runs *)

Lemma category_interval_pos g : 0 < category_interval_ms g.
Proof. unfold category_interval_ms. destruct (decide _); lra. Qed.

Lemma run_cons wall hd rest w :
  run wall (hd :: rest) w =
    match update wall hd w with
    | (Return ev, w1) => (ev, w1) :: run wall rest w1
    | (Raise _, _) => []
    end.
Proof. reflexivity. Qed.

(** One call never lowers a stored timestamp. *)
Lemma last_emit_step wall hd w g :
  monotone wall ->
  last_emit (self w) g <= last_emit (self (snd (update wall hd w))) g.
Proof.
  intros Hmono. destruct (gated_step_update wall hd w) as [_ Hstep].
  destruct (update wall hd w) as [[[e |] | e] w1]; cbn in *;
    unfold last_emit in *; try (rewrite Hstep; lra).
  destruct Hstep as (_ & tc & tr & _ & Hle & _ & Hgate & ->).
  destruct (decide (event_gesture e = g)) as [<- | Hne].
  - rewrite lookup_insert_eq. cbn.
    pose proof (Hmono tc tr Hle).
    pose proof (category_interval_pos (event_gesture e)). lra.
  - rewrite lookup_insert_ne by done. lra.
Qed.

(** The timestamp of an emitted event, against the table before the call. *)
Lemma emission_step wall hd w e w1 :
  monotone wall ->
  update wall hd w = (Return (Some e), w1) ->
  (last_emit (self w1) (event_gesture e)
   - last_emit (self w) (event_gesture e)) * 1000
  >= category_interval_ms (event_gesture e).
Proof.
  intros Hmono Hup. destruct (gated_step_update wall hd w) as [_ Hstep].
  rewrite Hup in Hstep. cbn in Hstep.
  destruct Hstep as (_ & tc & tr & _ & Hle & _ & Hgate & Hc).
  unfold last_emit in *. rewrite Hc, lookup_insert_eq. cbn.
  pose proof (Hmono tc tr Hle). lra.
Qed.

(** Every later emission of a kind is at least its interval after the
    timestamp stored now. *)
Lemma future_emission wall frames w g t :
  monotone wall ->
  (g, t) ∈ emissions (run wall frames w) ->
  (t - last_emit (self w) g) * 1000 >= category_interval_ms g.
Proof.
  intros Hmono. revert w. induction frames as [| hd rest IH]; intros w Hin.
  { by apply elem_of_nil in Hin. }
  rewrite run_cons in Hin.
  pose proof (last_emit_step wall hd w g Hmono) as Hlast.
  pose proof (emission_step wall hd w) as Hem.
  destruct (update wall hd w) as [[ev |] w1]; [| by apply elem_of_nil in Hin].
  cbn in Hlast.
  unfold emissions in Hin. cbn [omap list_omap] in Hin.
  assert (Htail : (g, t) ∈ emissions (run wall rest w1) ->
                  (t - last_emit (self w) g) * 1000 >= category_interval_ms g).
  { intros H. apply IH in H. lra. }
  destruct ev as [e |]; cbn in Hin; [| by apply Htail].
  apply elem_of_cons in Hin as [Heq | Hin]; [| by apply Htail].
  injection Heq as -> ->. by apply Hem.
Qed.

Lemma separated_nil : separated [].
Proof. intros i j g ti tj _ Hi. by rewrite lookup_nil in Hi. Qed.

Lemma separated_cons g t log :
  (forall t', (g, t') ∈ log -> (t' - t) * 1000 >= category_interval_ms g) ->
  separated log -> separated ((g, t) :: log).
Proof.
  intros Hhead Htail i j g' ti tj Hij Hi Hj.
  destruct j as [| j]; [lia |]. cbn in Hj.
  destruct i as [| i]; cbn in Hi.
  - injection Hi as <- <-. apply Hhead.
    apply list_elem_of_lookup. by exists j.
  - apply (Htail i j g' ti tj); [lia | done | done].
Qed.

Lemma run_separated wall frames w :
  monotone wall -> separated (emissions (run wall frames w)).
Proof.
  intros Hmono. revert w. induction frames as [| hd rest IH]; intros w.
  { apply separated_nil. }
  rewrite run_cons.
  destruct (update wall hd w) as [[ev |] w1] eqn:Hup; [| apply separated_nil].
  unfold emissions. cbn [omap list_omap].
  destruct ev as [e |]; cbn; [| apply IH].
  apply separated_cons; [| apply IH].
  intros t' Hin. by apply future_emission in Hin.
Qed.

(** ** Numbers: [hypot], [atan2], [round] *)

Lemma hypot_eq a b c : 0 <= c -> a * a + b * b = c * c -> math.hypot a b = c.
Proof. intros Hc Heq. unfold math.hypot. rewrite Heq. by apply sqrt_square. Qed.

Lemma atan2_east y x : 0 < x -> y = 0 -> math.atan2 y x = 0.
Proof.
  intros Hx ->. unfold math.atan2. rewrite decide_True by done.
  replace (0 / x) with 0 by (field; lra). apply atan_0.
Qed.

Lemma atan2_south y x : x = 0 -> 0 < y -> math.atan2 y x = PI / 2.
Proof.
  intros -> Hy. unfold math.atan2.
  rewrite decide_False by lra. rewrite decide_False by lra.
  by rewrite decide_True.
Qed.

Lemma round_half_even_IZR z : round_half_even (IZR z) = z.
Proof.
  unfold round_half_even. rewrite ZfloorZ.
  rewrite decide_True by lra. reflexivity.
Qed.

(** Multiples of a thousandth are left alone by [round(x, 3)]. *)
Lemma round_thousandths z x : x = IZR z / 1000 -> round x 3 = x.
Proof.
  intros ->. unfold round.
  replace (IZR z / 1000 * 10 ^ 3) with (IZR z) by (cbn; field).
  rewrite round_half_even_IZR. cbn. f_equal. lra.
Qed.

Lemma round_half_even_mono_bounds y (lo hi : Z) :
  IZR lo <= y <= IZR hi -> (lo <= round_half_even y <= hi)%Z.
Proof.
  intros [Hlo Hhi]. unfold round_half_even.
  pose proof (Zfloor_bound y) as [Hf1 Hf2].
  assert (lo <= Zfloor y)%Z by (by apply Zfloor_lub).
  assert (Zfloor y <= hi)%Z.
  { apply le_IZR. lra. }
  assert (Hstep : y - IZR (Zfloor y) > 0 -> (Zfloor y + 1 <= hi)%Z).
  { intros Hpos. assert (Zfloor y < hi)%Z by (apply lt_IZR; lra). lia. }
  destruct (decide _); [lia |].
  destruct (decide _); [split; [lia | apply Hstep; lra] |].
  destruct (Z.even _); [lia |]. split; [lia | apply Hstep; lra].
Qed.

Lemma round_unit x : 0 <= x <= 1 -> 0 <= round x 3 <= 1.
Proof.
  intros Hx. unfold round.
  assert (H10 : 10 ^ 3 = 1000) by (cbn; lra). rewrite H10.
  destruct (round_half_even_mono_bounds (x * 1000) 0 1000) as [Hlo Hhi].
  { lra. }
  apply IZR_le in Hlo, Hhi. lra.
Qed.

Lemma Rmin_unit x : 0 <= x -> 0 <= Rmin x 1 <= 1.
Proof.
  intros Hx. split; [apply Rmin_glb; lra | apply Rmin_r].
Qed.

Lemma PI_bounds : 3.1415 < PI < 3.1416.
Proof.
  pose proof (PI_2_3_7_ineq 2) as [Hlo Hhi].
  unfold sum_f_R0, tg_alt, PI_2_3_7_tg, Ratan_seq in Hlo, Hhi.
  cbn [Nat.mul Nat.add pow INR] in Hlo, Hhi.
  split; lra.
Qed.

(** ** Bearing: the unwrapped sum *)

Lemma total_delta_loop_from (pre : list R) (a : R) (rest : list R) (acc : R) :
  foldl (fun total_delta i =>
           let d := nth i (pre ++ a :: rest) 0
                    - nth (i - 1) (pre ++ a :: rest) 0 in
           let d := if decide (d > math.pi) then d - 2 * math.pi
                    else if decide (d < - math.pi) then d + 2 * math.pi
                    else d in
           total_delta + d)
        acc (seq (S (length pre)) (length rest))
  = acc + net_rotation (a :: rest).
Proof.
  revert pre a acc. induction rest as [| b rest IH]; intros pre a acc.
  { cbn. lra. }
  cbn [length seq foldl].
  replace (S (length pre) - 1)%nat with (length pre) by lia.
  rewrite (app_nth2 pre (a :: b :: rest) 0 (n := S (length pre))) by lia.
  rewrite (app_nth2 pre (a :: b :: rest) 0 (n := length pre)) by lia.
  replace (S (length pre) - length pre)%nat with 1%nat by lia.
  rewrite Nat.sub_diag. cbn [nth].
  specialize (IH (pre ++ [a]) b). rewrite length_app in IH. cbn [length] in IH.
  replace (length pre + 1)%nat with (S (length pre)) in IH by lia.
  rewrite <- app_assoc in IH. cbn [app] in IH.
  rewrite IH. cbn [net_rotation]. unfold unwrap, math.pi. lra.
Qed.

Lemma total_delta_loop_net_rotation buf :
  total_delta_loop buf = net_rotation buf.
Proof.
  unfold total_delta_loop. destruct buf as [| a rest]; [reflexivity |].
  cbn [length]. replace (S (length rest) - 1)%nat with (length rest) by lia.
  rewrite <- (Rplus_0_l (net_rotation (a :: rest))).
  exact (total_delta_loop_from [] a rest 0).
Qed.

(** C5.  The loop of [_eval_bearing] computes the sum, over consecutive
    pairs of buffered angles, of the delta corrected by [- 2 pi] above [pi]
    and by [+ 2 pi] below [- pi]; on the angles 3.0, 3.1, -3.1, -3.0 it
    yields 0.1 + (2 pi - 6.2) + 0.1, which is about 0.283. *)
Theorem bearing_unwrap :
  (forall buf, total_delta_loop buf = net_rotation buf) /\
  (forall a b rest,
     net_rotation (a :: b :: rest) = unwrap (b - a) + net_rotation (b :: rest)) /\
  (forall d, unwrap d = if decide (d > PI) then d - 2 * PI
                        else if decide (d < - PI) then d + 2 * PI else d) /\
  total_delta_loop [3.0; 3.1; -3.1; -3.0] = 0.1 + (2 * PI - 6.2) + 0.1 /\
  0.283 < total_delta_loop [3.0; 3.1; -3.1; -3.0] < 0.284.
Proof.
  pose proof PI_bounds as HPI.
  assert (Hsum : total_delta_loop [3.0; 3.1; -3.1; -3.0]
                 = 0.1 + (2 * PI - 6.2) + 0.1).
  { rewrite total_delta_loop_net_rotation. cbn [net_rotation]. unfold unwrap.
    repeat (destruct (decide _); try lra). }
  split; [apply total_delta_loop_net_rotation |].
  split; [reflexivity |]. split; [reflexivity |].
  split; [exact Hsum |]. rewrite Hsum. lra.
Qed.

(** ** Two hands: zoom before pitch *)

Ltac Rabs_lra := unfold Rabs in *; repeat destruct (Rcase_abs _); lra.

Lemma hand_norm_dy_eq h wr mm w :
  landmarks h !! "wrist" = Some wr ->
  landmarks h !! "middle_mcp" = Some mm ->
  _hand_norm_dy h w = (Return (norm_dy wr mm), w).
Proof.
  intros Hwr Hmm. unfold _hand_norm_dy, item, bind. rewrite Hwr. cbn.
  rewrite Hmm. reflexivity.
Qed.

Lemma window_ends (buf : list R) :
  (2 <= length buf)%nat ->
  exists hi lo, last buf = Some hi /\ head buf = Some lo /\
                window_delta buf = hi - lo.
Proof.
  intros Hlen. unfold window_delta.
  destruct buf as [| lo rest]; [cbn in Hlen; lia |].
  destruct (last (lo :: rest)) as [hi |] eqn:Hlast.
  - by exists hi, lo.
  - apply last_None in Hlast. discriminate.
Qed.

Arguments gate : simpl never.

Lemma eval_two_hand_pitch_eq wall s t :
  _eval_two_hand_pitch wall {| self := s; ticks := t |} =
    let tilt := window_delta (_tilt_buf s) in
    if decide (2 <= length (_tilt_buf s))%nat then
      if decide (Rabs tilt >= config.PITCH_TILT_RATE_MIN) then
        let g := if decide (tilt < 0) then "pitch_up" else "pitch_down" in
        gate wall g (fun s => s)
          (IntensityEvent g (round (Rmin (Rabs tilt / 0.3) 1) 3))
          {| self := set_state (state_of_gesture g) s; ticks := t |}
      else (Return None, {| self := s; ticks := t |})
    else (Return None, {| self := s; ticks := t |}).
Proof.
  unfold _eval_two_hand_pitch, newest, first. cbn.
  destruct (decide (length _ < 2)%nat) as [Hlt | Hge];
    destruct (decide (2 <= length _)%nat) as [Hlen | Hlen]; try lia;
    [reflexivity |].
  destruct (window_ends (_tilt_buf s)) as (hi & lo & -> & -> & ->); [lia |].
  cbn.
  destruct (decide (Rabs (hi - lo) < _)) as [Hq | Hq];
    destruct (decide (Rabs (hi - lo) >= _)) as [Hq' | Hq']; try lra;
    [reflexivity |].
  destruct (decide (hi - lo < 0)); reflexivity.
Qed.

Lemma eval_two_hand_eq wall a b s t wr_a mm_a wr_b mm_b :
  _in_activation_zone (palm_center a) = true \/
  _in_activation_zone (palm_center b) = true ->
  landmarks a !! "wrist" = Some wr_a ->
  landmarks a !! "middle_mcp" = Some mm_a ->
  landmarks b !! "wrist" = Some wr_b ->
  landmarks b !! "middle_mcp" = Some mm_b ->
  let s1 := two_hand_accumulate a b (norm_dy wr_a mm_a) (norm_dy wr_b mm_b) s in
  (2 <= length (_dist_buf s1))%nat ->
  _eval_two_hand wall a b {| self := s; ticks := t |} =
    match two_hand_classification (_dist_buf s1) (_tilt_buf s1) with
    | Some (g, m) =>
        gate wall g (fun s => s) (IntensityEvent g (round m 3))
          {| self := set_state (state_of_gesture g) s1; ticks := t |}
    | None => (Return None, {| self := s1; ticks := t |})
    end.
Proof.
  intros Hzone Hwa Hma Hwb Hmb s1 Hlen.
  assert (Hacc : forall k : unit -> M (option Event),
    (match norm_dy wr_a mm_a, norm_dy wr_b mm_b with
     | Some x, Some y =>
         modify (fun s => set_tilt_buf
           (deque_append config.SMOOTHING_WINDOW (_tilt_buf s) ((x + y) / 2)) s)
     | _, _ => ret tt
     end >> k tt)
      {| self := set_dist_buf
           (deque_append config.SMOOTHING_WINDOW (_dist_buf s)
              (math.hypot (fst (palm_center a) - fst (palm_center b))
                          (snd (palm_center a) - snd (palm_center b))))
           (set_swipe_frames_right 0
              (set_swipe_frames_left 0
                 (set_angle_buf [] (set_palm_buf [] s))));
         ticks := t |}
    = k tt {| self := s1; ticks := t |}).
  { intros k. unfold s1, two_hand_accumulate.
    destruct (norm_dy wr_a mm_a), (norm_dy wr_b mm_b); reflexivity. }
  clearbody s1.
  unfold _eval_two_hand. cbn.
  replace (negb (_in_activation_zone (palm_center a))
           && negb (_in_activation_zone (palm_center b))) with false
    by (destruct Hzone as [-> | ->]; [done | by rewrite andb_false_r]).
  cbn. unfold bind at 1. rewrite (hand_norm_dy_eq a wr_a mm_a) by done.
  unfold bind at 1. rewrite (hand_norm_dy_eq b wr_b mm_b) by done.
  rewrite (Hacc (fun _ => _)). clear Hacc.
  unfold two_hand_classification, newest, first. cbn.
  destruct (decide (length _ < 2)%nat) as [Hlt | _]; [lia |].
  destruct (window_ends (_dist_buf s1)) as (hi & lo & -> & -> & ->); [lia |].
  cbn.
  destruct (decide (Rabs (hi - lo) >= _)) as [Hz | Hz].
  - destruct (decide (hi - lo > 0)) as [Hpos | Hneg].
    + rewrite decide_True by lra. reflexivity.
    + rewrite (decide_False (P := 0 < hi - lo)) by lra.
      rewrite decide_True; [reflexivity |].
      unfold config.ZOOM_DIST_RATE_MIN in Hz. Rabs_lra.
  - rewrite (eval_two_hand_pitch_eq wall s1 t). cbv zeta.
    destruct (decide (2 <= _)%nat); [| reflexivity].
    destruct (decide (Rabs _ >= _)) as [Hp | Hp]; [| reflexivity].
    destruct (decide (window_delta (_tilt_buf s1) < 0)) as [Hup | Hdown];
      [reflexivity |].
    rewrite decide_True; [reflexivity |].
    unfold config.PITCH_TILT_RATE_MIN in Hp. Rabs_lra.
Qed.

(** The palm centre of [hand_at] is the mean of its wrist and finger bases,
    as the detector computes it. *)
Lemma hand_at_palm_center x y dx dy :
  let lm k := default (0, 0, 0) (landmarks (hand_at x y dx dy) !! k) in
  palm_center (hand_at x y dx dy) =
    ((px (lm "wrist") + px (lm "index_mcp") + px (lm "middle_mcp")
      + px (lm "ring_mcp") + px (lm "pinky_mcp")) / 5,
     (py (lm "wrist") + py (lm "index_mcp") + py (lm "middle_mcp")
      + py (lm "ring_mcp") + py (lm "pinky_mcp")) / 5).
Proof.
  cbv zeta. unfold hand_at. cbn [landmarks palm_center].
  repeat (rewrite ?lookup_insert_eq; rewrite ?lookup_insert_ne by done).
  unfold wrist_of, middle_mcp_of, px, py. cbn. f_equal; lra.
Qed.

Lemma hand_at_wrist x y dx dy :
  landmarks (hand_at x y dx dy) !! "wrist" = Some (wrist_of x y dx dy).
Proof. apply lookup_insert_eq. Qed.

Lemma hand_at_middle_mcp x y dx dy :
  landmarks (hand_at x y dx dy) !! "middle_mcp"
  = Some (middle_mcp_of x y dx dy).
Proof.
  unfold hand_at. cbn [landmarks].
  rewrite lookup_insert_ne by done. apply lookup_insert_eq.
Qed.

(** C4, as the code has it.  A two-hand call that evaluates (a palm inside
    the zone, landmarks present) and has at least two distance samples
    classifies zoom first: [zoom_out] for a positive window delta, [zoom_in]
    for a negative one, without looking at the tilt buffer; failing that,
    pitch from the tilt buffer; failing that, it returns [None].  The
    classified gesture then goes through the cooldown gate, and the
    magnitude the event carries is [min(|delta| / 0.3, 1)] rounded to three
    decimals, [round(intensity, 3)], not [min(|delta| / 0.3, 1)] itself. *)
Theorem two_hand_decision wall hd a b rest w wr_a mm_a wr_b mm_b :
  detected hd = true -> (hand_count hd >= 2)%Z -> hands hd = a :: b :: rest ->
  _in_activation_zone (palm_center a) = true \/
  _in_activation_zone (palm_center b) = true ->
  landmarks a !! "wrist" = Some wr_a ->
  landmarks a !! "middle_mcp" = Some mm_a ->
  landmarks b !! "wrist" = Some wr_b ->
  landmarks b !! "middle_mcp" = Some mm_b ->
  let s1 := two_hand_accumulate a b (norm_dy wr_a mm_a) (norm_dy wr_b mm_b)
              (self w) in
  (2 <= length (_dist_buf s1))%nat ->
  update wall hd w =
    match two_hand_classification (_dist_buf s1) (_tilt_buf s1) with
    | Some (g, m) =>
        gate wall g (fun s => s) (IntensityEvent g (round m 3))
          {| self := set_state (state_of_gesture g) s1; ticks := ticks w |}
    | None => (Return None, {| self := s1; ticks := ticks w |})
    end.
Proof.
  intros Hd Hc Hh Hzone Hwa Hma Hwb Hmb s1 Hlen.
  rewrite (update_two_hands _ _ _ _ _ _ Hd Hc Hh).
  destruct w as [s t]. by apply eval_two_hand_eq.
Qed.

Lemma two_hand_decision_witness :
  let a := hand_at 0.35 0.5 0 (-0.1) in
  let b := hand_at 0.65 0.5 0 (-0.1) in
  let w := {| self := set_tilt_buf [-1] (set_dist_buf [0.2] __init__);
              ticks := 0 |} in
  let s1 := two_hand_accumulate a b
              (norm_dy (wrist_of 0.35 0.5 0 (-0.1))
                       (middle_mcp_of 0.35 0.5 0 (-0.1)))
              (norm_dy (wrist_of 0.65 0.5 0 (-0.1))
                       (middle_mcp_of 0.65 0.5 0 (-0.1))) (self w) in
  update steady_clock (two_hands a b) w =
    match two_hand_classification (_dist_buf s1) (_tilt_buf s1) with
    | Some (g, m) =>
        gate steady_clock g (fun s => s) (IntensityEvent g (round m 3))
          {| self := set_state (state_of_gesture g) s1; ticks := ticks w |}
    | None => (Return None, {| self := s1; ticks := ticks w |})
    end.
Proof.
  intros a b w s1.
  apply (two_hand_decision steady_clock (two_hands a b) a b [] w
           (wrist_of 0.35 0.5 0 (-0.1)) (middle_mcp_of 0.35 0.5 0 (-0.1))
           (wrist_of 0.65 0.5 0 (-0.1)) (middle_mcp_of 0.65 0.5 0 (-0.1))).
  - reflexivity.
  - cbn; lia.
  - reflexivity.
  - left. apply hand_at_in_zone; lra.
  - apply hand_at_wrist.
  - apply hand_at_middle_mcp.
  - apply hand_at_wrist.
  - apply hand_at_middle_mcp.
  - cbn. rewrite deque_append_short by (cbv; lia). cbn. lia.
Defined.

(** ** The cooldown, over whole runs *)

Lemma final_cons w step steps :
  final w (step :: steps) = final (snd step) steps.
Proof.
  unfold final. rewrite last_cons. by destruct (last steps).
Qed.

(** A kind that a run never emits keeps its entry, or its absence. *)
Lemma never_emitted wall frames w g :
  (forall t, (g, t) ∉ emissions (run wall frames w)) ->
  _cooldowns (self (final w (run wall frames w))) !! g
  = _cooldowns (self w) !! g.
Proof.
  revert w. induction frames as [| hd rest IH]; intros w Hnot; [done |].
  rewrite run_cons in *.
  destruct (gated_step_update wall hd w) as [_ Hstep].
  destruct (update wall hd w) as [[ev |] w1]; [| done].
  rewrite final_cons. cbn [snd fst] in *.
  unfold emissions in Hnot. cbn [omap list_omap] in Hnot.
  destruct ev as [e |]; cbn in Hnot, Hstep.
  - destruct Hstep as (_ & tc & tr & _ & _ & _ & _ & Hc).
    rewrite IH.
    + rewrite Hc. apply lookup_insert_ne. intros <-.
      apply (Hnot (last_emit (self w1) (event_gesture e))). by left.
    + intros t Hin. apply (Hnot t). by right.
  - rewrite IH; [by rewrite Hstep | done].
Qed.

(** C3.  With a clock that does not run backwards, any two events of one
    kind emitted in a run carry timestamps at least that kind's interval
    apart (50 ms for pitch and bearing, 80 ms for zoom and pan).  Every call
    obeys the gate: an event of kind [g] is returned only if a clock reading
    of that call was at least [g]'s interval after [g]'s stored timestamp,
    and otherwise the table is untouched.  At the gate itself, a candidate
    whose interval has not elapsed is answered by [None] and the object is
    left as it was, buffers and counters included; one whose interval has
    elapsed is returned and its timestamp stored. *)
Theorem cooldown_enforced wall frames w hd g f ev w1 :
  monotone wall -> g ∈ gesture_kinds ->
  separated (emissions (run wall frames w)) /\
  gated_step wall w (update wall hd w) /\
  (category_interval_ms "pitch_up" = 50 /\
   category_interval_ms "pitch_down" = 50 /\
   category_interval_ms "bearing_cw" = 50 /\
   category_interval_ms "bearing_ccw" = 50 /\
   category_interval_ms "zoom_in" = 80 /\
   category_interval_ms "zoom_out" = 80 /\
   category_interval_ms "pan_left" = 80 /\
   category_interval_ms "pan_right" = 80) /\
  _can_emit wall g w1 =
    (Return (bool_decide
       ((wall (ticks w1) - last_emit (self w1) g) * 1000
        >= category_interval_ms g)),
     {| self := self w1; ticks := S (ticks w1) |}) /\
  ((wall (ticks w1) - last_emit (self w1) g) * 1000
     < category_interval_ms g ->
   gate wall g f ev w1 =
     (Return None, {| self := self w1; ticks := S (ticks w1) |})) /\
  ((wall (ticks w1) - last_emit (self w1) g) * 1000
     >= category_interval_ms g ->
   gate wall g f ev w1 =
     (Return (Some ev),
      {| self := f (set_cooldowns
                      (<[g := wall (S (ticks w1))]> (_cooldowns (self w1)))
                      (self w1));
         ticks := S (S (ticks w1)) |})).
Proof.
  intros Hmono Hg.
  split; [by apply run_separated |].
  split; [apply gated_step_update |].
  split; [by repeat split |].
  split; [by apply can_emit_eq |].
  split; intros Hcmp; rewrite gate_eq by done.
  - rewrite decide_False by lra. reflexivity.
  - rewrite decide_True by done. reflexivity.
Qed.

(** C10.  A kind that a run from a fresh recogniser has not emitted has no
    entry in the cooldown table; the gate then compares the clock with 0.0;
    so once the clock reads at least the kind's interval, the first candidate
    of that kind passes the gate. *)
Theorem first_candidate_passes wall frames g f ev w1 :
  g ∈ gesture_kinds ->
  (forall t, (g, t) ∉ emissions (run wall frames init_world)) ->
  _cooldowns (self w1)
  = _cooldowns (self (final init_world (run wall frames init_world))) ->
  wall (ticks w1) * 1000 >= category_interval_ms g ->
  _cooldowns (self w1) !! g = None /\
  last_emit (self w1) g = 0 /\
  _can_emit wall g w1 =
    (Return (bool_decide ((wall (ticks w1) - 0) * 1000
                          >= category_interval_ms g)),
     {| self := self w1; ticks := S (ticks w1) |}) /\
  gate wall g f ev w1 =
    (Return (Some ev),
     {| self := f (set_cooldowns
                     (<[g := wall (S (ticks w1))]> (_cooldowns (self w1)))
                     (self w1));
        ticks := S (S (ticks w1)) |}).
Proof.
  intros Hg Hnever Htable Hclock.
  assert (Hnone : _cooldowns (self w1) !! g = None).
  { rewrite Htable, never_emitted by done. apply lookup_empty. }
  assert (Hlast : last_emit (self w1) g = 0).
  { unfold last_emit. by rewrite Hnone. }
  split; [done |]. split; [done |]. split.
  - rewrite can_emit_eq by done. by rewrite Hlast.
  - rewrite gate_eq by done. rewrite Hlast.
    rewrite decide_True by lra. reflexivity.
Qed.

(** ** Magnitudes stay in the unit interval *)

Lemma gate_cases wall g f ev w :
  gate wall g f ev w =
    (Return None, {| self := self w; ticks := S (ticks w) |}) \/
  gate wall g f ev w =
    (Return (Some ev),
     {| self := f (set_cooldowns
                     (<[g := wall (S (ticks w))]> (_cooldowns (self w)))
                     (self w));
        ticks := S (S (ticks w)) |}).
Proof.
  unfold gate, _can_emit, bind, get, time_time, ret. cbn.
  destruct (bool_decide _); cbn; [by right | by left].
Qed.

Lemma bounded_step_gate wall g f ev w0 w :
  0 <= event_magnitude ev <= 1 ->
  (forall s, _palm_buf (f s) = _palm_buf s) ->
  (palm_in_zone (self w0) -> palm_in_zone (self w)) ->
  bounded_step w0 (gate wall g f ev w).
Proof.
  intros Hev Hf Hp. destruct (gate_cases wall g f ev w) as [-> | ->].
  - split; [exact I | exact Hp].
  - split; [exact Hev |]. unfold palm_in_zone in *. cbn. by rewrite Hf.
Qed.

Lemma bounded_step_none w0 w :
  (palm_in_zone (self w0) -> palm_in_zone (self w)) ->
  bounded_step w0 (Return None, w).
Proof. intros. by split. Qed.

Lemma bounded_step_raise w0 w e :
  (palm_in_zone (self w0) -> palm_in_zone (self w)) ->
  bounded_step w0 (Raise e, w).
Proof. intros. by split. Qed.

Lemma bounded_step_from w0 w r :
  (palm_in_zone (self w0) -> palm_in_zone (self w)) ->
  bounded_step w r -> bounded_step w0 r.
Proof. intros Hp [Hm Hq]. split; [done | auto]. Qed.

Lemma intensity_unit g x :
  0 <= x -> 0 <= event_magnitude (IntensityEvent g (round (Rmin x 1) 3)) <= 1.
Proof. intros Hx. cbn. by apply round_unit, Rmin_unit. Qed.

Lemma Rabs_div_nonneg x d : 0 < d -> 0 <= Rabs x / d.
Proof.
  intros Hd. apply Rmult_le_pos; [apply Rabs_pos |].
  left. by apply Rinv_0_lt_compat.
Qed.

Ltac palm_kept :=
  unfold palm_in_zone; cbn; first [by intros | intros; by apply Forall_nil].

Ltac bounded_with tac :=
  first
    [ unfold ret; apply bounded_step_none; palm_kept
    | unfold raise; apply bounded_step_raise; palm_kept
    | match goal with
      | |- bounded_step ?w0
             (bind (_can_emit ?wall ?g)
                (fun ok => if negb ok then ret None
                           else (_record_emit _ _ >> modify ?f >>
                                 ret (Some ?ev))) ?w) =>
          apply (bounded_step_gate wall g f ev w0 w)
      | |- bounded_step ?w0
             (bind (_can_emit ?wall ?g)
                (fun ok => if negb ok then ret None
                           else (_record_emit _ _ >> ret (Some ?ev))) ?w) =>
          apply (bounded_step_gate wall g (fun s => s) ev w0 w)
      | |- bounded_step ?w0 (?body {| self := ?s1; ticks := S ?t |}) =>
          match body with
          | context [_record_emit ?wall ?g] =>
              match body with
              | context [Some ?ev] =>
                  change (bounded_step w0
                            (gate wall g (fun s => s) ev
                               {| self := s1; ticks := t |}));
                  apply bounded_step_gate
              end
          end
      end;
      [tac | intros; reflexivity | palm_kept] ].

Ltac intensity :=
  apply intensity_unit, Rabs_div_nonneg;
  first [lra | unfold math.pi; pose proof PI_RGT_0; lra].

Lemma bounded_step_swipe wall v w :
  Rabs v <= 1 -> bounded_step w (_eval_swipe wall v w).
Proof.
  intros Hv.
  assert (Hvel : forall g,
            0 <= event_magnitude (VelocityEvent g (round (Rabs v) 3)) <= 1).
  { intros g. cbn. apply round_unit. split; [apply Rabs_pos | done]. }
  unfold _eval_swipe. unfold bind at 1.
  destruct (decide (v < - config.SWIPE_VELOCITY_THRESHOLD)); cbn.
  { repeat (destruct (decide _)); bounded_with ltac:(apply Hvel). }
  destruct (decide (v > config.SWIPE_VELOCITY_THRESHOLD)); cbn.
  { repeat (destruct (decide _)); bounded_with ltac:(apply Hvel). }
  bounded_with idtac.
Qed.

Lemma bounded_step_bearing wall h w :
  bounded_step w (_eval_bearing wall h w).
Proof.
  unfold _eval_bearing, item. unfold bind at 1.
  destruct (landmarks h !! "wrist") as [wr |]; cbn; [| bounded_with idtac].
  unfold bind at 1.
  destruct (landmarks h !! "middle_mcp") as [mm |]; cbn;
    [| bounded_with idtac].
  destruct (decide _); [bounded_with idtac |]. cbn.
  destruct (decide _); [bounded_with idtac |].
  destruct (decide _); [bounded_with idtac |].
  destruct (decide _); cbn; bounded_with intensity.
Qed.

Lemma bounded_step_pitch wall w :
  bounded_step w (_eval_two_hand_pitch wall w).
Proof.
  unfold _eval_two_hand_pitch, newest, first. cbn.
  destruct (decide _); [bounded_with idtac |].
  unfold bind at 1. destruct (last _); cbn; [| bounded_with idtac].
  unfold bind at 1. destruct (head _); cbn; [| bounded_with idtac].
  destruct (decide _); [bounded_with idtac |].
  destruct (decide _); cbn; bounded_with intensity.
Qed.

Lemma bounded_step_two_hand wall a b w :
  bounded_step w (_eval_two_hand wall a b w).
Proof.
  unfold _eval_two_hand. cbn.
  destruct (_ && _); cbn; [bounded_with idtac |].
  unfold bind at 1.
  match goal with |- context [_hand_norm_dy a ?w1] =>
    destruct (hand_norm_dy_world a w1) as [oa ->] end.
  destruct oa as [ndy_a |]; [| bounded_with idtac].
  unfold bind at 1.
  match goal with |- context [_hand_norm_dy b ?w1] =>
    destruct (hand_norm_dy_world b w1) as [ob ->] end.
  destruct ob as [ndy_b |]; [| bounded_with idtac].
  unfold newest, first.
  destruct ndy_a, ndy_b; cbn.
  all: destruct (decide _); [bounded_with idtac |].
  all: unfold bind at 1; destruct (last _); cbn; [| bounded_with idtac].
  all: unfold bind at 1; destruct (head _); cbn; [| bounded_with idtac].
  all: destruct (decide _); cbn;
    [ destruct (decide _); cbn; bounded_with intensity
    | eapply bounded_step_from; [| apply bounded_step_pitch]; palm_kept ].
Qed.

Lemma palm_in_zone_append (buf : list Point2) (p : Point2) :
  Forall (fun p : Point2 => 0.2 <= fst p <= 0.8) buf ->
  _in_activation_zone p = true ->
  Forall (fun p : Point2 => 0.2 <= fst p <= 0.8)
    (deque_append config.SMOOTHING_WINDOW buf p).
Proof.
  intros Hbuf Hz. apply Forall_forall. intros q Hq.
  apply deque_append_elem in Hq as [Hq | ->].
  - by apply (proj1 (Forall_forall _ _) Hbuf).
  - destruct p as [x y]. apply in_activation_zone_iff in Hz. cbn. lra.
Qed.

Lemma bounded_step_single_hand wall h w :
  palm_in_zone (self w) -> bounded_step w (_eval_single_hand wall h w).
Proof.
  intros Hpalm. unfold _eval_single_hand, newest, first. cbn.
  destruct (_in_activation_zone (palm_center h)) eqn:Hz; cbn;
    [| bounded_with idtac].
  pose proof (palm_in_zone_append _ _ Hpalm Hz) as Hbuf.
  set (buf := deque_append _ _ _) in *.
  destruct (decide _); [bounded_with idtac |].
  unfold bind at 1. destruct (last buf) as [hi |] eqn:Hhi; cbn;
    [| bounded_with idtac].
  unfold bind at 1. destruct (head buf) as [lo |] eqn:Hlo; cbn;
    [| bounded_with idtac].
  assert (Hv : Rabs (fst hi - fst lo) <= 1).
  { apply last_Some_elem_of in Hhi. apply head_Some_elem_of in Hlo.
    pose proof (proj1 (Forall_forall _ _) Hbuf hi Hhi).
    pose proof (proj1 (Forall_forall _ _) Hbuf lo Hlo).
    cbn in *. Rabs_lra. }
  unfold bind at 1.
  match goal with |- context [_eval_swipe wall ?v ?w1] =>
    pose proof (bounded_step_swipe wall v w1 Hv) as Hs;
    destruct (_eval_swipe wall v w1) as [[[e |] | e] w2] end.
  - cbn. destruct Hs as [Hm Hp]. split; [exact Hm |].
    intros _. cbn in Hp. apply Hp. exact Hbuf.
  - destruct Hs as [_ Hp]. cbn in Hp.
    eapply bounded_step_from; [| apply bounded_step_bearing].
    intros _. apply Hp. exact Hbuf.
  - destruct Hs as [_ Hp]. split; [exact I |]. intros _. apply Hp. exact Hbuf.
Qed.

Lemma bounded_step_update wall hd w :
  palm_in_zone (self w) -> bounded_step w (update wall hd w).
Proof.
  intros Hpalm. unfold update, subscript.
  destruct (negb _); cbn; [bounded_with idtac |].
  destruct (decide _).
  - unfold bind at 1. destruct (hands hd !! 0%nat); cbn;
      [| bounded_with idtac].
    unfold bind at 1. destruct (hands hd !! 1%nat); cbn;
      [| bounded_with idtac].
    apply bounded_step_two_hand.
  - destruct (decide _); [| bounded_with idtac].
    unfold bind at 1. destruct (hands hd !! 0%nat); cbn;
      [| bounded_with idtac].
    by apply bounded_step_single_hand.
Qed.

Lemma run_bounded wall frames w ev w1 :
  palm_in_zone (self w) ->
  (ev, w1) ∈ run wall frames w ->
  magnitude_ok (Return ev, w1) /\ palm_in_zone (self w1).
Proof.
  revert w. induction frames as [| hd rest IH]; intros w Hpalm Hin.
  { by apply elem_of_nil in Hin. }
  rewrite run_cons in Hin.
  destruct (bounded_step_update wall hd w Hpalm) as [Hm Hp].
  destruct (update wall hd w) as [[ev' |] w'];
    [| by apply elem_of_nil in Hin].
  cbn in Hm, Hp.
  apply elem_of_cons in Hin as [Heq | Hin].
  - injection Heq as -> ->. split; [exact Hm | by apply Hp].
  - apply (IH w'); [by apply Hp | done].
Qed.

(** ** One hand: swipe before bearing *)

Lemma eval_swipe_eq wall v s t :
  _eval_swipe wall v {| self := s; ticks := t |} =
    if decide (v < - config.SWIPE_VELOCITY_THRESHOLD) then
      let s1 := set_swipe_frames_right 0
                  (set_swipe_frames_left (_swipe_frames_left s + 1) s) in
      if decide (_swipe_frames_left s + 1 >= config.SWIPE_MIN_FRAMES)%Z then
        gate wall "pan_left" (set_state STATE_SWIPE_LEFT)
          (VelocityEvent "pan_left" (round (Rabs v) 3))
          {| self := s1; ticks := t |}
      else (Return None, {| self := s1; ticks := t |})
    else if decide (v > config.SWIPE_VELOCITY_THRESHOLD) then
      let s1 := set_swipe_frames_left 0
                  (set_swipe_frames_right (_swipe_frames_right s + 1) s) in
      if decide (_swipe_frames_right s + 1 >= config.SWIPE_MIN_FRAMES)%Z then
        gate wall "pan_right" (set_state STATE_SWIPE_RIGHT)
          (VelocityEvent "pan_right" (round (Rabs v) 3))
          {| self := s1; ticks := t |}
      else (Return None, {| self := s1; ticks := t |})
    else
      (Return None,
       {| self := set_swipe_frames_right 0 (set_swipe_frames_left 0 s);
          ticks := t |}).
Proof.
  unfold _eval_swipe. unfold bind at 1.
  destruct (decide (v < _)); cbn.
  { destruct (decide _); [reflexivity |].
    destruct (decide (0 >= _)%Z) as [H0 |]; [| reflexivity].
    unfold config.SWIPE_MIN_FRAMES in H0. lia. }
  destruct (decide (v > _)); cbn; [| reflexivity].
  destruct (decide (0 >= _)%Z) as [H0 |].
  { unfold config.SWIPE_MIN_FRAMES in H0. lia. }
  destruct (decide _); reflexivity.
Qed.

Lemma eval_bearing_eq wall h s t wr mm :
  landmarks h !! "wrist" = Some wr ->
  landmarks h !! "middle_mcp" = Some mm ->
  let dx := px mm - px wr in
  let dy := py mm - py wr in
  _eval_bearing wall h {| self := s; ticks := t |} =
    if decide (math.hypot dx dy < 0.01) then
      (Return None, {| self := s; ticks := t |})
    else
      let buf := deque_append config.SMOOTHING_WINDOW (_angle_buf s)
                   (math.atan2 dy dx) in
      let s1 := set_angle_buf buf s in
      if decide (length buf < 2)%nat then
        (Return None, {| self := s1; ticks := t |})
      else if decide (Rabs (total_delta_loop buf)
                      < config.BEARING_ANGLE_RATE_MIN) then
        (Return None, {| self := s1; ticks := t |})
      else
        let g := if decide (total_delta_loop buf > 0)
                 then "bearing_cw" else "bearing_ccw" in
        gate wall g (fun s => s)
          (IntensityEvent g
             (round (Rmin (Rabs (total_delta_loop buf) / (math.pi / 3)) 1) 3))
          {| self := set_state (state_of_gesture g) s1; ticks := t |}.
Proof.
  intros Hwr Hmm dx dy. unfold _eval_bearing, item.
  unfold bind at 1. rewrite Hwr. cbn.
  unfold bind at 1. rewrite Hmm. cbn. fold dx dy.
  destruct (decide (_ < 0.01)); [reflexivity |]. cbn.
  destruct (decide (_ < 2)%nat); [reflexivity |].
  destruct (decide (Rabs _ < _)); [reflexivity |].
  destruct (decide (_ > 0)); reflexivity.
Qed.

Lemma eval_single_hand_eq wall h s t hi lo :
  _in_activation_zone (palm_center h) = true ->
  let buf := deque_append config.SMOOTHING_WINDOW (_palm_buf s)
               (palm_center h) in
  let s1 := set_palm_buf buf (set_tilt_buf [] (set_dist_buf [] s)) in
  (2 <= length buf)%nat -> last buf = Some hi -> head buf = Some lo ->
  _eval_single_hand wall h {| self := s; ticks := t |} =
    match _eval_swipe wall (fst hi - fst lo) {| self := s1; ticks := t |} with
    | (Return (Some e), w2) =>
        (Return (Some e),
         {| self := set_angle_buf [] (self w2); ticks := ticks w2 |})
    | (Return None, w2) => _eval_bearing wall h w2
    | (Raise e, w2) => (Raise e, w2)
    end.
Proof.
  intros Hz buf s1 Hlen Hhi Hlo.
  unfold _eval_single_hand, newest, first. cbn. rewrite Hz. cbn.
  fold buf. rewrite decide_False by lia. rewrite Hhi, Hlo. cbn.
  unfold bind at 1. fold s1.
  destruct (_eval_swipe _ _ _) as [[[e |] | e] w2]; reflexivity.
Qed.

(** A swipe that is emitted clears the angle buffer and ends the call;
    bearing detection is not reached. *)
Lemma emitted_swipe_clears_angle_buffer wall h s t hi lo e w2 :
  _in_activation_zone (palm_center h) = true ->
  let buf := deque_append config.SMOOTHING_WINDOW (_palm_buf s)
               (palm_center h) in
  let s1 := set_palm_buf buf (set_tilt_buf [] (set_dist_buf [] s)) in
  (2 <= length buf)%nat -> last buf = Some hi -> head buf = Some lo ->
  _eval_swipe wall (fst hi - fst lo) {| self := s1; ticks := t |}
    = (Return (Some e), w2) ->
  _eval_single_hand wall h {| self := s; ticks := t |} =
    (Return (Some e),
     {| self := set_angle_buf [] (self w2); ticks := ticks w2 |}).
Proof.
  intros Hz buf s1 Hlen Hhi Hlo Hswipe.
  rewrite (eval_single_hand_eq wall h s t hi lo) by done.
  fold buf s1. by rewrite Hswipe.
Qed.

(** ** The swipe with a turn, frame by frame *)

Lemma hypot_hand_at x y dx dy c :
  0 <= c -> dx * dx + dy * dy = c * c ->
  math.hypot (px (middle_mcp_of x y dx dy) - px (wrist_of x y dx dy))
             (py (middle_mcp_of x y dx dy) - py (wrist_of x y dx dy)) = c.
Proof.
  intros Hc Heq. apply hypot_eq; [done |].
  unfold px, py, middle_mcp_of, wrist_of. cbn [fst snd]. rewrite <- Heq.
  field.
Qed.

Lemma atan2_hand_at_x x y dx :
  0 < dx ->
  math.atan2 (py (middle_mcp_of x y dx 0) - py (wrist_of x y dx 0))
             (px (middle_mcp_of x y dx 0) - px (wrist_of x y dx 0)) = 0.
Proof.
  intros Hdx. unfold px, py, middle_mcp_of, wrist_of. cbn [fst snd].
  apply atan2_east; lra.
Qed.

Lemma atan2_hand_at_y x y dy :
  0 < dy ->
  math.atan2 (py (middle_mcp_of x y 0 dy) - py (wrist_of x y 0 dy))
             (px (middle_mcp_of x y 0 dy) - px (wrist_of x y 0 dy)) = PI / 2.
Proof.
  intros Hdy. unfold px, py, middle_mcp_of, wrist_of. cbn [fst snd].
  apply atan2_south; lra.
Qed.

Ltac deque :=
  repeat first
    [ rewrite deque_append_nil
    | rewrite deque_append_short by (cbv; lia)
    | rewrite deque_append_full by reflexivity ];
  cbn [app].

Ltac side :=
  unfold config.SWIPE_VELOCITY_THRESHOLD, config.SWIPE_MIN_FRAMES,
    config.BEARING_ANGLE_RATE_MIN, config.ZOOM_DIST_RATE_MIN,
    config.PITCH_TILT_RATE_MIN in *;
  cbn; first [lra | lia].

Ltac decide_now :=
  repeat match goal with
  | |- context [@decide ?P ?d] =>
      first [ rewrite (@decide_True _ P d) by side
            | rewrite (@decide_False _ P d) by side ]
  end.

Ltac single_hand_frame h hi lo :=
  rewrite (update_single_hand _ _ h []) by done;
  rewrite (eval_single_hand_eq _ _ _ _ hi lo);
    [| apply hand_at_in_zone; lra | cbn; deque; cbn; lia
     | cbn; deque; reflexivity | cbn; deque; reflexivity ];
  cbn [palm_center hand_at single_hand_object _palm_buf fst snd]; deque;
  rewrite eval_swipe_eq; decide_now; cbv zeta.

Lemma pan_frame_1 :
  update pan_clock (one_hand (hand_at 0.70 0.5 0.1 0)) init_world =
    (Return None, pan_world_1).
Proof.
  rewrite (update_single_hand _ _ (hand_at 0.70 0.5 0.1 0) []) by done.
  unfold init_world. rewrite single_hand_first_sample; [done | | done].
  apply hand_at_in_zone; lra.
Qed.

Lemma pan_frame_2 :
  update pan_clock (one_hand (hand_at 0.65 0.5 0.1 0)) pan_world_1 =
    (Return None, pan_world_2).
Proof.
  unfold pan_world_1.
  single_hand_frame (hand_at 0.65 0.5 0.1 0) (0.65, 0.5) (0.70, 0.5).
  rewrite (eval_bearing_eq _ _ _ _ _ _ (hand_at_wrist _ _ _ _)
             (hand_at_middle_mcp _ _ _ _)).
  cbv zeta.
  rewrite (hypot_hand_at _ _ _ _ 0.1), atan2_hand_at_x by lra.
  decide_now. cbn. deque.
  decide_now. reflexivity.
Qed.

Lemma interval_pan_left : category_interval_ms "pan_left" = 80.
Proof. reflexivity. Qed.

Lemma interval_bearing_cw : category_interval_ms "bearing_cw" = 50.
Proof. reflexivity. Qed.

Lemma total_delta_still : total_delta_loop [0; 0] = 0.
Proof.
  rewrite total_delta_loop_net_rotation. cbn [net_rotation]. unfold unwrap.
  pose proof PI_RGT_0. repeat (destruct (decide _); try lra).
Qed.

Lemma total_delta_quarter_turn : total_delta_loop [0; PI / 2] = PI / 2.
Proof.
  rewrite total_delta_loop_net_rotation. cbn [net_rotation]. unfold unwrap.
  pose proof PI_RGT_0. repeat (destruct (decide _); try lra).
Qed.

Lemma total_delta_turn_and_back : total_delta_loop [0; PI / 2; 0] = 0.
Proof.
  rewrite total_delta_loop_net_rotation. cbn [net_rotation]. unfold unwrap.
  pose proof PI_RGT_0. repeat (destruct (decide _); try lra).
Qed.

Lemma round_abs v z :
  Rabs v = IZR z / 1000 -> round (Rabs v) 3 = IZR z / 1000.
Proof. intros Hv. rewrite Hv. by apply (round_thousandths z). Qed.

Lemma pan_frame_3 :
  update pan_clock (one_hand (hand_at 0.60 0.5 0.1 0)) pan_world_2 =
    (Return None, pan_world_3).
Proof.
  unfold pan_world_2.
  single_hand_frame (hand_at 0.60 0.5 0.1 0) (0.60, 0.5) (0.70, 0.5).
  rewrite (eval_bearing_eq _ _ _ _ _ _ (hand_at_wrist _ _ _ _)
             (hand_at_middle_mcp _ _ _ _)).
  cbv zeta.
  rewrite (hypot_hand_at _ _ _ _ 0.1), atan2_hand_at_x by lra.
  decide_now. cbn. deque.
  rewrite total_delta_still, Rabs_R0. decide_now. reflexivity.
Qed.

Lemma pan_frame_4 :
  update pan_clock (one_hand (hand_at 0.55 0.5 0.1 0)) pan_world_3 =
    (Return (Some (VelocityEvent "pan_left" 0.15)), pan_world_4).
Proof.
  unfold pan_world_3.
  single_hand_frame (hand_at 0.55 0.5 0.1 0) (0.55, 0.5) (0.70, 0.5).
  rewrite gate_eq by in_kinds.
  unfold last_emit, pan_clock, clock_of. cbn [self ticks nth].
  cbn [_cooldowns set_swipe_frames_right set_swipe_frames_left set_palm_buf
       set_tilt_buf set_dist_buf single_hand_object].
  rewrite lookup_empty, interval_pan_left. decide_now.
  rewrite (round_abs _ 150) by (unfold Rabs; destruct (Rcase_abs _); lra).
  replace (150 / 1000) with 0.15 by lra. reflexivity.
Qed.

Ltac gate_now :=
  rewrite gate_eq by in_kinds;
  unfold last_emit, pan_clock, clock_of; cbn [self ticks nth];
  cbn [_cooldowns set_swipe_frames_right set_swipe_frames_left set_palm_buf
       set_tilt_buf set_dist_buf set_state set_angle_buf single_hand_object].

Ltac bearing_now :=
  rewrite (eval_bearing_eq _ _ _ _ _ _ (hand_at_wrist _ _ _ _)
             (hand_at_middle_mcp _ _ _ _));
  cbv zeta; rewrite (hypot_hand_at _ _ _ _ 0.1) by lra.

Lemma pan_frame_5 :
  update pan_clock (one_hand (hand_at 0.50 0.5 0.1 0)) pan_world_4 =
    (Return None, pan_world_5).
Proof.
  unfold pan_world_4.
  single_hand_frame (hand_at 0.50 0.5 0.1 0) (0.50, 0.5) (0.70, 0.5).
  gate_now. rewrite lookup_insert_eq, interval_pan_left. decide_now.
  bearing_now.
  rewrite atan2_hand_at_x by lra. decide_now. cbn. deque.
  decide_now. reflexivity.
Qed.

Lemma pan_frame_6 :
  update pan_clock (one_hand (hand_at 0.45 0.5 0 0.1)) pan_world_5 =
    (Return (Some (IntensityEvent "bearing_cw" 1)), pan_world_6).
Proof.
  unfold pan_world_5.
  single_hand_frame (hand_at 0.45 0.5 0 0.1) (0.45, 0.5) (0.65, 0.5).
  gate_now. rewrite lookup_insert_eq, interval_pan_left. decide_now.
  bearing_now.
  rewrite atan2_hand_at_y by lra. decide_now. cbn. deque.
  rewrite total_delta_quarter_turn.
  pose proof PI_bounds as HPI.
  rewrite (Rabs_right (PI / 2)) by lra. decide_now.
  gate_now. rewrite lookup_insert_ne by done.
  rewrite lookup_empty, interval_bearing_cw. decide_now.
  replace (PI / 2 / (math.pi / 3)) with (3 / 2)
    by (unfold math.pi; field; lra).
  rewrite Rmin_right by lra.
  rewrite (round_thousandths 1000 1) by lra.
  reflexivity.
Qed.

Lemma pan_frame_7 :
  update pan_clock (one_hand (hand_at 0.40 0.5 0.1 0)) pan_world_6 =
    (Return None, pan_world_7).
Proof.
  unfold pan_world_6.
  single_hand_frame (hand_at 0.40 0.5 0.1 0) (0.40, 0.5) (0.60, 0.5).
  gate_now. rewrite lookup_insert_ne by done.
  rewrite lookup_insert_eq, interval_pan_left. decide_now.
  bearing_now.
  rewrite atan2_hand_at_x by lra. decide_now. cbn. deque.
  rewrite total_delta_turn_and_back, Rabs_R0. decide_now. reflexivity.
Qed.

Lemma pan_run :
  run pan_clock pan_frames init_world =
    [ (None, pan_world_1);
      (None, pan_world_2);
      (None, pan_world_3);
      (Some (VelocityEvent "pan_left" 0.15), pan_world_4);
      (None, pan_world_5);
      (Some (IntensityEvent "bearing_cw" 1), pan_world_6);
      (None, pan_world_7) ].
Proof.
  unfold pan_frames.
  rewrite run_cons, pan_frame_1. rewrite run_cons, pan_frame_2.
  rewrite run_cons, pan_frame_3. rewrite run_cons, pan_frame_4.
  rewrite run_cons, pan_frame_5. rewrite run_cons, pan_frame_6.
  rewrite run_cons, pan_frame_7. reflexivity.
Qed.

(** ** The state field under suppression *)

(** Zoom and pitch write the state before they consult the gate. *)
Lemma suppressed_two_hand_sets_state wall a b s t wr_a mm_a wr_b mm_b g m :
  _in_activation_zone (palm_center a) = true \/
  _in_activation_zone (palm_center b) = true ->
  landmarks a !! "wrist" = Some wr_a ->
  landmarks a !! "middle_mcp" = Some mm_a ->
  landmarks b !! "wrist" = Some wr_b ->
  landmarks b !! "middle_mcp" = Some mm_b ->
  let s1 := two_hand_accumulate a b (norm_dy wr_a mm_a) (norm_dy wr_b mm_b) s in
  (2 <= length (_dist_buf s1))%nat ->
  two_hand_classification (_dist_buf s1) (_tilt_buf s1) = Some (g, m) ->
  (wall t - last_emit s g) * 1000 < category_interval_ms g ->
  _eval_two_hand wall a b {| self := s; ticks := t |} =
    (Return None,
     {| self := set_state (state_of_gesture g) s1; ticks := S t |}).
Proof.
  intros Hzone Hwa Hma Hwb Hmb s1 Hlen Hclass Hcool.
  rewrite (eval_two_hand_eq wall a b s t wr_a mm_a wr_b mm_b) by done.
  fold s1. rewrite Hclass.
  assert (Hg : g ∈ gesture_kinds).
  { unfold two_hand_classification in Hclass.
    repeat (destruct (decide _) in Hclass; try discriminate);
      injection Hclass as <- _; in_kinds. }
  rewrite gate_eq by done. rewrite decide_False; [reflexivity |].
  unfold last_emit in *. cbn. lra.
Qed.

(** Bearing writes the state before it consults the gate. *)
Lemma suppressed_bearing_sets_state wall h s t wr mm :
  landmarks h !! "wrist" = Some wr ->
  landmarks h !! "middle_mcp" = Some mm ->
  let buf := deque_append config.SMOOTHING_WINDOW (_angle_buf s)
               (math.atan2 (py mm - py wr) (px mm - px wr)) in
  let g := if decide (total_delta_loop buf > 0)
           then "bearing_cw" else "bearing_ccw" in
  ~ math.hypot (px mm - px wr) (py mm - py wr) < 0.01 ->
  (2 <= length buf)%nat ->
  Rabs (total_delta_loop buf) >= config.BEARING_ANGLE_RATE_MIN ->
  (wall t - last_emit s g) * 1000 < category_interval_ms g ->
  _eval_bearing wall h {| self := s; ticks := t |} =
    (Return None,
     {| self := set_state (state_of_gesture g) (set_angle_buf buf s);
        ticks := S t |}).
Proof.
  intros Hwr Hmm buf g Hlen0 Hlen Hrot Hcool.
  rewrite (eval_bearing_eq wall h s t wr mm) by done. cbv zeta.
  fold buf. rewrite decide_False by done.
  rewrite (decide_False (P := (length buf < 2)%nat)) by lia.
  rewrite (decide_False (P := Rabs _ < _)) by lra. fold g.
  assert (Hg : g ∈ gesture_kinds).
  { unfold g. destruct (decide _); in_kinds. }
  rewrite gate_eq by done. rewrite decide_False; [reflexivity |].
  unfold last_emit in *. cbn. lra.
Qed.

(** A pan candidate that the gate rejects leaves the state as it was: the
    write to [_state] comes after the gate in [_eval_swipe]. *)
Lemma rejected_pan_skips_state_write wall v s t :
  v < - config.SWIPE_VELOCITY_THRESHOLD ->
  (_swipe_frames_left s + 1 >= config.SWIPE_MIN_FRAMES)%Z ->
  (wall t - last_emit s "pan_left") * 1000 < category_interval_ms "pan_left" ->
  _eval_swipe wall v {| self := s; ticks := t |} =
    (Return None,
     {| self := set_swipe_frames_right 0
                  (set_swipe_frames_left (_swipe_frames_left s + 1) s);
        ticks := S t |}) /\
  _state (set_swipe_frames_right 0
            (set_swipe_frames_left (_swipe_frames_left s + 1) s)) = _state s.
Proof.
  intros Hv Hn Hcool. split; [| reflexivity].
  rewrite eval_swipe_eq. rewrite decide_True by done.
  cbv zeta. rewrite decide_True by done.
  rewrite gate_eq by in_kinds. rewrite decide_False; [reflexivity |].
  unfold last_emit in *. cbn. lra.
Qed.

(** C1, evaluated at its failing input.  On the seventh frame of the swipe
    with a turn, [pan_left] is classified (the hand has moved left by 0.2
    over the window and the left counter reaches 6) and the gate rejects it
    (75 ms after the last [pan_left]); the call returns [None] and the state
    stays what the sixth frame made it, [bearing_cw], not [swipe_left]. *)
Theorem suppressed_pan_leaves_state :
  final init_world (run pan_clock (take 6 pan_frames) init_world)
    = pan_world_6 /\
  update pan_clock (one_hand (hand_at 0.40 0.5 0.1 0)) pan_world_6
    = (Return None, pan_world_7) /\
  0.40 - 0.60 < - config.SWIPE_VELOCITY_THRESHOLD /\
  (_swipe_frames_left (self pan_world_7) >= config.SWIPE_MIN_FRAMES)%Z /\
  (pan_clock 6 - last_emit (self pan_world_6) "pan_left") * 1000
    < category_interval_ms "pan_left" /\
  _state (self pan_world_6) = STATE_BEARING_CW /\
  _state (self pan_world_7) = STATE_BEARING_CW /\
  _state (self pan_world_7) <> state_of_gesture "pan_left".
Proof.
  split.
  { unfold pan_frames. cbn [take].
    rewrite run_cons, pan_frame_1. rewrite run_cons, pan_frame_2.
    rewrite run_cons, pan_frame_3. rewrite run_cons, pan_frame_4.
    rewrite run_cons, pan_frame_5. rewrite run_cons, pan_frame_6.
    reflexivity. }
  split; [apply pan_frame_7 |].
  split; [unfold config.SWIPE_VELOCITY_THRESHOLD; lra |].
  split; [cbn; unfold config.SWIPE_MIN_FRAMES; lia |].
  split.
  { unfold last_emit, pan_clock, clock_of, pan_world_6. cbn [nth self].
    cbn [_cooldowns single_hand_object].
    rewrite lookup_insert_ne by done.
    rewrite lookup_insert_eq, interval_pan_left. cbn. lra. }
  split; [reflexivity |]. split; [reflexivity |]. discriminate.
Qed.

(** C2, evaluated at its failing input.  On the fifth frame of the same run
    the swipe is confirmed (left counter 4, window velocity -0.2) and the
    gate rejects it (25 ms after the last [pan_left]); bearing detection is
    evaluated all the same and appends to the angle buffer, which is not
    cleared; on the sixth frame, again a confirmed and rejected swipe,
    bearing detection returns a [bearing_cw] event. *)
Theorem suppressed_swipe_runs_bearing :
  final init_world (run pan_clock (take 4 pan_frames) init_world)
    = pan_world_4 /\
  update pan_clock (one_hand (hand_at 0.50 0.5 0.1 0)) pan_world_4
    = (Return None, pan_world_5) /\
  0.50 - 0.70 < - config.SWIPE_VELOCITY_THRESHOLD /\
  (_swipe_frames_left (self pan_world_5) >= config.SWIPE_MIN_FRAMES)%Z /\
  (pan_clock 2 - last_emit (self pan_world_4) "pan_left") * 1000
    < category_interval_ms "pan_left" /\
  _angle_buf (self pan_world_4) = [] /\
  _angle_buf (self pan_world_5) = [0] /\
  update pan_clock (one_hand (hand_at 0.45 0.5 0 0.1)) pan_world_5
    = (Return (Some (IntensityEvent "bearing_cw" 1)), pan_world_6) /\
  (_swipe_frames_left (self pan_world_6) >= config.SWIPE_MIN_FRAMES)%Z /\
  _angle_buf (self pan_world_6) = [0; PI / 2].
Proof.
  split.
  { unfold pan_frames. cbn [take].
    rewrite run_cons, pan_frame_1. rewrite run_cons, pan_frame_2.
    rewrite run_cons, pan_frame_3. rewrite run_cons, pan_frame_4.
    reflexivity. }
  split; [apply pan_frame_5 |].
  split; [unfold config.SWIPE_VELOCITY_THRESHOLD; lra |].
  split; [cbn; unfold config.SWIPE_MIN_FRAMES; lia |].
  split.
  { unfold last_emit, pan_clock, clock_of, pan_world_4. cbn [nth self].
    cbn [_cooldowns single_hand_object].
    rewrite lookup_insert_eq, interval_pan_left. cbn. lra. }
  split; [reflexivity |]. split; [reflexivity |].
  split; [apply pan_frame_6 |].
  split; [cbn; unfold config.SWIPE_MIN_FRAMES; lia | reflexivity].
Qed.

(** C8.  Every event that a run from a fresh recogniser returns has its
    magnitude in [0, 1]: intensities are capped by [min(_, 1.0)], and a pan
    velocity is the distance between two buffered palm abscissas, which the
    zone test keeps within [0.2, 0.8]. *)
Theorem magnitude_in_unit_interval wall frames ev w1 e :
  (ev, w1) ∈ run wall frames init_world ->
  ev = Some e ->
  0 <= event_magnitude e <= 1.
Proof.
  intros Hin ->.
  apply run_bounded in Hin as [Hm _]; [exact Hm |].
  unfold palm_in_zone. cbn. apply Forall_nil. exact I.
Qed.

Lemma magnitude_in_unit_interval_witness :
  0 <= event_magnitude (VelocityEvent "pan_left" 0.15) <= 1.
Proof.
  apply (magnitude_in_unit_interval pan_clock pan_frames
           (Some (VelocityEvent "pan_left" 0.15)) pan_world_4).
  - rewrite pan_run. do 3 apply list_elem_of_further. apply list_elem_of_here.
  - reflexivity.
Defined.

(** ** The swipe goes on after the cooldown *)

Lemma pan_frame_8 :
  update pan_clock pan_frame_after_cooldown pan_world_7 =
    (Return (Some (VelocityEvent "pan_left" 0.2)), pan_world_8).
Proof.
  unfold pan_world_7, pan_frame_after_cooldown.
  single_hand_frame (hand_at 0.35 0.5 0.1 0) (0.35, 0.5) (0.55, 0.5).
  gate_now. rewrite lookup_insert_ne by done.
  rewrite lookup_insert_eq, interval_pan_left. decide_now.
  rewrite (round_abs _ 200) by (unfold Rabs; destruct (Rcase_abs _); lra).
  replace (200 / 1000) with 0.2 by lra. reflexivity.
Qed.

Lemma pan_run_after_cooldown :
  run pan_clock (pan_frames ++ [pan_frame_after_cooldown]) init_world =
    [ (None, pan_world_1);
      (None, pan_world_2);
      (None, pan_world_3);
      (Some (VelocityEvent "pan_left" 0.15), pan_world_4);
      (None, pan_world_5);
      (Some (IntensityEvent "bearing_cw" 1), pan_world_6);
      (None, pan_world_7);
      (Some (VelocityEvent "pan_left" 0.2), pan_world_8) ].
Proof.
  unfold pan_frames. cbn [app].
  rewrite run_cons, pan_frame_1. rewrite run_cons, pan_frame_2.
  rewrite run_cons, pan_frame_3. rewrite run_cons, pan_frame_4.
  rewrite run_cons, pan_frame_5. rewrite run_cons, pan_frame_6.
  rewrite run_cons, pan_frame_7. rewrite run_cons, pan_frame_8.
  reflexivity.
Qed.

Lemma pan_emissions :
  emissions (run pan_clock (pan_frames ++ [pan_frame_after_cooldown])
               init_world) =
    [("pan_left", 1000); ("bearing_cw", 1000.05); ("pan_left", 1000.1)].
Proof.
  rewrite pan_run_after_cooldown. unfold emissions, emission, last_emit.
  cbn [omap list_omap fst snd event_gesture].
  unfold pan_world_4, pan_world_6, pan_world_8.
  cbn [self _cooldowns single_hand_object].
  by rewrite !lookup_insert_eq.
Qed.

Lemma pan_clock_monotone : monotone pan_clock.
Proof.
  intros i j Hij. unfold pan_clock, clock_of.
  do 9 (destruct i as [| i];
        [ do 9 (destruct j as [| j]; [first [lia | cbn; lra] |]);
          rewrite (nth_overflow _ _ (n := S (S (S (S (S (S (S (S (S j))))))))))
            by (cbn; lia);
          cbn; lra |]).
  do 9 (destruct j as [| j]; [lia |]).
  rewrite !nth_overflow by (cbn; lia). lra.
Qed.

Lemma pan_run_5 :
  run pan_clock (take 5 pan_frames) init_world =
    [ (None, pan_world_1);
      (None, pan_world_2);
      (None, pan_world_3);
      (Some (VelocityEvent "pan_left" 0.15), pan_world_4);
      (None, pan_world_5) ].
Proof.
  unfold pan_frames. cbn [take].
  rewrite run_cons, pan_frame_1. rewrite run_cons, pan_frame_2.
  rewrite run_cons, pan_frame_3. rewrite run_cons, pan_frame_4.
  rewrite run_cons, pan_frame_5. reflexivity.
Qed.

Lemma cooldown_enforced_witness :
  separated [("pan_left", 1000); ("bearing_cw", 1000.05);
             ("pan_left", 1000.1)] /\
  gate pan_clock "pan_left" (set_state STATE_SWIPE_LEFT)
    (VelocityEvent "pan_left" 0.2) pan_world_4 =
    (Return None, {| self := self pan_world_4; ticks := 3 |}).
Proof.
  pose proof (cooldown_enforced pan_clock
    (pan_frames ++ [pan_frame_after_cooldown]) init_world
    pan_frame_after_cooldown "pan_left" (set_state STATE_SWIPE_LEFT)
    (VelocityEvent "pan_left" 0.2) pan_world_4 pan_clock_monotone) as H.
  destruct H as (Hsep & _ & _ & _ & Hreject & _).
  - in_kinds.
  - rewrite pan_emissions in Hsep. split; [exact Hsep |]. apply Hreject.
    unfold last_emit, pan_clock, clock_of, pan_world_4. cbn [nth self ticks].
    cbn [_cooldowns single_hand_object].
    rewrite lookup_insert_eq, interval_pan_left. cbn. lra.
Defined.

Lemma first_candidate_passes_witness :
  gate pan_clock "bearing_cw" (fun s => s) (IntensityEvent "bearing_cw" 1)
    pan_world_at_bearing_gate =
    (Return (Some (IntensityEvent "bearing_cw" 1)), pan_world_6).
Proof.
  pose proof (first_candidate_passes pan_clock (take 5 pan_frames)
    "bearing_cw" (fun s => s) (IntensityEvent "bearing_cw" 1)
    pan_world_at_bearing_gate) as H.
  destruct H as (_ & _ & _ & Hpass).
  - in_kinds.
  - intros t Hin. rewrite pan_run_5 in Hin.
    unfold emissions, emission in Hin.
    cbn [omap list_omap fst snd event_gesture] in Hin.
    apply list_elem_of_singleton in Hin. discriminate Hin.
  - rewrite pan_run_5. reflexivity.
  - unfold pan_clock, clock_of, pan_world_at_bearing_gate. cbn [nth ticks].
    rewrite interval_bearing_cw. lra.
  - exact Hpass.
Defined.


(** * Further properties of the recogniser *)

(** ** What every call keeps *)

Lemma kept_gate (P Q : GestureRecognizer -> Prop) wall g f ev w0 w :
  (P (self w0) -> Q (self w)) ->
  (forall s c, Q s -> Q (f (set_cooldowns c s))) ->
  kept P Q w0 (gate wall g f ev w).
Proof.
  intros Hw Hf HP. destruct (gate_cases wall g f ev w) as [-> | ->]; cbn.
  - by apply Hw.
  - apply Hf. by apply Hw.
Qed.

Lemma kept_from (P P' Q : GestureRecognizer -> Prop) w0 w r :
  (P (self w0) -> P' (self w)) -> kept P' Q w r -> kept P Q w0 r.
Proof. intros Hw Hr HP. apply Hr. by apply Hw. Qed.

Lemma state_name_cases s :
  s ∈ state_names <->
  s = STATE_IDLE \/ s = STATE_ZOOM \/ s = STATE_SWIPE_LEFT \/
  s = STATE_SWIPE_RIGHT \/ s = STATE_PITCH_UP \/ s = STATE_PITCH_DOWN \/
  s = STATE_BEARING_CW \/ s = STATE_BEARING_CCW.
Proof.
  unfold state_names. rewrite !elem_of_cons, elem_of_nil. tauto.
Qed.

Ltac object_facts :=
  unfold ret, raise, modify in *;
  unfold object_ok, base_ok, buffers_bounded, counters_ok, coast_idle,
    single_hand_mode, two_hand_mode, config.SMOOTHING_WINDOW in *;
  cbn [self snd fst] in *;
  cbn [_state _dist_buf _palm_buf _tilt_buf _angle_buf _swipe_frames_left
       _swipe_frames_right _coast_dir _coast_frames _cooldowns
       set_state set_dist_buf set_palm_buf set_tilt_buf set_angle_buf
       set_swipe_frames_left set_swipe_frames_right set_coast_dir
       set_coast_frames set_cooldowns length] in *.

Ltac object_solve :=
  object_facts; intros;
  repeat match goal with
         | H : _ /\ _ |- _ => destruct H
         end;
  repeat split;
  repeat match goal with
         | H : ?b = [] |- context [?b] => rewrite H
         end;
  cbn [length];
  first
    [ assumption
    | lia
    | reflexivity
    | apply (deque_append_length 5); assumption
    | apply (deque_append_length 5); cbn [length]; lia
    | apply state_name_cases; tauto
    | left; split; first [assumption | reflexivity | lia]
    | right; repeat split; first [assumption | reflexivity | lia]
    | left; first [assumption | reflexivity | lia]
    | right; first [assumption | reflexivity | lia]
    | tauto ].

Ltac kept_with :=
  first
    [ unfold ret, raise, kept; cbn [snd self]; object_solve
    | match goal with
      | |- kept ?P ?Q ?w0
             (bind (_can_emit ?wall ?g)
                (fun ok => if negb ok then ret None
                           else (_record_emit _ _ >> modify ?f >>
                                 ret (Some ?ev))) ?w) =>
          apply (kept_gate P Q wall g f ev w0 w)
      | |- kept ?P ?Q ?w0
             (bind (_can_emit ?wall ?g)
                (fun ok => if negb ok then ret None
                           else (_record_emit _ _ >> ret (Some ?ev))) ?w) =>
          apply (kept_gate P Q wall g (fun s => s) ev w0 w)
      | |- kept ?P ?Q ?w0 (?body {| self := ?s1; ticks := S ?t |}) =>
          match body with
          | context [_record_emit ?wall ?g] =>
              match body with
              | context [Some ?ev] =>
                  change (kept P Q w0
                            (gate wall g (fun s => s) ev
                               {| self := s1; ticks := t |}));
                  apply kept_gate
              end
          end
      end; object_solve ].

Lemma object_kept_swipe wall v w :
  kept (fun s => base_ok s /\ single_hand_mode s)
       (fun s => base_ok s /\ single_hand_mode s) w (_eval_swipe wall v w).
Proof.
  unfold _eval_swipe. unfold bind at 1.
  destruct (decide (v < - config.SWIPE_VELOCITY_THRESHOLD)); cbn.
  { repeat (destruct (decide _)); kept_with. }
  destruct (decide (v > config.SWIPE_VELOCITY_THRESHOLD)); cbn.
  { repeat (destruct (decide _)); kept_with. }
  kept_with.
Qed.

Lemma object_kept_bearing wall h w :
  kept (fun s => base_ok s /\ single_hand_mode s)
       (fun s => base_ok s /\ single_hand_mode s) w (_eval_bearing wall h w).
Proof.
  unfold _eval_bearing, item. unfold bind at 1.
  destruct (landmarks h !! "wrist") as [wr |]; cbn; [| kept_with].
  unfold bind at 1.
  destruct (landmarks h !! "middle_mcp") as [mm |]; cbn; [| kept_with].
  destruct (decide _); [kept_with |]. cbn.
  destruct (decide _); [kept_with |].
  destruct (decide _); [kept_with |].
  destruct (decide _); cbn; kept_with.
Qed.

Lemma object_kept_pitch wall w :
  kept (fun s => base_ok s /\ two_hand_mode s)
       (fun s => base_ok s /\ two_hand_mode s) w (_eval_two_hand_pitch wall w).
Proof.
  unfold _eval_two_hand_pitch, newest, first. cbn.
  destruct (decide _); [kept_with |].
  unfold bind at 1. destruct (last _); cbn; [| kept_with].
  unfold bind at 1. destruct (head _); cbn; [| kept_with].
  destruct (decide _); [kept_with |].
  destruct (decide _); cbn; kept_with.
Qed.

Lemma object_kept_two_hand wall a b w :
  kept base_ok (fun s => base_ok s /\ two_hand_mode s) w
       (_eval_two_hand wall a b w).
Proof.
  unfold _eval_two_hand. cbn.
  destruct (_ && _); cbn; [kept_with |].
  unfold bind at 1.
  match goal with |- context [_hand_norm_dy a ?w1] =>
    destruct (hand_norm_dy_world a w1) as [oa ->] end.
  destruct oa as [ndy_a |]; [| kept_with].
  unfold bind at 1.
  match goal with |- context [_hand_norm_dy b ?w1] =>
    destruct (hand_norm_dy_world b w1) as [ob ->] end.
  destruct ob as [ndy_b |]; [| kept_with].
  unfold newest, first.
  destruct ndy_a, ndy_b; cbn.
  all: destruct (decide _); [kept_with |].
  all: unfold bind at 1; destruct (last _); cbn; [| kept_with].
  all: unfold bind at 1; destruct (head _); cbn; [| kept_with].
  all: destruct (decide _); cbn;
    [ destruct (decide _); cbn; kept_with
    | eapply kept_from; [| apply object_kept_pitch]; object_solve ].
Qed.

Lemma object_kept_single_hand wall h w :
  kept base_ok (fun s => base_ok s /\ single_hand_mode s) w
       (_eval_single_hand wall h w).
Proof.
  unfold _eval_single_hand, newest, first. cbn.
  destruct (negb _); cbn; [kept_with |].
  destruct (decide _); [kept_with |].
  unfold bind at 1. destruct (last _); cbn; [| kept_with].
  unfold bind at 1. destruct (head _); cbn; [| kept_with].
  unfold bind at 1.
  match goal with |- context [_eval_swipe wall ?v ?w1] =>
    pose proof (object_kept_swipe wall v w1) as Hs;
    destruct (_eval_swipe wall v w1) as [[[e |] | e] w2] end.
  - cbn. intros Hbase. unfold kept in Hs. cbn in Hs.
    assert (Hw2 : base_ok (self w2) /\ single_hand_mode (self w2)).
    { apply Hs. revert Hbase. object_solve. }
    revert Hw2. object_solve.
  - eapply kept_from; [| apply object_kept_bearing].
    intros Hbase. apply Hs. revert Hbase. object_solve.
  - intros Hbase. apply Hs. revert Hbase. object_solve.
Qed.

Lemma object_kept_update wall hd w :
  kept object_ok object_ok w (update wall hd w).
Proof.
  unfold update, subscript.
  destruct (negb _); cbn; [kept_with |].
  destruct (decide _).
  - unfold bind at 1. destruct (hands hd !! 0%nat); cbn; [| kept_with].
    unfold bind at 1. destruct (hands hd !! 1%nat); cbn; [| kept_with].
    intros [Hbase _]. split.
    + by apply object_kept_two_hand.
    + right. by apply object_kept_two_hand.
  - destruct (decide _); [| cbn; kept_with].
    unfold bind at 1. destruct (hands hd !! 0%nat); cbn; [| kept_with].
    intros [Hbase _]. split.
    + by apply object_kept_single_hand.
    + left. by apply object_kept_single_hand.
Qed.

Lemma object_ok_init : object_ok __init__.
Proof.
  unfold object_ok, base_ok, buffers_bounded, counters_ok, coast_idle,
    single_hand_mode, config.SMOOTHING_WINDOW.
  cbn. repeat split; try lia; try (by left).
Qed.

Lemma run_object_ok wall frames w :
  object_ok (self w) ->
  Forall (fun step => object_ok (self (snd step))) (run wall frames w).
Proof.
  revert w. induction frames as [| hd rest IH]; intros w Hok; [constructor |].
  rewrite run_cons.
  pose proof (object_kept_update wall hd w Hok) as Hstep.
  destruct (update wall hd w) as [[ev |] w1]; [| constructor].
  constructor; [exact Hstep | by apply IH].
Qed.

(** X1.  From an object in which no buffer is longer than the window, the
    swipe counters are non-negative and not both running, the coasting
    attributes are 0, the state is one of the eight state constants and one
    of the two buffer families is empty, every call of a run leaves such an
    object again.  A fresh recogniser is one. *)
Theorem object_invariant wall frames w ev w1 :
  object_ok (self w) ->
  (ev, w1) ∈ run wall frames w ->
  let s := self w1 in
  ((length (_dist_buf s) <= config.SMOOTHING_WINDOW)%nat /\
   (length (_palm_buf s) <= config.SMOOTHING_WINDOW)%nat /\
   (length (_tilt_buf s) <= config.SMOOTHING_WINDOW)%nat /\
   (length (_angle_buf s) <= config.SMOOTHING_WINDOW)%nat) /\
  ((0 <= _swipe_frames_left s)%Z /\ (0 <= _swipe_frames_right s)%Z /\
   (_swipe_frames_left s = 0%Z \/ _swipe_frames_right s = 0%Z)) /\
  (_coast_dir s = 0%Z /\ _coast_frames s = 0%Z) /\
  _state s ∈ state_names /\
  (_dist_buf s = [] /\ _tilt_buf s = [] \/
   _palm_buf s = [] /\ _angle_buf s = [] /\
   _swipe_frames_left s = 0%Z /\ _swipe_frames_right s = 0%Z).
Proof.
  intros Hok Hin.
  pose proof (run_object_ok wall frames w Hok) as Hall.
  rewrite Forall_forall in Hall. apply Hall in Hin.
  destruct Hin as ((Hb & Hc & Hz & Hs) & Hm). cbn. done.
Qed.

Lemma object_invariant_witness :
  let s := self pan_world_6 in
  ((length (_dist_buf s) <= config.SMOOTHING_WINDOW)%nat /\
   (length (_palm_buf s) <= config.SMOOTHING_WINDOW)%nat /\
   (length (_tilt_buf s) <= config.SMOOTHING_WINDOW)%nat /\
   (length (_angle_buf s) <= config.SMOOTHING_WINDOW)%nat) /\
  ((0 <= _swipe_frames_left s)%Z /\ (0 <= _swipe_frames_right s)%Z /\
   (_swipe_frames_left s = 0%Z \/ _swipe_frames_right s = 0%Z)) /\
  (_coast_dir s = 0%Z /\ _coast_frames s = 0%Z) /\
  _state s ∈ state_names /\
  (_dist_buf s = [] /\ _tilt_buf s = [] \/
   _palm_buf s = [] /\ _angle_buf s = [] /\
   _swipe_frames_left s = 0%Z /\ _swipe_frames_right s = 0%Z).
Proof.
  apply (object_invariant pan_clock pan_frames init_world
           (Some (IntensityEvent "bearing_cw" 1)) pan_world_6).
  - apply object_ok_init.
  - rewrite pan_run. do 5 apply list_elem_of_further. apply list_elem_of_here.
Defined.

(** ** One family at a time *)

Lemma mode_kept_swipe wall v w :
  kept single_hand_mode single_hand_mode w (_eval_swipe wall v w).
Proof.
  unfold _eval_swipe. unfold bind at 1.
  destruct (decide (v < - config.SWIPE_VELOCITY_THRESHOLD)); cbn.
  { repeat (destruct (decide _)); kept_with. }
  destruct (decide (v > config.SWIPE_VELOCITY_THRESHOLD)); cbn.
  { repeat (destruct (decide _)); kept_with. }
  kept_with.
Qed.

Lemma mode_kept_bearing wall h w :
  kept single_hand_mode single_hand_mode w (_eval_bearing wall h w).
Proof.
  unfold _eval_bearing, item. unfold bind at 1.
  destruct (landmarks h !! "wrist") as [wr |]; cbn; [| kept_with].
  unfold bind at 1.
  destruct (landmarks h !! "middle_mcp") as [mm |]; cbn; [| kept_with].
  destruct (decide _); [kept_with |]. cbn.
  destruct (decide _); [kept_with |].
  destruct (decide _); [kept_with |].
  destruct (decide _); cbn; kept_with.
Qed.

Lemma mode_kept_pitch wall w :
  kept two_hand_mode two_hand_mode w (_eval_two_hand_pitch wall w).
Proof.
  unfold _eval_two_hand_pitch, newest, first. cbn.
  destruct (decide _); [kept_with |].
  unfold bind at 1. destruct (last _); cbn; [| kept_with].
  unfold bind at 1. destruct (head _); cbn; [| kept_with].
  destruct (decide _); [kept_with |].
  destruct (decide _); cbn; kept_with.
Qed.

Lemma mode_kept_two_hand wall a b w :
  kept (fun _ => True) two_hand_mode w (_eval_two_hand wall a b w).
Proof.
  unfold _eval_two_hand. cbn.
  destruct (_ && _); cbn; [kept_with |].
  unfold bind at 1.
  match goal with |- context [_hand_norm_dy a ?w1] =>
    destruct (hand_norm_dy_world a w1) as [oa ->] end.
  destruct oa as [ndy_a |]; [| kept_with].
  unfold bind at 1.
  match goal with |- context [_hand_norm_dy b ?w1] =>
    destruct (hand_norm_dy_world b w1) as [ob ->] end.
  destruct ob as [ndy_b |]; [| kept_with].
  unfold newest, first.
  destruct ndy_a, ndy_b; cbn.
  all: destruct (decide _); [kept_with |].
  all: unfold bind at 1; destruct (last _); cbn; [| kept_with].
  all: unfold bind at 1; destruct (head _); cbn; [| kept_with].
  all: destruct (decide _); cbn;
    [ destruct (decide _); cbn; kept_with
    | eapply kept_from; [| apply mode_kept_pitch]; object_solve ].
Qed.

Lemma mode_kept_single_hand wall h w :
  kept (fun _ => True) single_hand_mode w (_eval_single_hand wall h w).
Proof.
  unfold _eval_single_hand, newest, first. cbn.
  destruct (negb _); cbn; [kept_with |].
  destruct (decide _); [kept_with |].
  unfold bind at 1. destruct (last _); cbn; [| kept_with].
  unfold bind at 1. destruct (head _); cbn; [| kept_with].
  unfold bind at 1.
  match goal with |- context [_eval_swipe wall ?v ?w1] =>
    pose proof (mode_kept_swipe wall v w1) as Hs;
    destruct (_eval_swipe wall v w1) as [[[e |] | e] w2] end.
  - cbn. intros _. unfold kept in Hs. cbn in Hs.
    assert (Hw2 : single_hand_mode (self w2)) by (apply Hs; object_solve).
    revert Hw2. object_solve.
  - eapply kept_from; [| apply mode_kept_bearing].
    intros _. apply Hs. object_solve.
  - intros _. apply Hs. object_solve.
Qed.

(** X2.  Whatever the object was, a call that returns leaves one of the two
    buffer families empty: the distance and tilt buffers, or the palm and
    angle buffers together with both swipe counters. *)
Theorem one_family_at_a_time wall hd w ev w1 :
  update wall hd w = (Return ev, w1) ->
  let s := self w1 in
  _dist_buf s = [] /\ _tilt_buf s = [] \/
  _palm_buf s = [] /\ _angle_buf s = [] /\
  _swipe_frames_left s = 0%Z /\ _swipe_frames_right s = 0%Z.
Proof.
  unfold update, subscript.
  destruct (negb _); cbn.
  { intros [= _ <-]. by left. }
  destruct (decide _).
  - unfold bind at 1. destruct (hands hd !! 0%nat) as [a |]; cbn; [| done].
    unfold bind at 1. destruct (hands hd !! 1%nat) as [b |]; cbn; [| done].
    intros Hu. right.
    pose proof (mode_kept_two_hand wall a b w) as Hk.
    rewrite Hu in Hk. by apply Hk.
  - destruct (decide _); cbn.
    + unfold bind at 1. destruct (hands hd !! 0%nat) as [h |]; cbn; [| done].
      intros Hu. left.
      pose proof (mode_kept_single_hand wall h w) as Hk.
      rewrite Hu in Hk. by apply Hk.
    + intros [= _ <-]. by left.
Qed.

Lemma one_family_at_a_time_witness :
  let s := self pan_world_4 in
  _dist_buf s = [] /\ _tilt_buf s = [] \/
  _palm_buf s = [] /\ _angle_buf s = [] /\
  _swipe_frames_left s = 0%Z /\ _swipe_frames_right s = 0%Z.
Proof.
  apply (one_family_at_a_time pan_clock (one_hand (hand_at 0.55 0.5 0.1 0))
           pan_world_3 (Some (VelocityEvent "pan_left" 0.15)) pan_world_4).
  apply pan_frame_4.
Defined.

(** ** What an event tells about the call *)

Lemma emits_gate P wall g f ev w :
  (forall c, P ev (f (set_cooldowns c (self w)))) ->
  emits P (gate wall g f ev w).
Proof.
  intros Hf. destruct (gate_cases wall g f ev w) as [-> | ->]; cbn; [done |].
  apply Hf.
Qed.

Lemma emits_from (P P' : Event -> GestureRecognizer -> Prop) r :
  (forall e s, P' e s -> P e s) -> emits P' r -> emits P r.
Proof.
  unfold emits. intros HP. destruct (fst r) as [[e |] | e]; auto.
Qed.

Ltac disj_solve :=
  match goal with
  | |- _ /\ _ => split; disj_solve
  | |- _ \/ _ => first [left; disj_solve | right; disj_solve]
  | |- _ => first [lia | reflexivity | assumption]
  end.

Ltac event_solve :=
  unfold update_event, single_hand_event, two_hand_event, zoom_event,
    pitch_event, bearing_event, swipe_event, config.SWIPE_MIN_FRAMES in *;
  cbn [self snd fst] in *;
  cbn [_state _dist_buf _palm_buf _tilt_buf _angle_buf _swipe_frames_left
       _swipe_frames_right _coast_dir _coast_frames _cooldowns
       set_state set_dist_buf set_palm_buf set_tilt_buf set_angle_buf
       set_swipe_frames_left set_swipe_frames_right set_coast_dir
       set_coast_frames set_cooldowns String.eqb Ascii.eqb Bool.eqb] in *;
  disj_solve.

Ltac emits_with :=
  first
    [ unfold ret, raise, emits; cbn [fst]; exact I
    | match goal with
      | |- emits ?P
             (bind (_can_emit ?wall ?g)
                (fun ok => if negb ok then ret None
                           else (_record_emit _ _ >> modify ?f >>
                                 ret (Some ?ev))) ?w) =>
          apply (emits_gate P wall g f ev w)
      | |- emits ?P
             (bind (_can_emit ?wall ?g)
                (fun ok => if negb ok then ret None
                           else (_record_emit _ _ >> ret (Some ?ev))) ?w) =>
          apply (emits_gate P wall g (fun s => s) ev w)
      | |- emits ?P (?body {| self := ?s1; ticks := S ?t |}) =>
          match body with
          | context [_record_emit ?wall ?g] =>
              match body with
              | context [Some ?ev] =>
                  change (emits P
                            (gate wall g (fun s => s) ev
                               {| self := s1; ticks := t |}));
                  apply emits_gate
              end
          end
      end; intros ?; event_solve ].

Lemma emits_swipe wall v w :
  emits (fun e s => swipe_event e s /\ _palm_buf s = _palm_buf (self w) /\
                    _angle_buf s = _angle_buf (self w))
        (_eval_swipe wall v w).
Proof.
  unfold _eval_swipe. unfold bind at 1.
  destruct (decide (v < - config.SWIPE_VELOCITY_THRESHOLD)); cbn.
  { repeat (destruct (decide _)); emits_with. }
  destruct (decide (v > config.SWIPE_VELOCITY_THRESHOLD)); cbn.
  { repeat (destruct (decide _)); emits_with. }
  emits_with.
Qed.

Lemma emits_bearing wall h w :
  emits (fun e s => bearing_event e s /\ _palm_buf s = _palm_buf (self w))
        (_eval_bearing wall h w).
Proof.
  unfold _eval_bearing, item. unfold bind at 1.
  destruct (landmarks h !! "wrist") as [wr |]; cbn; [| emits_with].
  unfold bind at 1.
  destruct (landmarks h !! "middle_mcp") as [mm |]; cbn; [| emits_with].
  destruct (decide _); [emits_with |]. cbn.
  destruct (decide _); [emits_with |].
  destruct (decide _); [emits_with |].
  destruct (decide _); cbn; emits_with.
Qed.

Lemma emits_pitch wall w :
  emits (fun e s => pitch_event e s /\ _dist_buf s = _dist_buf (self w))
        (_eval_two_hand_pitch wall w).
Proof.
  unfold _eval_two_hand_pitch, newest, first. cbn.
  destruct (decide _); [emits_with |].
  unfold bind at 1. destruct (last _); cbn; [| emits_with].
  unfold bind at 1. destruct (head _); cbn; [| emits_with].
  destruct (decide _); [emits_with |].
  destruct (decide _); cbn; emits_with.
Qed.

Lemma emits_two_hand wall a b w :
  emits two_hand_event (_eval_two_hand wall a b w).
Proof.
  unfold _eval_two_hand. cbn.
  destruct (_ && _); cbn; [emits_with |].
  unfold bind at 1.
  match goal with |- context [_hand_norm_dy a ?w1] =>
    destruct (hand_norm_dy_world a w1) as [oa ->] end.
  destruct oa as [ndy_a |]; [| emits_with].
  unfold bind at 1.
  match goal with |- context [_hand_norm_dy b ?w1] =>
    destruct (hand_norm_dy_world b w1) as [ob ->] end.
  destruct ob as [ndy_b |]; [| emits_with].
  unfold newest, first.
  destruct ndy_a, ndy_b; cbn.
  all: destruct (decide _); [emits_with |].
  all: unfold bind at 1; destruct (last _); cbn; [| emits_with].
  all: unfold bind at 1; destruct (head _); cbn; [| emits_with].
  all: destruct (decide _); cbn;
    [ destruct (decide _); cbn; emits_with
    | eapply emits_from; [| apply emits_pitch];
      intros ev s [He Hd]; split; [rewrite Hd; cbn; lia | by right] ].
Qed.

Lemma palm_kept_swipe wall v w n :
  kept (fun s => (n <= length (_palm_buf s))%nat)
       (fun s => (n <= length (_palm_buf s))%nat) w (_eval_swipe wall v w).
Proof.
  unfold _eval_swipe. unfold bind at 1.
  destruct (decide (v < - config.SWIPE_VELOCITY_THRESHOLD)); cbn.
  { repeat (destruct (decide _)); kept_with. }
  destruct (decide (v > config.SWIPE_VELOCITY_THRESHOLD)); cbn.
  { repeat (destruct (decide _)); kept_with. }
  kept_with.
Qed.

Lemma emits_single_hand wall h w :
  emits single_hand_event (_eval_single_hand wall h w).
Proof.
  unfold _eval_single_hand, newest, first. cbn.
  destruct (negb _); cbn; [emits_with |].
  destruct (decide _) as [| Hlen]; [emits_with |].
  unfold bind at 1. destruct (last _); cbn; [| emits_with].
  unfold bind at 1. destruct (head _); cbn; [| emits_with].
  unfold bind at 1.
  match goal with |- context [_eval_swipe wall ?v ?w1] =>
    pose proof (emits_swipe wall v w1) as Hs;
    pose proof (palm_kept_swipe wall v w1 2) as Hk;
    destruct (_eval_swipe wall v w1) as [[[e |] | e] w2] end.
  - unfold emits in *. cbn in *. destruct Hs as (He & Hp & _).
    unfold single_hand_event. cbn.
    split; [rewrite Hp; lia |]. left. split; [| done].
    destruct e; [done |]. exact He.
  - unfold kept in Hk. cbn in Hk.
    eapply emits_from; [| apply emits_bearing].
    intros e s [He Hp]. split; [| by right].
    rewrite Hp. apply Hk. lia.
  - done.
Qed.

Lemma emits_update wall hd w :
  emits (update_event hd) (update wall hd w).
Proof.
  unfold update, subscript.
  destruct (detected hd) eqn:Hd; cbn; [| emits_with].
  destruct (decide _).
  - unfold bind at 1. destruct (hands hd !! 0%nat); cbn; [| emits_with].
    unfold bind at 1. destruct (hands hd !! 1%nat); cbn; [| emits_with].
    eapply emits_from; [| apply emits_two_hand].
    intros ev s He. split; [done |]. by left.
  - destruct (decide _); [| cbn; emits_with].
    unfold bind at 1. destruct (hands hd !! 0%nat); cbn; [| emits_with].
    eapply emits_from; [| apply emits_single_hand].
    intros ev s He. split; [done |]. by right.
Qed.

Lemma update_event_of wall hd w e w1 :
  update wall hd w = (Return (Some e), w1) -> update_event hd e (self w1).
Proof.
  intros Hu. pose proof (emits_update wall hd w) as He.
  unfold emits in He. by rewrite Hu in He.
Qed.

(** X3.  When [update] returns an event, the state field it leaves is the
    state of that event's gesture: [zoom] for the two zoom kinds, and for
    each other kind the state constant of the same direction. *)
Theorem event_sets_state wall hd w e w1 :
  update wall hd w = (Return (Some e), w1) ->
  _state (self w1) = state_of_gesture (event_gesture e).
Proof.
  intros Hu.
  apply update_event_of in Hu as (_ & [[_ (_ & He)] | [_ (_ & He)]]).
  - destruct He as [He | He]; destruct e as [g v | g v]; try done; cbn in *.
    + by destruct He as ([-> | ->] & ->).
    + by destruct He as ([[-> ->] | [-> ->]] & _).
  - destruct He as [[He _] | He]; destruct e as [g v | g v]; try done;
      cbn in *.
    + by destruct He as [(-> & -> & _) | (-> & -> & _)].
    + by destruct He as ([[-> ->] | [-> ->]] & _).
Qed.

Lemma event_sets_state_witness :
  _state (self pan_world_4) = state_of_gesture "pan_left".
Proof.
  apply (event_sets_state pan_clock (one_hand (hand_at 0.55 0.5 0.1 0))
           pan_world_3 (VelocityEvent "pan_left" 0.15) pan_world_4).
  apply pan_frame_4.
Defined.

(** X4.  An event comes from a frame that reports a detection; with two or
    more hands it is a zoom or a pitch, with exactly one hand a pan or a
    bearing. *)
Theorem event_routing wall hd w e w1 :
  update wall hd w = (Return (Some e), w1) ->
  detected hd = true /\
  ((hand_count hd >= 2)%Z /\
   event_gesture e ∈ ["zoom_in"; "zoom_out"; "pitch_up"; "pitch_down"] \/
   hand_count hd = 1%Z /\
   event_gesture e ∈ ["pan_left"; "pan_right"; "bearing_cw"; "bearing_ccw"]).
Proof.
  intros Hu.
  apply update_event_of in Hu as (Hd & [[Hn (_ & He)] | [Hn (_ & He)]]).
  - split; [done |]. left. split; [done |].
    destruct He as [He | He]; destruct e as [g v | g v]; try done; cbn in *.
    + destruct He as ([-> | ->] & _); in_kinds.
    + destruct He as ([[-> _] | [-> _]] & _); in_kinds.
  - split; [done |]. right. split; [done |].
    destruct He as [[He _] | He]; destruct e as [g v | g v]; try done;
      cbn in *.
    + destruct He as [(-> & _) | (-> & _)]; in_kinds.
    + destruct He as ([[-> _] | [-> _]] & _); in_kinds.
Qed.

Lemma event_routing_witness :
  detected (one_hand (hand_at 0.45 0.5 0 0.1)) = true /\
  ((hand_count (one_hand (hand_at 0.45 0.5 0 0.1)) >= 2)%Z /\
   "bearing_cw" ∈ ["zoom_in"; "zoom_out"; "pitch_up"; "pitch_down"] \/
   hand_count (one_hand (hand_at 0.45 0.5 0 0.1)) = 1%Z /\
   "bearing_cw" ∈ ["pan_left"; "pan_right"; "bearing_cw"; "bearing_ccw"]).
Proof.
  apply (event_routing pan_clock (one_hand (hand_at 0.45 0.5 0 0.1))
           pan_world_5 (IntensityEvent "bearing_cw" 1) pan_world_6).
  apply pan_frame_6.
Defined.

(** X5.  The magnitude of a pan event is stored under the key [velocity],
    that of every other event under [intensity]. *)
Theorem event_magnitude_key wall hd w e w1 :
  update wall hd w = (Return (Some e), w1) ->
  magnitude_key e =
    if decide (event_gesture e ∈ ["pan_left"; "pan_right"])
    then "velocity" else "intensity".
Proof.
  intros Hu.
  apply update_event_of in Hu as (_ & [[_ (_ & He)] | [_ (_ & He)]]).
  - destruct He as [He | He]; destruct e as [g v | g v]; try done; cbn in *.
    + by destruct He as ([-> | ->] & _).
    + by destruct He as ([[-> _] | [-> _]] & _).
  - destruct He as [[He _] | He]; destruct e as [g v | g v]; try done;
      cbn in *.
    + by destruct He as [(-> & _) | (-> & _)].
    + by destruct He as ([[-> _] | [-> _]] & _).
Qed.

Lemma event_magnitude_key_witness :
  magnitude_key (VelocityEvent "pan_left" 0.2) = "velocity".
Proof.
  apply (event_magnitude_key pan_clock pan_frame_after_cooldown pan_world_7
           (VelocityEvent "pan_left" 0.2) pan_world_8).
  apply pan_frame_8.
Defined.

(** ** Latency: how many frames an event needs *)

Lemma deque_append_length_eq {A} (n : nat) (buf : list A) (x : A) :
  length (deque_append (S n) buf x) =
    if decide (length buf < S n)%nat then S (length buf) else length buf.
Proof.
  unfold deque_append.
  destruct (decide (S n < _)%nat) as [Hlt | Hge]; rewrite length_app in *;
    cbn [length] in *.
  - rewrite decide_False by lia.
    destruct buf as [| y buf]; cbn [app tail length] in *; [lia |].
    rewrite length_app. cbn [length]. lia.
  - rewrite decide_True by lia. lia.
Qed.

Ltac length_solve :=
  unfold ret, raise, modify in *;
  unfold paced, paced_by, counters_ok, dist_within, palm_within,
    config.SMOOTHING_WINDOW in *;
  cbn [self snd fst] in *;
  cbn [_state _dist_buf _palm_buf _tilt_buf _angle_buf _swipe_frames_left
       _swipe_frames_right _coast_dir _coast_frames _cooldowns
       set_state set_dist_buf set_palm_buf set_tilt_buf set_angle_buf
       set_swipe_frames_left set_swipe_frames_right set_coast_dir
       set_coast_frames set_cooldowns length] in *;
  intros;
  repeat match goal with
         | H : _ /\ _ |- _ => destruct H
         end;
  repeat match goal with
         | |- context [length (deque_append 5 ?b ?x)] =>
             rewrite (deque_append_length_eq 4 b x);
             destruct (decide (length b < 5)%nat)
         | H : context [length (deque_append 5 ?b ?x)] |- _ =>
             rewrite (deque_append_length_eq 4 b x) in H;
             destruct (decide (length b < 5)%nat)
         end;
  cbn [length] in *;
  repeat split; lia.

Ltac kept_by tac :=
  first
    [ unfold ret, raise, kept; cbn [snd self]; tac
    | match goal with
      | |- kept ?P ?Q ?w0
             (bind (_can_emit ?wall ?g)
                (fun ok => if negb ok then ret None
                           else (_record_emit _ _ >> modify ?f >>
                                 ret (Some ?ev))) ?w) =>
          apply (kept_gate P Q wall g f ev w0 w)
      | |- kept ?P ?Q ?w0
             (bind (_can_emit ?wall ?g)
                (fun ok => if negb ok then ret None
                           else (_record_emit _ _ >> ret (Some ?ev))) ?w) =>
          apply (kept_gate P Q wall g (fun s => s) ev w0 w)
      | |- kept ?P ?Q ?w0 (?body {| self := ?s1; ticks := S ?t |}) =>
          match body with
          | context [_record_emit ?wall ?g] =>
              match body with
              | context [Some ?ev] =>
                  change (kept P Q w0
                            (gate wall g (fun s => s) ev
                               {| self := s1; ticks := t |}));
                  apply kept_gate
              end
          end
      end; tac ].


Lemma paced_kept_swipe wall v w :
  kept (fun s => counters_ok s /\ (2 <= length (_palm_buf s))%nat /\
                 paced_by 1 s)
       paced w (_eval_swipe wall v w).
Proof.
  unfold _eval_swipe. unfold bind at 1.
  destruct (decide (v < - config.SWIPE_VELOCITY_THRESHOLD)); cbn.
  { repeat (destruct (decide _)); kept_by length_solve. }
  destruct (decide (v > config.SWIPE_VELOCITY_THRESHOLD)); cbn.
  { repeat (destruct (decide _)); kept_by length_solve. }
  kept_by length_solve.
Qed.

Lemma paced_kept_bearing wall h w :
  kept paced paced w (_eval_bearing wall h w).
Proof.
  unfold _eval_bearing, item. unfold bind at 1.
  destruct (landmarks h !! "wrist") as [wr |]; cbn; [| kept_by length_solve].
  unfold bind at 1.
  destruct (landmarks h !! "middle_mcp") as [mm |]; cbn;
    [| kept_by length_solve].
  destruct (decide _); [kept_by length_solve |]. cbn.
  destruct (decide _); [kept_by length_solve |].
  destruct (decide _); [kept_by length_solve |].
  destruct (decide _); cbn; kept_by length_solve.
Qed.

Lemma paced_kept_pitch wall w :
  kept paced paced w (_eval_two_hand_pitch wall w).
Proof.
  unfold _eval_two_hand_pitch, newest, first. cbn.
  destruct (decide _); [kept_by length_solve |].
  unfold bind at 1. destruct (last _); cbn; [| kept_by length_solve].
  unfold bind at 1. destruct (head _); cbn; [| kept_by length_solve].
  destruct (decide _); [kept_by length_solve |].
  destruct (decide _); cbn; kept_by length_solve.
Qed.

Lemma paced_kept_two_hand wall a b w :
  kept (fun _ => True) paced w (_eval_two_hand wall a b w).
Proof.
  unfold _eval_two_hand. cbn.
  destruct (_ && _); cbn; [kept_by length_solve |].
  unfold bind at 1.
  match goal with |- context [_hand_norm_dy a ?w1] =>
    destruct (hand_norm_dy_world a w1) as [oa ->] end.
  destruct oa as [ndy_a |]; [| kept_by length_solve].
  unfold bind at 1.
  match goal with |- context [_hand_norm_dy b ?w1] =>
    destruct (hand_norm_dy_world b w1) as [ob ->] end.
  destruct ob as [ndy_b |]; [| kept_by length_solve].
  unfold newest, first.
  destruct ndy_a, ndy_b; cbn.
  all: destruct (decide _); [kept_by length_solve |].
  all: unfold bind at 1; destruct (last _); cbn; [| kept_by length_solve].
  all: unfold bind at 1; destruct (head _); cbn; [| kept_by length_solve].
  all: destruct (decide _); cbn;
    [ destruct (decide _); cbn; kept_by length_solve
    | eapply kept_from; [| apply paced_kept_pitch]; length_solve ].
Qed.

Lemma paced_kept_single_hand wall h w :
  kept paced paced w (_eval_single_hand wall h w).
Proof.
  unfold _eval_single_hand, newest, first. cbn.
  destruct (negb _); cbn; [kept_by length_solve |].
  destruct (decide _); [kept_by length_solve |].
  unfold bind at 1. destruct (last _); cbn; [| kept_by length_solve].
  unfold bind at 1. destruct (head _); cbn; [| kept_by length_solve].
  unfold bind at 1.
  match goal with |- context [_eval_swipe wall ?v ?w1] =>
    pose proof (paced_kept_swipe wall v w1) as Hs;
    destruct (_eval_swipe wall v w1) as [[[e |] | e] w2] end.
  - cbn. intros Hp. unfold kept in Hs. cbn in Hs.
    assert (Hw2 : paced (self w2)) by (apply Hs; revert Hp; length_solve).
    revert Hw2. length_solve.
  - eapply kept_from; [| apply paced_kept_bearing].
    intros Hp. apply Hs. revert Hp. length_solve.
  - intros Hp. apply Hs. revert Hp. length_solve.
Qed.

Lemma paced_kept_update wall hd w :
  kept paced paced w (update wall hd w).
Proof.
  unfold update, subscript.
  destruct (negb _); cbn; [kept_by length_solve |].
  destruct (decide _).
  - unfold bind at 1. destruct (hands hd !! 0%nat); cbn;
      [| kept_by length_solve].
    unfold bind at 1. destruct (hands hd !! 1%nat); cbn;
      [| kept_by length_solve].
    intros _. by apply paced_kept_two_hand.
  - destruct (decide _); [| cbn; kept_by length_solve].
    unfold bind at 1. destruct (hands hd !! 0%nat); cbn;
      [| kept_by length_solve].
    apply paced_kept_single_hand.
Qed.

Lemma within_kept_swipe wall v w m :
  kept (dist_within m) (dist_within m) w (_eval_swipe wall v w) /\
  kept (palm_within m) (palm_within m) w (_eval_swipe wall v w).
Proof.
  split.
  all: unfold _eval_swipe; unfold bind at 1.
  all: destruct (decide (v < - config.SWIPE_VELOCITY_THRESHOLD)); cbn;
    [ repeat (destruct (decide _)); kept_by length_solve |].
  all: destruct (decide (v > config.SWIPE_VELOCITY_THRESHOLD)); cbn;
    [ repeat (destruct (decide _)); kept_by length_solve |].
  all: kept_by length_solve.
Qed.

Lemma within_kept_bearing wall h w m :
  kept (dist_within m) (dist_within m) w (_eval_bearing wall h w) /\
  kept (palm_within m) (palm_within m) w (_eval_bearing wall h w).
Proof.
  split.
  all: unfold _eval_bearing, item; unfold bind at 1.
  all: destruct (landmarks h !! "wrist") as [wr |]; cbn;
    [| kept_by length_solve].
  all: unfold bind at 1.
  all: destruct (landmarks h !! "middle_mcp") as [mm |]; cbn;
    [| kept_by length_solve].
  all: destruct (decide _); [kept_by length_solve |]; cbn.
  all: destruct (decide _); [kept_by length_solve |].
  all: destruct (decide _); [kept_by length_solve |].
  all: destruct (decide _); cbn; kept_by length_solve.
Qed.

Lemma within_kept_pitch wall w m :
  kept (dist_within m) (dist_within m) w (_eval_two_hand_pitch wall w) /\
  kept (palm_within m) (palm_within m) w (_eval_two_hand_pitch wall w).
Proof.
  split.
  all: unfold _eval_two_hand_pitch, newest, first; cbn.
  all: destruct (decide _); [kept_by length_solve |].
  all: unfold bind at 1; destruct (last _); cbn; [| kept_by length_solve].
  all: unfold bind at 1; destruct (head _); cbn; [| kept_by length_solve].
  all: destruct (decide _); [kept_by length_solve |].
  all: destruct (decide _); cbn; kept_by length_solve.
Qed.

Lemma within_kept_two_hand wall a b w n :
  kept (dist_within n) (dist_within (S n)) w (_eval_two_hand wall a b w) /\
  kept (palm_within n) (palm_within (S n)) w (_eval_two_hand wall a b w).
Proof.
  split.
  all: unfold _eval_two_hand; cbn.
  all: destruct (_ && _); cbn; [kept_by length_solve |].
  all: unfold bind at 1.
  all: match goal with |- context [_hand_norm_dy ?h ?w1] =>
         destruct (hand_norm_dy_world h w1) as [oa ->] end.
  all: destruct oa as [ndy_a |]; [| kept_by length_solve].
  all: unfold bind at 1.
  all: match goal with |- context [_hand_norm_dy ?h ?w1] =>
         destruct (hand_norm_dy_world h w1) as [ob ->] end.
  all: destruct ob as [ndy_b |]; [| kept_by length_solve].
  all: unfold newest, first.
  all: destruct ndy_a, ndy_b; cbn.
  all: destruct (decide _); [kept_by length_solve |].
  all: unfold bind at 1; destruct (last _); cbn; [| kept_by length_solve].
  all: unfold bind at 1; destruct (head _); cbn; [| kept_by length_solve].
  all: destruct (decide _); cbn;
    [ destruct (decide _); cbn; kept_by length_solve
    | eapply kept_from; [| apply within_kept_pitch]; length_solve ].
Qed.

Lemma within_kept_single_hand wall h w n :
  kept (dist_within n) (dist_within (S n)) w (_eval_single_hand wall h w) /\
  kept (palm_within n) (palm_within (S n)) w (_eval_single_hand wall h w).
Proof.
  split.
  all: unfold _eval_single_hand, newest, first; cbn.
  all: destruct (negb _); cbn; [kept_by length_solve |].
  all: destruct (decide _); [kept_by length_solve |].
  all: unfold bind at 1; destruct (last _); cbn; [| kept_by length_solve].
  all: unfold bind at 1; destruct (head _); cbn; [| kept_by length_solve].
  all: unfold bind at 1.
  all: match goal with |- context [_eval_swipe ?c ?v ?w1] =>
         pose proof (within_kept_swipe c v w1 (S n)) as [Hd Hp];
         destruct (_eval_swipe c v w1) as [[[e |] | e] w2] end.
  - cbn. intros Hn. unfold kept in Hd. cbn in Hd.
    assert (Hw2 : dist_within (S n) (self w2))
      by (apply Hd; revert Hn; length_solve).
    revert Hw2. length_solve.
  - eapply kept_from; [| apply within_kept_bearing].
    intros Hn. apply Hd. revert Hn. length_solve.
  - intros Hn. apply Hd. revert Hn. length_solve.
  - cbn. intros Hn. unfold kept in Hp. cbn in Hp.
    assert (Hw2 : palm_within (S n) (self w2))
      by (apply Hp; revert Hn; length_solve).
    revert Hw2. length_solve.
  - eapply kept_from; [| apply within_kept_bearing].
    intros Hn. apply Hp. revert Hn. length_solve.
  - intros Hn. apply Hp. revert Hn. length_solve.
Qed.

Lemma within_kept_update wall hd w n :
  kept (dist_within n) (dist_within (S n)) w (update wall hd w) /\
  kept (palm_within n) (palm_within (S n)) w (update wall hd w).
Proof.
  split.
  all: unfold update, subscript.
  all: destruct (negb _); cbn; [kept_by length_solve |].
  all: destruct (decide _);
    [ unfold bind at 1; destruct (hands hd !! 0%nat); cbn;
        [| kept_by length_solve];
      unfold bind at 1; destruct (hands hd !! 1%nat); cbn;
        [| kept_by length_solve];
      apply within_kept_two_hand
    | destruct (decide _); [| cbn; kept_by length_solve];
      unfold bind at 1; destruct (hands hd !! 0%nat); cbn;
        [| kept_by length_solve];
      apply within_kept_single_hand ].
Qed.

(** X6.  An event needs history: a zoom or pitch is returned only if the
    distance buffer already held a sample when the call began, a pan or
    bearing only if the palm buffer did.  A call that begins with both
    buffers empty returns no event. *)
Theorem event_needs_history wall hd w e w1 :
  update wall hd w = (Return (Some e), w1) ->
  (hand_count hd >= 2)%Z /\ _dist_buf (self w) <> [] \/
  hand_count hd = 1%Z /\ _palm_buf (self w) <> [].
Proof.
  intros Hu.
  destruct (within_kept_update wall hd w 0) as [Hd Hp].
  rewrite Hu in Hd, Hp. unfold kept, dist_within, palm_within in Hd, Hp.
  cbn [snd] in Hd, Hp.
  apply update_event_of in Hu as (_ & [[Hn (Hlen & _)] | [Hn (Hlen & _)]]).
  - left. split; [done |]. intros Hnil. rewrite Hnil in Hd.
    specialize (Hd (le_n 0)). lia.
  - right. split; [done |]. intros Hnil. rewrite Hnil in Hp.
    specialize (Hp (le_n 0)). lia.
Qed.

Lemma event_needs_history_witness :
  (hand_count (one_hand (hand_at 0.55 0.5 0.1 0)) >= 2)%Z /\
  _dist_buf (self pan_world_3) <> [] \/
  hand_count (one_hand (hand_at 0.55 0.5 0.1 0)) = 1%Z /\
  _palm_buf (self pan_world_3) <> [].
Proof.
  apply (event_needs_history pan_clock (one_hand (hand_at 0.55 0.5 0.1 0))
           pan_world_3 (VelocityEvent "pan_left" 0.15) pan_world_4).
  apply pan_frame_4.
Defined.

(** ** The swipe needs four frames *)

Lemma run_lookup_cons wall hd rest w i step :
  run wall (hd :: rest) w !! i = Some step ->
  exists ev w1, update wall hd w = (Return ev, w1) /\
    match i with
    | O => step = (ev, w1)
    | S j => run wall rest w1 !! j = Some step
    end.
Proof.
  rewrite run_cons. destruct (update wall hd w) as [[ev | x] w1]; [| done].
  intros Hi. exists ev, w1. split; [done |].
  destruct i as [| j]; cbn in Hi; [by injection Hi as <- | done].
Qed.

Lemma run_palm_within wall frames w n i ev w1 :
  palm_within n (self w) ->
  run wall frames w !! i = Some (ev, w1) ->
  palm_within (n + S i) (self w1).
Proof.
  revert w n i. induction frames as [| hd rest IH]; intros w n i Hn Hi;
    [done |].
  apply run_lookup_cons in Hi as (ev0 & w0 & Hu & Hi).
  destruct (within_kept_update wall hd w n) as [_ Hp].
  rewrite Hu in Hp. specialize (Hp Hn). cbn [snd] in Hp.
  destruct i as [| j].
  - injection Hi as -> ->. by rewrite Nat.add_1_r.
  - replace (n + S (S j))%nat with (S n + S j)%nat by lia.
    by apply (IH w0 (S n) j).
Qed.

Lemma run_paced wall frames w i ev w1 :
  paced (self w) ->
  run wall frames w !! i = Some (ev, w1) ->
  paced (self w1) /\
  exists hd w0, update wall hd w0 = (Return ev, w1).
Proof.
  revert w i. induction frames as [| hd rest IH]; intros w i Hw Hi; [done |].
  apply run_lookup_cons in Hi as (ev0 & w0 & Hu & Hi).
  pose proof (paced_kept_update wall hd w) as Hp.
  rewrite Hu in Hp. specialize (Hp Hw). cbn [snd] in Hp.
  destruct i as [| j].
  - injection Hi as -> ->. split; [done |]. by exists hd, w.
  - by apply (IH w0 j).
Qed.

Lemma pan_kinds_cases g :
  g ∈ pan_kinds <-> g = "pan_left" \/ g = "pan_right".
Proof.
  unfold pan_kinds. rewrite !elem_of_cons, elem_of_nil. tauto.
Qed.

(** X7.  A fresh recogniser returns no pan event in its first three calls:
    a pan is returned only when the palm buffer holds at least four
    samples, since a swipe counter is at most one less than the length of
    a buffer that is not yet full. *)
Theorem pan_needs_four_frames wall frames i e w1 :
  run wall frames init_world !! i = Some (Some e, w1) ->
  event_gesture e ∈ pan_kinds ->
  (3 <= i)%nat /\ (4 <= length (_palm_buf (self w1)))%nat.
Proof.
  intros Hi Hpan.
  assert (Hlen : (4 <= length (_palm_buf (self w1)))%nat).
  { apply run_paced in Hi as [[Hc Hp] (hd & w0 & Hu)].
    2:{ unfold paced, paced_by, counters_ok. cbn. lia. }
    apply update_event_of in Hu as (_ & [[_ (_ & He)] | [_ (_ & He)]]).
    - exfalso. apply pan_kinds_cases in Hpan.
      destruct He as [He | He]; destruct e as [g v | g v]; try done;
        cbn in *.
      + by destruct He as ([-> | ->] & _), Hpan.
      + by destruct He as ([[-> _] | [-> _]] & _), Hpan.
    - destruct He as [[He _] | He]; destruct e as [g v | g v]; try done;
        cbn in *.
      + revert Hc Hp He. unfold paced_by, counters_ok, config.SWIPE_MIN_FRAMES,
          config.SMOOTHING_WINDOW. lia.
      + exfalso. apply pan_kinds_cases in Hpan.
        by destruct He as ([[-> _] | [-> _]] & _), Hpan. }
  split; [| done].
  apply (run_palm_within _ _ _ 0) in Hi; [| unfold palm_within; cbn; lia].
  unfold palm_within in Hi. lia.
Qed.

Lemma pan_needs_four_frames_witness :
  (3 <= 3)%nat /\ (4 <= length (_palm_buf (self pan_world_4)))%nat.
Proof.
  apply (pan_needs_four_frames pan_clock pan_frames 3
           (VelocityEvent "pan_left" 0.15) pan_world_4).
  - by rewrite pan_run.
  - unfold pan_kinds. apply list_elem_of_here.
Defined.

(** ** Exceptions: which, when, and what they leave *)

Lemma raises_gate P wall g f ev w : raises P (gate wall g f ev w).
Proof. by destruct (gate_cases wall g f ev w) as [-> | ->]. Qed.

Lemma raises_from (P P' : Exn -> Prop) r :
  (forall x, P' x -> P x) -> raises P' r -> raises P r.
Proof. unfold raises. destruct (fst r); auto. Qed.

Lemma missing_wrist h :
  landmarks h !! "wrist" = None -> missing_pivot h (KeyError "wrist").
Proof. intros Hk. split; [apply list_elem_of_here | done]. Qed.

Lemma missing_middle_mcp h :
  landmarks h !! "middle_mcp" = None ->
  missing_pivot h (KeyError "middle_mcp").
Proof.
  intros Hk. split; [apply list_elem_of_further, list_elem_of_here | done].
Qed.

Ltac raises_with tac :=
  first
    [ solve [unfold ret, raises; cbn [fst]; exact I]
    | solve [unfold raise, raises; cbn [fst]; tac]
    | match goal with
      | |- raises ?P
             (bind (_can_emit ?wall ?g)
                (fun ok => if negb ok then ret None
                           else (_record_emit _ _ >> modify ?f >>
                                 ret (Some ?ev))) ?w) =>
          apply (raises_gate P wall g f ev w)
      | |- raises ?P
             (bind (_can_emit ?wall ?g)
                (fun ok => if negb ok then ret None
                           else (_record_emit _ _ >> ret (Some ?ev))) ?w) =>
          apply (raises_gate P wall g (fun s => s) ev w)
      | |- raises ?P (?body {| self := ?s1; ticks := S ?t |}) =>
          match body with
          | context [_record_emit ?wall ?g] =>
              match body with
              | context [Some ?ev] =>
                  change (raises P
                            (gate wall g (fun s => s) ev
                               {| self := s1; ticks := t |}));
                  apply raises_gate
              end
          end
      end ].

(** A buffer that passed the length test has a first and a last element. *)
Ltac nonempty :=
  match goal with
  | H : last ?l = None |- _ =>
      apply last_None in H; rewrite H in *; cbn [length] in *; lia
  | H : head ?l = None |- _ =>
      apply head_None in H; rewrite H in *; cbn [length] in *; lia
  end.

Ltac pivot :=
  first [by apply missing_wrist | by apply missing_middle_mcp
        | left; by apply missing_wrist | left; by apply missing_middle_mcp
        | right; by apply missing_wrist
        | right; by apply missing_middle_mcp
        | nonempty ].

Lemma raises_swipe wall v w : raises (fun _ => False) (_eval_swipe wall v w).
Proof.
  unfold _eval_swipe. unfold bind at 1.
  destruct (decide (v < - config.SWIPE_VELOCITY_THRESHOLD)); cbn.
  { repeat (destruct (decide _)); raises_with idtac. }
  destruct (decide (v > config.SWIPE_VELOCITY_THRESHOLD)); cbn.
  { repeat (destruct (decide _)); raises_with idtac. }
  raises_with idtac.
Qed.

Lemma raises_bearing wall h w :
  raises (missing_pivot h) (_eval_bearing wall h w).
Proof.
  unfold _eval_bearing, item. unfold bind at 1.
  destruct (landmarks h !! "wrist") as [wr |] eqn:Hwr; cbn;
    [| raises_with pivot].
  unfold bind at 1.
  destruct (landmarks h !! "middle_mcp") as [mm |] eqn:Hmm; cbn;
    [| raises_with pivot].
  destruct (decide _); [raises_with pivot |]. cbn.
  destruct (decide _); [raises_with pivot |].
  destruct (decide _); [raises_with pivot |].
  destruct (decide _); cbn; raises_with pivot.
Qed.

Lemma raises_pitch wall w :
  raises (fun _ => False) (_eval_two_hand_pitch wall w).
Proof.
  unfold _eval_two_hand_pitch, newest, first. cbn.
  destruct (decide _); [raises_with pivot |].
  unfold bind at 1. destruct (last _) eqn:Hhi; cbn; [| raises_with pivot].
  unfold bind at 1. destruct (head _) eqn:Hlo; cbn; [| raises_with pivot].
  destruct (decide _); [raises_with pivot |].
  destruct (decide _); cbn; raises_with pivot.
Qed.

Lemma hand_norm_dy_cases h w :
  (exists v, _hand_norm_dy h w = (Return v, w)) \/
  (exists x, _hand_norm_dy h w = (Raise x, w) /\ missing_pivot h x).
Proof.
  unfold _hand_norm_dy, item. unfold bind at 1.
  destruct (landmarks h !! "wrist") eqn:Hwr; cbn.
  2:{ right. exists (KeyError "wrist").
      split; [done | by apply missing_wrist]. }
  unfold bind at 1.
  destruct (landmarks h !! "middle_mcp") eqn:Hmm; cbn.
  2:{ right. exists (KeyError "middle_mcp").
      split; [done | by apply missing_middle_mcp]. }
  left. by eexists.
Qed.

Lemma raises_two_hand wall a b w :
  raises (fun x => missing_pivot a x \/ missing_pivot b x)
         (_eval_two_hand wall a b w).
Proof.
  unfold _eval_two_hand. cbn.
  destruct (_ && _); cbn; [raises_with pivot |].
  unfold bind at 1.
  match goal with |- context [_hand_norm_dy a ?w1] =>
    destruct (hand_norm_dy_cases a w1) as [[ndy_a ->] | (x & -> & Hx)] end.
  2:{ by left. }
  unfold bind at 1.
  match goal with |- context [_hand_norm_dy b ?w1] =>
    destruct (hand_norm_dy_cases b w1) as [[ndy_b ->] | (x & -> & Hx)] end.
  2:{ by right. }
  unfold newest, first.
  destruct ndy_a, ndy_b; cbn.
  all: destruct (decide _); [raises_with pivot |].
  all: unfold bind at 1; destruct (last _) eqn:Hhi; cbn;
    [| raises_with pivot].
  all: unfold bind at 1; destruct (head _) eqn:Hlo; cbn;
    [| raises_with pivot].
  all: destruct (decide _); cbn;
    [ destruct (decide _); cbn; raises_with pivot
    | eapply raises_from; [| apply raises_pitch]; done ].
Qed.

Lemma raises_single_hand wall h w :
  raises (missing_pivot h) (_eval_single_hand wall h w).
Proof.
  unfold _eval_single_hand, newest, first. cbn.
  destruct (negb _); cbn; [raises_with pivot |].
  destruct (decide _); [raises_with pivot |].
  unfold bind at 1. destruct (last _) eqn:Hhi; cbn; [| raises_with pivot].
  unfold bind at 1. destruct (head _) eqn:Hlo; cbn; [| raises_with pivot].
  unfold bind at 1.
  match goal with |- context [_eval_swipe wall ?v ?w1] =>
    pose proof (raises_swipe wall v w1) as Hs;
    destruct (_eval_swipe wall v w1) as [[[e |] | e] w2] end.
  - done.
  - apply raises_bearing.
  - done.
Qed.

Lemma update_raise_cases wall hd w x w1 :
  update wall hd w = (Raise x, w1) ->
  x = IndexError /\ w1 = w /\ (length (hands hd) < hands_read hd)%nat \/
  exists i h, (i < hands_read hd)%nat /\ hands hd !! i = Some h /\
              missing_pivot h x.
Proof.
  unfold update, subscript, hands_read.
  destruct (negb _); cbn; [done |].
  destruct (decide _).
  - unfold bind at 1.
    destruct (hands hd !! 0%nat) as [a |] eqn:Ha; cbn.
    2:{ intros [= <- <-]. left. apply lookup_ge_None in Ha.
        repeat split; lia. }
    unfold bind at 1.
    destruct (hands hd !! 1%nat) as [b |] eqn:Hb; cbn.
    2:{ intros [= <- <-]. left. apply lookup_ge_None in Hb.
        repeat split; lia. }
    intros Hu. right. pose proof (raises_two_hand wall a b w) as Hr.
    unfold raises in Hr. rewrite Hu in Hr. cbn in Hr.
    destruct Hr as [Hx | Hx]; [exists 0%nat, a | exists 1%nat, b];
      repeat split; try done; lia.
  - destruct (decide _); [| done].
    unfold bind at 1.
    destruct (hands hd !! 0%nat) as [h |] eqn:Hh; cbn.
    2:{ intros [= <- <-]. left. apply lookup_ge_None in Hh.
        repeat split; lia. }
    intros Hu. right. pose proof (raises_single_hand wall h w) as Hr.
    unfold raises in Hr. rewrite Hu in Hr. cbn in Hr.
    exists 0%nat, h. repeat split; try done; lia.
Qed.

(** X8.  [update] raises nothing but an [IndexError] for a [hands] list
    shorter than [hand_count] makes it read, which it raises before writing
    anything, and a [KeyError] for the wrist or the middle finger base of a
    hand it reads.  The subscripts [buf[-1]] and [buf[0]] of the sliding
    buffers never raise. *)
Theorem update_raises_only wall hd w x w1 :
  update wall hd w = (Raise x, w1) ->
  x = IndexError /\ w1 = w /\ (length (hands hd) < hands_read hd)%nat \/
  exists i h key, x = KeyError key /\ key ∈ pivot_names /\
    (i < hands_read hd)%nat /\ hands hd !! i = Some h /\
    landmarks h !! key = None.
Proof.
  intros Hu. apply update_raise_cases in Hu as [Hx | (i & h & Hi & Hh & Hx)].
  - by left.
  - right. destruct x as [| key]; [done |]. destruct Hx as [Hk Hnone].
    by exists i, h, key.
Qed.

Lemma update_short_hands_eq wall hd w :
  (length (hands hd) < hands_read hd)%nat ->
  update wall hd w = (Raise IndexError, w).
Proof.
  unfold update, subscript, hands_read.
  destruct (negb _); cbn; [lia |].
  destruct (decide _).
  - intros Hlen. unfold bind at 1.
    destruct (hands hd !! 0%nat) as [a |] eqn:Ha; cbn; [| done].
    unfold bind at 1.
    destruct (hands hd !! 1%nat) as [b |] eqn:Hb; cbn; [| done].
    apply lookup_lt_Some in Hb. lia.
  - destruct (decide _); [| lia].
    intros Hlen. unfold bind at 1.
    destruct (hands hd !! 0%nat) as [a |] eqn:Ha; cbn; [| done].
    apply lookup_lt_Some in Ha. lia.
Qed.

Lemma update_raises_only_witness :
  IndexError = IndexError /\ init_world = init_world /\
  (length (hands {| detected := true; hand_count := 2; hands := [] |})
   < hands_read {| detected := true; hand_count := 2; hands := [] |})%nat \/
  exists i h key, IndexError = KeyError key /\ key ∈ pivot_names /\
    (i < hands_read {| detected := true; hand_count := 2; hands := [] |})%nat
    /\ hands {| detected := true; hand_count := 2; hands := [] |} !! i
       = Some h /\
    landmarks h !! key = None.
Proof.
  apply (update_raises_only steady_clock
           {| detected := true; hand_count := 2; hands := [] |} init_world).
  reflexivity.
Defined.

Lemma update_returns wall hd w :
  well_formed hd -> exists ev w1, update wall hd w = (Return ev, w1).
Proof.
  intros Hwf. destruct (update wall hd w) as [[ev | x] w1] eqn:Hu;
    [by exists ev, w1 |].
  exfalso.
  apply update_raise_cases in Hu as [(_ & _ & Hlen) | (i & h & Hi & Hh & Hx)].
  - destruct (hands_read hd) as [| n] eqn:Hn; [lia |].
    destruct (Hwf n) as (h & Hh & _); [lia |].
    apply lookup_lt_Some in Hh. lia.
  - destruct (Hwf i Hi) as (h' & Hh' & [Hwr] & [Hmm]).
    assert (h' = h) as -> by congruence.
    destruct x as [| key]; [done |]. destruct Hx as [Hk Hnone].
    unfold pivot_names in Hk.
    rewrite !elem_of_cons, elem_of_nil in Hk.
    destruct Hk as [-> | [-> | []]]; congruence.
Qed.

(** X9.  On a frame whose [hands] list has the entries its [hand_count]
    makes [update] read, each with a wrist and a middle finger base,
    [update] returns: it raises no exception, whatever the object. *)
Theorem update_total wall hd w :
  well_formed hd -> exists ev w1, update wall hd w = (Return ev, w1).
Proof. apply update_returns. Qed.

Lemma well_formed_one_hand x y dx dy :
  well_formed (one_hand (hand_at x y dx dy)).
Proof.
  intros i Hi. unfold hands_read in Hi. cbn in Hi.
  rewrite decide_False, decide_True in Hi by lia.
  destruct i as [| i]; [| lia].
  eexists. split; [done |].
  split; [by rewrite hand_at_wrist | by rewrite hand_at_middle_mcp].
Qed.

Lemma update_total_witness :
  exists ev w1,
    update pan_clock (one_hand (hand_at 0.55 0.5 0.1 0)) pan_world_3
    = (Return ev, w1).
Proof.
  apply (update_total pan_clock (one_hand (hand_at 0.55 0.5 0.1 0))
           pan_world_3).
  apply well_formed_one_hand.
Defined.

(** X10.  With a truthy [detected] flag and a [hands] list shorter than
    [hand_count] makes [update] read (two entries for a count of 2 or more,
    one for a count of 1), [update] raises [IndexError] and leaves the
    object as it was. *)
Theorem update_short_hands wall hd w :
  detected hd = true ->
  ((hand_count hd >= 2)%Z /\ (length (hands hd) < 2)%nat \/
   hand_count hd = 1%Z /\ hands hd = []) ->
  update wall hd w = (Raise IndexError, w).
Proof.
  intros Hd Hn. apply update_short_hands_eq. unfold hands_read.
  rewrite Hd. cbn. destruct Hn as [[Hn Hlen] | [Hn Hlen]].
  - by rewrite decide_True.
  - rewrite decide_False by lia. rewrite decide_True by done.
    rewrite Hlen. cbn. lia.
Qed.

Lemma update_short_hands_witness :
  update steady_clock
    {| detected := true; hand_count := 2;
       hands := [hand_at 0.5 0.5 0 (-0.1)] |} pan_world_3
  = (Raise IndexError, pan_world_3).
Proof.
  apply update_short_hands; [reflexivity |].
  left. split; cbn; lia.
Defined.

(** X11.  An exception does not undo what the call had written.  When the
    first hand of a two-hand frame lacks its wrist and a palm is inside the
    zone, [update] raises [KeyError] after it has emptied the single-hand
    buffers, zeroed the swipe counters and appended the distance. *)
Theorem key_error_keeps_writes wall hd a b rest w :
  detected hd = true -> (hand_count hd >= 2)%Z -> hands hd = a :: b :: rest ->
  _in_activation_zone (palm_center a) = true \/
  _in_activation_zone (palm_center b) = true ->
  landmarks a !! "wrist" = None ->
  update wall hd w =
    (Raise (KeyError "wrist"),
     {| self := two_hand_accumulate a b None None (self w);
        ticks := ticks w |}).
Proof.
  intros Hd Hn Hh Hz Hwr.
  rewrite (update_two_hands wall hd a b rest) by done.
  unfold _eval_two_hand. cbn.
  replace (negb _ && negb _) with false
    by (destruct Hz as [-> | ->]; cbn; [done | by rewrite andb_false_r]).
  cbn. unfold bind at 1. unfold _hand_norm_dy, item. unfold bind at 1.
  rewrite Hwr. reflexivity.
Qed.

Lemma key_error_keeps_writes_witness :
  update steady_clock (two_hands (bare_hand 0.4 0.5) (bare_hand 0.6 0.5))
    pan_world_3 =
    (Raise (KeyError "wrist"),
     {| self := two_hand_accumulate (bare_hand 0.4 0.5) (bare_hand 0.6 0.5)
                  None None (self pan_world_3);
        ticks := ticks pan_world_3 |}).
Proof.
  apply (key_error_keeps_writes steady_clock
           (two_hands (bare_hand 0.4 0.5) (bare_hand 0.6 0.5))
           (bare_hand 0.4 0.5) (bare_hand 0.6 0.5) []).
  - reflexivity.
  - cbn. lia.
  - reflexivity.
  - left. apply in_activation_zone_iff. lra.
  - reflexivity.
Defined.

(** X12.  The landmarks of a single hand are read by the bearing evaluation
    only.  A hand without a wrist landmark, inside the zone, is accepted
    while it is the first sample of the palm buffer; on a later frame, with
    no swipe about to be confirmed, [update] raises [KeyError]. *)
Theorem missing_landmark_surfaces_late wall h s t :
  _in_activation_zone (palm_center h) = true ->
  landmarks h !! "wrist" = None ->
  (_palm_buf s = [] ->
   update wall (one_hand h) {| self := s; ticks := t |} =
     (Return None,
      {| self := set_palm_buf [palm_center h]
                   (set_tilt_buf [] (set_dist_buf [] s));
         ticks := t |})) /\
  (_palm_buf s <> [] ->
   (_swipe_frames_left s + 1 < config.SWIPE_MIN_FRAMES)%Z ->
   (_swipe_frames_right s + 1 < config.SWIPE_MIN_FRAMES)%Z ->
   fst (update wall (one_hand h) {| self := s; ticks := t |})
   = Raise (KeyError "wrist")).
Proof.
  intros Hz Hwr. rewrite (update_single_hand wall _ h []) by done. split.
  - intros Hnil. by apply single_hand_first_sample.
  - intros Hbuf Hl Hr.
    set (buf := deque_append config.SMOOTHING_WINDOW (_palm_buf s)
                  (palm_center h)).
    assert (Hlen : (2 <= length buf)%nat).
    { unfold buf, config.SMOOTHING_WINDOW.
      rewrite (deque_append_length_eq 4).
      destruct (_palm_buf s); [done |].
      destruct (decide _); cbn [length] in *; lia. }
    destruct (last buf) as [hi |] eqn:Hhi.
    2:{ apply last_None in Hhi. rewrite Hhi in Hlen. cbn in Hlen. lia. }
    destruct (head buf) as [lo |] eqn:Hlo.
    2:{ apply head_None in Hlo. rewrite Hlo in Hlen. cbn in Hlen. lia. }
    rewrite (eval_single_hand_eq wall h s t hi lo) by done.
    rewrite eval_swipe_eq. cbn [_swipe_frames_left _swipe_frames_right
      set_palm_buf set_tilt_buf set_dist_buf].
    assert (Hb : forall w, fst (_eval_bearing wall h w)
                           = Raise (KeyError "wrist")).
    { intros w. unfold _eval_bearing, item. unfold bind at 1.
      by rewrite Hwr. }
    repeat destruct (decide _); try lia; cbv zeta; apply Hb.
Qed.

Lemma missing_landmark_surfaces_late_witness :
  update steady_clock (one_hand (bare_hand 0.5 0.5)) init_world =
    (Return None,
     {| self := set_palm_buf [(0.5, 0.5)]
                  (set_tilt_buf [] (set_dist_buf [] __init__));
        ticks := 0 |}) /\
  fst (update steady_clock (one_hand (bare_hand 0.5 0.5))
         {| self := set_palm_buf [(0.5, 0.5)] __init__; ticks := 0 |})
  = Raise (KeyError "wrist").
Proof.
  assert (Hz : _in_activation_zone (palm_center (bare_hand 0.5 0.5)) = true)
    by (apply in_activation_zone_iff; lra).
  split.
  - by apply (missing_landmark_surfaces_late steady_clock
                (bare_hand 0.5 0.5) __init__ 0 Hz).
  - apply (missing_landmark_surfaces_late steady_clock (bare_hand 0.5 0.5)
             (set_palm_buf [(0.5, 0.5)] __init__) 0 Hz); [done | done | |];
      cbn; unfold config.SWIPE_MIN_FRAMES; lia.
Defined.

(** ** Two hands: the distance, and the order of the hands *)

Lemma hypot_nonneg x y : 0 <= math.hypot x y.
Proof. apply sqrt_pos. Qed.

Lemma hypot_swap x1 x2 y1 y2 :
  math.hypot (x1 - x2) (y1 - y2) = math.hypot (x2 - x1) (y2 - y1).
Proof. unfold math.hypot. f_equal. lra. Qed.

Lemma hypot_zero x y : math.hypot x y = 0 -> x = 0 /\ y = 0.
Proof.
  unfold math.hypot. intros H0.
  apply sqrt_eq_0 in H0; [| nra]. split; nra.
Qed.

Ltac newest_solve :=
  unfold ret, raise, modify in *;
  cbn [self snd fst] in *;
  cbn [_state _dist_buf _palm_buf _tilt_buf _angle_buf _swipe_frames_left
       _swipe_frames_right _coast_dir _coast_frames _cooldowns
       set_state set_dist_buf set_palm_buf set_tilt_buf set_angle_buf
       set_swipe_frames_left set_swipe_frames_right set_coast_dir
       set_coast_frames set_cooldowns] in *;
  intros;
  first [assumption | apply deque_append_last].

Lemma newest_kept_pitch wall w d :
  kept (fun s => last (_dist_buf s) = Some d)
       (fun s => last (_dist_buf s) = Some d) w (_eval_two_hand_pitch wall w).
Proof.
  unfold _eval_two_hand_pitch, newest, first. cbn.
  destruct (decide _); [kept_by newest_solve |].
  unfold bind at 1. destruct (last _); cbn; [| kept_by newest_solve].
  unfold bind at 1. destruct (head _); cbn; [| kept_by newest_solve].
  destruct (decide _); [kept_by newest_solve |].
  destruct (decide _); cbn; kept_by newest_solve.
Qed.

Lemma newest_kept_two_hand wall a b w :
  _in_activation_zone (palm_center a) = true \/
  _in_activation_zone (palm_center b) = true ->
  kept (fun _ => True)
       (fun s => last (_dist_buf s)
                 = Some (_dist2d (palm_center a) (palm_center b)))
       w (_eval_two_hand wall a b w).
Proof.
  intros Hzone. unfold _eval_two_hand, _dist2d. cbn.
  replace (negb (_in_activation_zone (palm_center a))
           && negb (_in_activation_zone (palm_center b))) with false
    by (destruct Hzone as [-> | ->]; [done | by rewrite andb_false_r]).
  cbn. unfold bind at 1.
  match goal with |- context [_hand_norm_dy a ?w1] =>
    destruct (hand_norm_dy_world a w1) as [oa ->] end.
  destruct oa as [ndy_a |]; [| kept_by newest_solve].
  unfold bind at 1.
  match goal with |- context [_hand_norm_dy b ?w1] =>
    destruct (hand_norm_dy_world b w1) as [ob ->] end.
  destruct ob as [ndy_b |]; [| kept_by newest_solve].
  unfold newest, first.
  destruct ndy_a, ndy_b; cbn.
  all: destruct (decide _); [kept_by newest_solve |].
  all: unfold bind at 1; destruct (last _); cbn; [| kept_by newest_solve].
  all: unfold bind at 1; destruct (head _); cbn; [| kept_by newest_solve].
  all: destruct (decide _); cbn;
    [ destruct (decide _); cbn; kept_by newest_solve
    | eapply kept_from; [| apply newest_kept_pitch]; newest_solve ].
Qed.

Lemma dist2d_zero p q : _dist2d p q = 0 <-> p = q.
Proof.
  destruct p as [px py], q as [qx qy]. unfold _dist2d. cbn. split.
  - intros H0. apply hypot_zero in H0 as [Hx Hy]. f_equal; lra.
  - intros [= -> ->]. unfold math.hypot.
    replace (_ + _) with 0 by lra. apply sqrt_0.
Qed.

(** X13.  The sample a two-hand call appends to the distance buffer, when
    a palm is inside the zone, is [_dist2d] of the two palm centres, whether
    the call returns or raises.  It is the same in either order of the
    hands, never negative, and 0 only when the palm centres coincide. *)
Theorem dist2d_sample wall hd a b rest w :
  detected hd = true -> (hand_count hd >= 2)%Z ->
  hands hd = a :: b :: rest ->
  _in_activation_zone (palm_center a) = true \/
  _in_activation_zone (palm_center b) = true ->
  let d := _dist2d (palm_center a) (palm_center b) in
  last (_dist_buf (self (snd (update wall hd w)))) = Some d /\
  d = _dist2d (palm_center b) (palm_center a) /\
  0 <= d /\
  (d = 0 <-> palm_center a = palm_center b).
Proof.
  intros Hd Hn Hh Hzone d. split; [| split; [| split]].
  - rewrite (update_two_hands wall hd a b rest) by done.
    by apply newest_kept_two_hand.
  - apply hypot_swap.
  - apply hypot_nonneg.
  - apply dist2d_zero.
Qed.

Lemma dist2d_sample_witness :
  let a := hand_at 0.35 0.5 0 (-0.1) in
  let b := hand_at 0.65 0.5 0 (-0.1) in
  let d := _dist2d (palm_center a) (palm_center b) in
  last (_dist_buf (self (snd (update steady_clock (two_hands a b)
                                init_world)))) = Some d /\
  d = _dist2d (palm_center b) (palm_center a) /\
  0 <= d /\
  (d = 0 <-> palm_center a = palm_center b).
Proof.
  apply (dist2d_sample steady_clock
           (two_hands (hand_at 0.35 0.5 0 (-0.1))
                      (hand_at 0.65 0.5 0 (-0.1)))
           (hand_at 0.35 0.5 0 (-0.1)) (hand_at 0.65 0.5 0 (-0.1)) []).
  - reflexivity.
  - cbn. lia.
  - reflexivity.
  - left. apply hand_at_in_zone; lra.
Defined.

Lemma bind_hand_norm_dy {B} h wr mm (k : option R -> M B) w :
  landmarks h !! "wrist" = Some wr ->
  landmarks h !! "middle_mcp" = Some mm ->
  bind (_hand_norm_dy h) k w = k (norm_dy wr mm) w.
Proof.
  intros Hwr Hmm. unfold bind at 1.
  by rewrite (hand_norm_dy_eq h wr mm).
Qed.

Lemma eval_two_hand_swap wall a b w :
  has_pivot a -> has_pivot b ->
  _eval_two_hand wall a b w = _eval_two_hand wall b a w.
Proof.
  intros [[wr_a Hwa] [mm_a Hma]] [[wr_b Hwb] [mm_b Hmb]].
  unfold _eval_two_hand. cbn.
  rewrite (andb_comm (negb (_in_activation_zone (palm_center a)))).
  destruct (_ && _); [reflexivity |]. cbn.
  rewrite (hypot_swap (fst (palm_center b))).
  rewrite !(bind_hand_norm_dy a wr_a mm_a) by done.
  rewrite !(bind_hand_norm_dy b wr_b mm_b) by done.
  rewrite !(bind_hand_norm_dy a wr_a mm_a) by done.
  destruct (norm_dy wr_a mm_a) as [x |], (norm_dy wr_b mm_b) as [y |];
    try reflexivity.
  by rewrite (Rplus_comm y x).
Qed.

(** X14.  The result of a two-hand frame does not depend on which of the
    two hands is listed first, provided both have their wrist and middle
    finger base: the same event is returned and the same object left. *)
Theorem two_hand_order_irrelevant wall a b rest rest' n n' w :
  has_pivot a -> has_pivot b -> (n >= 2)%Z -> (n' >= 2)%Z ->
  update wall {| detected := true; hand_count := n;
                 hands := a :: b :: rest |} w =
  update wall {| detected := true; hand_count := n';
                 hands := b :: a :: rest' |} w.
Proof.
  intros Ha Hb Hn Hn'.
  rewrite (update_two_hands wall _ a b rest) by done.
  rewrite (update_two_hands wall _ b a rest') by done.
  by apply eval_two_hand_swap.
Qed.

Lemma has_pivot_hand_at x y dx dy : has_pivot (hand_at x y dx dy).
Proof.
  split; [by rewrite hand_at_wrist | by rewrite hand_at_middle_mcp].
Qed.

Lemma two_hand_order_irrelevant_witness :
  update steady_clock
    (two_hands (hand_at 0.35 0.5 0 (-0.1)) (hand_at 0.65 0.5 0 (-0.1)))
    init_world =
  update steady_clock
    (two_hands (hand_at 0.65 0.5 0 (-0.1)) (hand_at 0.35 0.5 0 (-0.1)))
    init_world.
Proof.
  apply (two_hand_order_irrelevant steady_clock
           (hand_at 0.35 0.5 0 (-0.1)) (hand_at 0.65 0.5 0 (-0.1)) [] [] 2 2).
  - apply has_pivot_hand_at.
  - apply has_pivot_hand_at.
  - lia.
  - lia.
Defined.

(** ** Bearing: what the unwrapped sum is *)

Lemma atan2_principal y x : principal (math.atan2 y x).
Proof.
  unfold principal, math.atan2. pose proof PI_RGT_0 as Hpi.
  destruct (decide (0 < x)) as [Hx | Hx].
  { pose proof (atan_bound (y / x)). lra. }
  destruct (decide (x < 0)) as [Hx' | Hx'].
  - destruct (decide (0 <= y)) as [Hy | Hy].
    + assert (Hq : y / x <= 0).
      { pose proof (Rinv_lt_0_compat x Hx'). unfold Rdiv. nra. }
      pose proof (atan_bound (y / x)) as Hb.
      assert (atan (y / x) <= 0).
      { destruct Hq as [Hq | Hq].
        - left. rewrite <- atan_0. by apply atan_increasing.
        - rewrite Hq, atan_0. lra. }
      lra.
    + assert (Hq : 0 < y / x).
      { pose proof (Rinv_lt_0_compat x Hx'). unfold Rdiv. nra. }
      pose proof (atan_bound (y / x)) as Hb.
      assert (0 < atan (y / x)).
      { rewrite <- atan_0. by apply atan_increasing. }
      lra.
  - repeat destruct (decide _); lra.
Qed.



Lemma unwrap_principal a b :
  principal a -> principal b -> Rabs (unwrap (b - a)) <= PI.
Proof.
  unfold principal, unwrap. intros Ha Hb.
  repeat destruct (decide _); unfold Rabs; destruct (Rcase_abs _); lra.
Qed.


Lemma net_rotation_cons a b rest :
  net_rotation (a :: b :: rest) = unwrap (b - a) + net_rotation (b :: rest).
Proof. reflexivity. Qed.




Lemma net_rotation_bound buf :
  Forall principal buf ->
  Rabs (net_rotation buf) <= INR (length buf - 1) * PI.
Proof.
  pose proof PI_RGT_0 as Hpi.
  induction buf as [| x [| y rest] IH]; intros Hall.
  - cbn. rewrite Rabs_R0. lra.
  - cbn. rewrite Rabs_R0. lra.
  - rewrite net_rotation_cons. inversion Hall as [| ? ? Hx Hrest]; subst.
    inversion Hrest as [| ? ? Hy _]; subst.
    specialize (IH Hrest).
    pose proof (unwrap_principal x y Hx Hy) as Hu.
    pose proof (Rabs_triang (unwrap (y - x)) (net_rotation (y :: rest))).
    replace (length (x :: y :: rest) - 1)%nat
      with (S (length (y :: rest) - 1)) by (cbn; lia).
    rewrite S_INR. lra.
Qed.


Lemma Forall_deque_append {A} (P : A -> Prop) n buf x :
  Forall P buf -> P x -> Forall P (deque_append n buf x).
Proof.
  intros Hbuf Hx. apply Forall_forall. intros y Hy.
  apply deque_append_elem in Hy as [Hy | ->]; [| done].
  by apply (proj1 (Forall_forall P buf) Hbuf).
Qed.

Ltac angles_solve :=
  unfold ret, raise, modify in *;
  unfold angles_principal in *;
  cbn [self snd fst] in *;
  cbn [_state _dist_buf _palm_buf _tilt_buf _angle_buf _swipe_frames_left
       _swipe_frames_right _coast_dir _coast_frames _cooldowns
       set_state set_dist_buf set_palm_buf set_tilt_buf set_angle_buf
       set_swipe_frames_left set_swipe_frames_right set_coast_dir
       set_coast_frames set_cooldowns] in *;
  intros;
  first [ assumption
        | apply Forall_nil; exact I
        | apply Forall_deque_append; [assumption | apply atan2_principal] ].

Lemma angles_kept_swipe wall v w :
  kept angles_principal angles_principal w (_eval_swipe wall v w).
Proof.
  unfold _eval_swipe. unfold bind at 1.
  destruct (decide (v < - config.SWIPE_VELOCITY_THRESHOLD)); cbn.
  { repeat (destruct (decide _)); kept_by angles_solve. }
  destruct (decide (v > config.SWIPE_VELOCITY_THRESHOLD)); cbn.
  { repeat (destruct (decide _)); kept_by angles_solve. }
  kept_by angles_solve.
Qed.

Lemma angles_kept_bearing wall h w :
  kept angles_principal angles_principal w (_eval_bearing wall h w).
Proof.
  unfold _eval_bearing, item. unfold bind at 1.
  destruct (landmarks h !! "wrist") as [wr |]; cbn; [| kept_by angles_solve].
  unfold bind at 1.
  destruct (landmarks h !! "middle_mcp") as [mm |]; cbn;
    [| kept_by angles_solve].
  destruct (decide _); [kept_by angles_solve |]. cbn.
  destruct (decide _); [kept_by angles_solve |].
  destruct (decide _); [kept_by angles_solve |].
  destruct (decide _); cbn; kept_by angles_solve.
Qed.

Lemma angles_kept_pitch wall w :
  kept angles_principal angles_principal w (_eval_two_hand_pitch wall w).
Proof.
  unfold _eval_two_hand_pitch, newest, first. cbn.
  destruct (decide _); [kept_by angles_solve |].
  unfold bind at 1. destruct (last _); cbn; [| kept_by angles_solve].
  unfold bind at 1. destruct (head _); cbn; [| kept_by angles_solve].
  destruct (decide _); [kept_by angles_solve |].
  destruct (decide _); cbn; kept_by angles_solve.
Qed.

Lemma angles_kept_two_hand wall a b w :
  kept (fun _ => True) angles_principal w (_eval_two_hand wall a b w).
Proof.
  unfold _eval_two_hand. cbn.
  destruct (_ && _); cbn; [kept_by angles_solve |].
  unfold bind at 1.
  match goal with |- context [_hand_norm_dy a ?w1] =>
    destruct (hand_norm_dy_world a w1) as [oa ->] end.
  destruct oa as [ndy_a |]; [| kept_by angles_solve].
  unfold bind at 1.
  match goal with |- context [_hand_norm_dy b ?w1] =>
    destruct (hand_norm_dy_world b w1) as [ob ->] end.
  destruct ob as [ndy_b |]; [| kept_by angles_solve].
  unfold newest, first.
  destruct ndy_a, ndy_b; cbn.
  all: destruct (decide _); [kept_by angles_solve |].
  all: unfold bind at 1; destruct (last _); cbn; [| kept_by angles_solve].
  all: unfold bind at 1; destruct (head _); cbn; [| kept_by angles_solve].
  all: destruct (decide _); cbn;
    [ destruct (decide _); cbn; kept_by angles_solve
    | eapply kept_from; [| apply angles_kept_pitch]; angles_solve ].
Qed.

Lemma angles_kept_single_hand wall h w :
  kept angles_principal angles_principal w (_eval_single_hand wall h w).
Proof.
  unfold _eval_single_hand, newest, first. cbn.
  destruct (negb _); cbn; [kept_by angles_solve |].
  destruct (decide _); [kept_by angles_solve |].
  unfold bind at 1. destruct (last _); cbn; [| kept_by angles_solve].
  unfold bind at 1. destruct (head _); cbn; [| kept_by angles_solve].
  unfold bind at 1.
  match goal with |- context [_eval_swipe wall ?v ?w1] =>
    pose proof (angles_kept_swipe wall v w1) as Hs;
    destruct (_eval_swipe wall v w1) as [[[e |] | e] w2] end.
  - cbn. intros _. angles_solve.
  - eapply kept_from; [| apply angles_kept_bearing].
    intros Hp. apply Hs. revert Hp. angles_solve.
  - intros Hp. apply Hs. revert Hp. angles_solve.
Qed.

Lemma angles_kept_update wall hd w :
  kept angles_principal angles_principal w (update wall hd w).
Proof.
  unfold update, subscript.
  destruct (negb _); cbn; [kept_by angles_solve |].
  destruct (decide _).
  - unfold bind at 1. destruct (hands hd !! 0%nat); cbn;
      [| kept_by angles_solve].
    unfold bind at 1. destruct (hands hd !! 1%nat); cbn;
      [| kept_by angles_solve].
    intros _. by apply angles_kept_two_hand.
  - destruct (decide _); [| cbn; kept_by angles_solve].
    unfold bind at 1. destruct (hands hd !! 0%nat); cbn;
      [| kept_by angles_solve].
    apply angles_kept_single_hand.
Qed.

Lemma run_angles_principal wall frames w :
  angles_principal (self w) ->
  Forall (fun step => angles_principal (self (snd step))) (run wall frames w).
Proof.
  revert w. induction frames as [| hd rest IH]; intros w Hok; [constructor |].
  rewrite run_cons.
  pose proof (angles_kept_update wall hd w Hok) as Hstep.
  destruct (update wall hd w) as [[ev |] w1]; [| constructor].
  constructor; [exact Hstep | by apply IH].
Qed.




(** X17.  Every sample of the angle buffer is a principal angle, in
    (-pi, pi], after any call of a run from a fresh recogniser; each
    unwrapped step is therefore at most half a turn, and the rotation that
    bearing detection compares with its threshold at most four half turns. *)
Theorem bearing_total_bounded wall frames ev w1 :
  (ev, w1) ∈ run wall frames init_world ->
  Forall principal (_angle_buf (self w1)) /\
  Rabs (total_delta_loop (_angle_buf (self w1))) <= 4 * PI.
Proof.
  intros Hin.
  pose proof (run_angles_principal wall frames init_world) as Ha.
  pose proof (run_object_ok wall frames init_world object_ok_init) as Ho.
  rewrite Forall_forall in Ha, Ho.
  assert (H0 : angles_principal (self init_world)) by (by apply Forall_nil).
  specialize (Ha H0 _ Hin). specialize (Ho _ Hin).
  destruct Ho as (((_ & _ & _ & Hlen) & _) & _). cbn [snd] in *.
  split; [exact Ha |].
  rewrite total_delta_loop_net_rotation.
  pose proof (net_rotation_bound _ Ha) as Hb.
  pose proof PI_RGT_0 as Hpi.
  unfold config.SMOOTHING_WINDOW in Hlen.
  assert (INR (length (_angle_buf (self w1)) - 1) <= 4).
  { replace 4 with (INR 4) by (cbn; lra). apply le_INR. lia. }
  nra.
Qed.

Lemma bearing_total_bounded_witness :
  Forall principal (_angle_buf (self pan_world_6)) /\
  Rabs (total_delta_loop (_angle_buf (self pan_world_6))) <= 4 * PI.
Proof.
  apply (bearing_total_bounded pan_clock pan_frames
           (Some (IntensityEvent "bearing_cw" 1)) pan_world_6).
  rewrite pan_run. do 5 apply list_elem_of_further. apply list_elem_of_here.
Defined.


(** ** The cooldown table over time *)

Lemma table_stamped_step wall hd w :
  table_stamped wall (ticks w) (self w) ->
  table_stamped wall (ticks (snd (update wall hd w)))
    (self (snd (update wall hd w))).
Proof.
  intros Hw. destruct (gated_step_update wall hd w) as [Ht Hstep].
  assert (Hkeep : _cooldowns (self (snd (update wall hd w)))
                  = _cooldowns (self w) ->
                  table_stamped wall (ticks (snd (update wall hd w)))
                    (self (snd (update wall hd w)))).
  { intros Hc g t Hg. rewrite Hc in Hg.
    destruct (Hw g t Hg) as (Hk & k & Hlt & ->).
    split; [done |]. exists k. split; [lia | done]. }
  destruct (fst (update wall hd w)) as [[e |] | e]; [| by auto | by auto].
  destruct Hstep as (Hkind & tc & tr & _ & _ & Htr & _ & Hc).
  intros g t Hg. rewrite Hc in Hg.
  destruct (decide (event_gesture e = g)) as [<- | Hne].
  - rewrite lookup_insert_eq in Hg. injection Hg as <-.
    split; [done |]. by exists tr.
  - rewrite lookup_insert_ne in Hg by done.
    destruct (Hw g t Hg) as (Hk & k & Hlt & ->).
    split; [done |]. exists k. split; [lia | done].
Qed.

Lemma run_table_stamped wall frames w :
  table_stamped wall (ticks w) (self w) ->
  Forall (fun step => table_stamped wall (ticks (snd step)) (self (snd step)))
         (run wall frames w).
Proof.
  revert w. induction frames as [| hd rest IH]; intros w Hw; [constructor |].
  rewrite run_cons.
  pose proof (table_stamped_step wall hd w Hw) as Hstep.
  destruct (update wall hd w) as [[ev |] w1]; [| constructor].
  constructor; [exact Hstep | by apply IH].
Qed.

(** X19.  The cooldown table of a recogniser that started fresh holds
    entries for gesture kinds only, at most eight, and every timestamp in
    it is a reading of the clock made by one of the calls so far. *)
Theorem cooldown_table_entries wall frames ev w1 g t :
  (ev, w1) ∈ run wall frames init_world ->
  _cooldowns (self w1) !! g = Some t ->
  g ∈ gesture_kinds /\ exists k, (k < ticks w1)%nat /\ t = wall k.
Proof.
  intros Hin Hg.
  pose proof (run_table_stamped wall frames init_world) as Hall.
  rewrite Forall_forall in Hall.
  apply (Hall ltac:(by intros ? ? ?) _ Hin g t Hg).
Qed.

Lemma cooldown_table_entries_witness :
  "bearing_cw" ∈ gesture_kinds /\
  exists k, (k < ticks pan_world_6)%nat /\ 1000.05 = pan_clock k.
Proof.
  apply (cooldown_table_entries pan_clock pan_frames
           (Some (IntensityEvent "bearing_cw" 1)) pan_world_6).
  - rewrite pan_run. do 5 apply list_elem_of_further. apply list_elem_of_here.
  - reflexivity.
Defined.

Lemma emission_stamp wall hd w e w1 :
  update wall hd w = (Return (Some e), w1) ->
  exists tr, (ticks w <= tr < ticks w1)%nat /\
    last_emit (self w1) (event_gesture e) = wall tr.
Proof.
  intros Hup. destruct (gated_step_update wall hd w) as [_ Hstep].
  rewrite Hup in Hstep. cbn in Hstep.
  destruct Hstep as (_ & tc & tr & Htc & Hle & Htr & _ & Hc).
  exists tr. split; [lia |].
  unfold last_emit. by rewrite Hc, lookup_insert_eq.
Qed.

Lemma emissions_stamped wall frames w g t :
  (g, t) ∈ emissions (run wall frames w) ->
  exists tr, (ticks w <= tr)%nat /\ t = wall tr.
Proof.
  revert w. induction frames as [| hd rest IH]; intros w Hin.
  { by apply elem_of_nil in Hin. }
  rewrite run_cons in Hin.
  destruct (gated_step_update wall hd w) as [Ht _].
  pose proof (emission_stamp wall hd w) as Hem.
  destruct (update wall hd w) as [[ev |] w1]; [| by apply elem_of_nil in Hin].
  cbn in Ht.
  unfold emissions in Hin. cbn [omap list_omap] in Hin.
  assert (Htail : (g, t) ∈ emissions (run wall rest w1) ->
                  exists tr, (ticks w <= tr)%nat /\ t = wall tr).
  { intros H. apply IH in H as (tr & Htr & ->). exists tr. split; [lia | done]. }
  destruct ev as [e |]; cbn in Hin; [| by apply Htail].
  apply elem_of_cons in Hin as [Heq | Hin]; [| by apply Htail].
  injection Heq as -> ->.
  destruct (Hem e w1 eq_refl) as (tr & Htr & Hl).
  exists tr. split; [lia | done].
Qed.

Lemma in_time_order_cons g t log :
  (forall g' t', (g', t') ∈ log -> t <= t') ->
  in_time_order log -> in_time_order ((g, t) :: log).
Proof.
  intros Hhead Htail i j gi gj ti tj Hij Hi Hj.
  destruct j as [| j]; [lia |]. cbn in Hj.
  destruct i as [| i]; cbn in Hi.
  - injection Hi as <- <-. apply (Hhead gj).
    apply list_elem_of_lookup. by exists j.
  - apply (Htail i j gi gj ti tj); [lia | done | done].
Qed.

Lemma run_in_time_order wall frames w :
  monotone wall -> in_time_order (emissions (run wall frames w)).
Proof.
  intros Hmono. revert w. induction frames as [| hd rest IH]; intros w.
  { intros i j gi gj ti tj _ Hi. by destruct i. }
  rewrite run_cons.
  pose proof (emission_stamp wall hd w) as Hem.
  destruct (update wall hd w) as [[ev |] w1] eqn:Hup.
  2:{ intros i j gi gj ti tj _ Hi. by destruct i. }
  unfold emissions. cbn [omap list_omap].
  destruct ev as [e |]; cbn; [| apply IH].
  apply in_time_order_cons; [| apply IH].
  intros g' t' Hin. apply emissions_stamped in Hin as (tr' & Htr' & ->).
  destruct (Hem e w1 eq_refl) as (tr & Htr & Hl).
  unfold emission. cbn. rewrite Hl. apply Hmono. lia.
Qed.

(** X20.  With a clock that does not run backwards, the events of a run
    carry timestamps that never decrease, whatever their kinds: an event is
    stamped with a reading made during its own call. *)
Theorem emissions_in_time_order wall frames w i j gi gj ti tj :
  monotone wall ->
  (i < j)%nat ->
  emissions (run wall frames w) !! i = Some (gi, ti) ->
  emissions (run wall frames w) !! j = Some (gj, tj) ->
  ti <= tj.
Proof.
  intros Hmono Hij Hi Hj.
  by apply (run_in_time_order wall frames w Hmono i j gi gj ti tj).
Qed.

Lemma emissions_in_time_order_witness : 1000 <= 1000.05.
Proof.
  apply (emissions_in_time_order pan_clock
           (pan_frames ++ [pan_frame_after_cooldown]) init_world
           0 1 "pan_left" "bearing_cw" 1000 1000.05 pan_clock_monotone).
  - lia.
  - by rewrite pan_emissions.
  - by rewrite pan_emissions.
Defined.

(** * The detector *)

Lemma and_then_return {A B} (m : Outcome A) (k : A -> Outcome B) b :
  and_then m k = Return b -> exists a, m = Return a /\ k a = Return b.
Proof. destruct m as [a | e]; [by exists a | done]. Qed.

Lemma at_index_return {A} (l : list A) i v :
  at_index l i = Return v -> l !! i = Some v.
Proof. unfold at_index. by destruct (l !! i); intros [= ->]. Qed.

Lemma at_index_lt {A} (l : list A) i :
  (i < length l)%nat -> exists v, at_index l i = Return v /\ l !! i = Some v.
Proof.
  intros Hi. destruct (lookup_lt_is_Some_2 l i Hi) as [v Hv].
  exists v. unfold at_index. by rewrite Hv.
Qed.

Lemma at_index_ge {A} (l : list A) i :
  (length l <= i)%nat -> at_index l i = Raise IndexError.
Proof.
  intros Hi. unfold at_index. by rewrite (lookup_ge_None_2 l i Hi).
Qed.

(** The point that the detector stores for index [idx]. *)
Lemma xyz_return lm idx p :
  _xyz lm idx = Return p ->
  exists l, lm !! idx = Some l /\
            p = (mediapipe.x l, mediapipe.y l, mediapipe.z l).
Proof.
  unfold _xyz. intros Hp. apply and_then_return in Hp as (l & Hl & [= <-]).
  apply at_index_return in Hl. by exists l.
Qed.

Lemma landmarks_from_return lm items d d1 :
  landmarks_from lm items d = Return d1 ->
  Forall (fun item => (item.2 < length lm)%nat) items /\
  forall name,
    d1 !! name =
      match list_find (fun item => item.1 = name) (reverse items) with
      | Some (_, (_, idx)) =>
          (fun l => (mediapipe.x l, mediapipe.y l, mediapipe.z l))
            <$> lm !! idx
      | None => d !! name
      end.
Proof.
  revert d. induction items as [| [name0 idx0] rest IH]; intros d Hd.
  - injection Hd as <-. split; [constructor |]. intros name. done.
  - cbn [landmarks_from] in Hd.
    apply and_then_return in Hd as (p & Hp & Hd).
    apply xyz_return in Hp as (l & Hl & ->).
    apply IH in Hd as [Hlen Hd]. split.
    + constructor; [| done]. cbn. by apply lookup_lt_Some in Hl.
    + intros name. rewrite Hd. rewrite reverse_cons.
      destruct (list_find _ (reverse rest)) as [[i [n idx]] |] eqn:Hfind.
      * by rewrite (list_find_app_l _ _ _ _ _ Hfind).
      * rewrite list_find_app_r by done. cbn.
        destruct (decide (name0 = name)) as [-> | Hne]; cbn.
        -- by rewrite lookup_insert_eq, Hl.
        -- by rewrite lookup_insert_ne.
Qed.

Lemma landmarks_from_total lm items d :
  Forall (fun item => (item.2 < length lm)%nat) items ->
  exists d1, landmarks_from lm items d = Return d1.
Proof.
  revert d. induction items as [| [name idx] rest IH]; intros d Hall.
  - by exists d.
  - inversion Hall as [| ? ? Hidx Hrest]; subst. cbn in Hidx.
    destruct (at_index_lt lm idx Hidx) as (l & Hl & _).
    cbn [landmarks_from]. unfold _xyz. rewrite Hl. cbn. by apply IH.
Qed.

Lemma points_at_return lm indices ps :
  points_at lm indices = Return ps ->
  Forall2 (fun j p => lm !! j = Some p) indices ps.
Proof.
  revert ps. induction indices as [| j rest IH]; intros ps Hps.
  - injection Hps as <-. constructor.
  - cbn [points_at] in Hps.
    apply and_then_return in Hps as (p & Hp & Hps).
    apply and_then_return in Hps as (ps' & Hps' & [= <-]).
    apply at_index_return in Hp. constructor; [done | by apply IH].
Qed.

Lemma points_at_total lm indices :
  Forall (fun j => (j < length lm)%nat) indices ->
  exists ps, points_at lm indices = Return ps.
Proof.
  induction indices as [| j rest IH]; intros Hall.
  - by exists [].
  - inversion Hall as [| ? ? Hj Hrest]; subst.
    destruct (at_index_lt lm j Hj) as (p & Hp & _).
    destruct (IH Hrest) as [ps Hps].
    exists (p :: ps). cbn [points_at]. by rewrite Hp, Hps.
Qed.

Lemma LM_cases name idx :
  (name, idx) ∈ _LM <->
  (name, idx) = ("wrist", 0%nat) \/ (name, idx) = ("thumb_tip", 4%nat) \/
  (name, idx) = ("index_mcp", 5%nat) \/ (name, idx) = ("index_tip", 8%nat) \/
  (name, idx) = ("middle_mcp", 9%nat) \/
  (name, idx) = ("middle_tip", 12%nat) \/
  (name, idx) = ("ring_mcp", 13%nat) \/ (name, idx) = ("ring_tip", 16%nat) \/
  (name, idx) = ("pinky_mcp", 17%nat) \/ (name, idx) = ("pinky_tip", 20%nat).
Proof. unfold _LM. rewrite !elem_of_cons, elem_of_nil. tauto. Qed.

Lemma landmark_names_cases name :
  name ∈ landmark_names <->
  name = "wrist" \/ name = "thumb_tip" \/ name = "index_mcp" \/
  name = "index_tip" \/ name = "middle_mcp" \/ name = "middle_tip" \/
  name = "ring_mcp" \/ name = "ring_tip" \/ name = "pinky_mcp" \/
  name = "pinky_tip".
Proof.
  unfold landmark_names, _LM. cbn [fmap list_fmap fst].
  rewrite !elem_of_cons, elem_of_nil. tauto.
Qed.

Lemma fsum_five (a b c d e : R) : fsum [a; b; c; d; e] = a + b + c + d + e.
Proof. unfold fsum. cbn. lra. Qed.

(** What [hand_of] returns, in terms of the landmark list it was given. *)
Lemma hand_of_return result i lm h :
  hand_of result i lm = Return h ->
  (21 <= length lm)%nat /\
  (forall name idx, (name, idx) ∈ _LM ->
     landmarks h !! name = xyz_of <$> lm !! idx) /\
  (forall name, name ∉ landmark_names -> landmarks h !! name = None) /\
  palm_center h = (palm_mean mediapipe.x lm, palm_mean mediapipe.y lm).
Proof.
  unfold hand_of. intros Hh.
  apply and_then_return in Hh as (side & _ & Hh).
  apply and_then_return in Hh as (d & Hd & Hh).
  apply and_then_return in Hh as (ps & Hps & [= <-]).
  apply landmarks_from_return in Hd as [Hlen Hd].
  apply points_at_return in Hps.
  cbn [landmarks palm_center].
  split; [| split; [| split]].
  - rewrite Forall_forall in Hlen.
    specialize (Hlen ("pinky_tip", 20%nat)). cbn in Hlen.
    assert (20 < length lm)%nat; [| lia].
    apply Hlen, LM_cases. tauto.
  - intros name idx Hin. rewrite Hd. apply LM_cases in Hin.
    repeat (destruct Hin as [[= -> ->] | Hin]; [reflexivity |]).
    by injection Hin as -> ->.
  - intros name Hname. rewrite Hd.
    rewrite landmark_names_cases in Hname.
    unfold _LM. cbn [reverse rev_append list_find].
    repeat (destruct (decide (_ = name)) as [<- | _]; [tauto |];
            cbn [fmap option_fmap option_map]).
    done.
  - repeat match goal with
           | H : Forall2 _ (_ :: _) _ |- _ =>
               apply Forall2_cons_inv_l in H as (? & ? & ? & H & ->)
           | H : Forall2 _ [] _ |- _ => apply Forall2_nil_inv_l in H as ->
           end.
    cbn [fmap list_fmap length]. rewrite !fsum_five.
    unfold palm_mean.
    repeat match goal with H : lm !! _ = Some _ |- _ => rewrite H; clear H end.
    cbn. f_equal; lra.
Qed.

Lemma hand_of_total result i lm :
  (21 <= length lm)%nat ->
  Forall (fun cats => cats <> []) (mediapipe.handedness result) ->
  exists h, hand_of result i lm = Return h.
Proof.
  intros Hlen Hcats. unfold hand_of.
  assert (Hside : exists side,
    (if negb (bool_decide (mediapipe.handedness result = []))
        && bool_decide (i < length (mediapipe.handedness result))%nat
     then
       and_then (at_index (mediapipe.handedness result) i) (fun cats =>
       and_then (at_index cats 0) (fun cat =>
       Return (mediapipe.category_name cat)))
     else Return "Right") = Return side).
  { destruct (negb _ && bool_decide _) eqn:Hcond; [| by eexists].
    apply andb_true_iff in Hcond as [_ Hi]. apply bool_decide_eq_true in Hi.
    destruct (at_index_lt _ i Hi) as (cats & -> & Hcat). cbn.
    rewrite Forall_forall in Hcats.
    assert (Hne : cats <> []).
    { apply Hcats. by apply list_elem_of_lookup_2 in Hcat. }
    destruct cats as [| cat cats]; [done |]. by eexists. }
  destruct Hside as [side ->]. cbn [and_then].
  destruct (landmarks_from_total lm _LM ∅) as [d ->].
  { unfold _LM. repeat constructor; cbn; lia. }
  cbn [and_then].
  destruct (points_at_total lm [0; 5; 9; 13; 17]%nat) as [ps ->].
  { repeat constructor; lia. }
  by eexists.
Qed.

Lemma hands_from_return result i rest acc hs :
  hands_from result i rest acc = Return hs ->
  exists new, hs = acc ++ new /\ length new = length rest /\
    forall k lm h, rest !! k = Some lm -> new !! k = Some h ->
                   hand_of result (i + k) lm = Return h.
Proof.
  revert i acc. induction rest as [| lm0 rest IH]; intros i acc Hhs.
  - injection Hhs as <-. exists []. by rewrite app_nil_r.
  - cbn [hands_from] in Hhs.
    apply and_then_return in Hhs as (h0 & Hh0 & Hhs).
    apply IH in Hhs as (new & -> & Hlen & Hnew).
    exists (h0 :: new). split; [by rewrite <- app_assoc |].
    split; [cbn; lia |].
    intros k lm h Hlm Hh. destruct k as [| k]; cbn in Hlm, Hh.
    + injection Hlm as <-. injection Hh as <-. by rewrite Nat.add_0_r.
    + replace (i + S k)%nat with (S i + k)%nat by lia. by apply Hnew.
Qed.

Lemma hands_from_total result i rest acc :
  Forall (fun lm => (21 <= length lm)%nat) rest ->
  Forall (fun cats => cats <> []) (mediapipe.handedness result) ->
  exists hs, hands_from result i rest acc = Return hs.
Proof.
  intros Hrest Hcats. revert i acc.
  induction rest as [| lm0 rest IH]; intros i acc; [by eexists |].
  inversion Hrest as [| ? ? Hlm Hrest']; subst.
  destruct (hand_of_total result i lm0 Hlm Hcats) as [h Hh].
  cbn [hands_from]. rewrite Hh. cbn. by apply IH.
Qed.

Lemma hands_from_short result i rest acc :
  Exists (fun lm => (length lm < 21)%nat) rest ->
  exists e, hands_from result i rest acc = Raise e.
Proof.
  intros Hex. revert i acc.
  induction rest as [| lm0 rest IH]; intros i acc.
  { by apply Exists_nil in Hex. }
  cbn [hands_from].
  destruct (hand_of result i lm0) as [h | e] eqn:Hh; cbn; [| by eexists].
  apply Exists_cons in Hex as [Hshort | Hex]; [| by apply IH].
  apply hand_of_return in Hh as [Hlen _]. lia.
Qed.

Lemma at_index_raise {A} (l : list A) i e :
  at_index l i = Raise e -> e = IndexError.
Proof. unfold at_index. destruct (l !! i); by intros [= <-]. Qed.

Lemma and_then_raise {A B} (m : Outcome A) (k : A -> Outcome B) e :
  and_then m k = Raise e ->
  m = Raise e \/ exists a, m = Return a /\ k a = Raise e.
Proof.
  destruct m as [a | e']; cbn.
  - intros Hk. right. by exists a.
  - intros [= ->]. by left.
Qed.

Lemma landmarks_from_raise lm items d e :
  landmarks_from lm items d = Raise e -> e = IndexError.
Proof.
  revert d. induction items as [| [name idx] rest IH]; intros d; [done |].
  cbn [landmarks_from]. unfold _xyz. intros Hr.
  apply and_then_raise in Hr as [Hr | (p & _ & Hr)]; [| by apply IH in Hr].
  apply and_then_raise in Hr as [Hr | (l & _ & Hr)]; [| done].
  by apply at_index_raise in Hr.
Qed.

Lemma points_at_raise lm indices e :
  points_at lm indices = Raise e -> e = IndexError.
Proof.
  induction indices as [| j rest IH]; [done |].
  cbn [points_at]. intros Hr.
  apply and_then_raise in Hr as [Hr | (p & _ & Hr)].
  { by apply at_index_raise in Hr. }
  apply and_then_raise in Hr as [Hr | (ps & _ & Hr)]; [by apply IH | done].
Qed.

Lemma hand_of_raise result i lm e :
  hand_of result i lm = Raise e -> e = IndexError.
Proof.
  unfold hand_of. intros Hr.
  apply and_then_raise in Hr as [Hr | (side & _ & Hr)].
  { destruct (negb _ && bool_decide _); [| done].
    apply and_then_raise in Hr as [Hr | (cats & _ & Hr)].
    { by apply at_index_raise in Hr. }
    apply and_then_raise in Hr as [Hr | (cat & _ & Hr)]; [| done].
    by apply at_index_raise in Hr. }
  apply and_then_raise in Hr as [Hr | (d & _ & Hr)].
  { by apply landmarks_from_raise in Hr. }
  apply and_then_raise in Hr as [Hr | (ps & _ & Hr)]; [| done].
  by apply points_at_raise in Hr.
Qed.

Lemma hands_from_raise result i rest acc e :
  hands_from result i rest acc = Raise e -> e = IndexError.
Proof.
  revert i acc. induction rest as [| lm0 rest IH]; intros i acc; [done |].
  cbn [hands_from]. intros Hr.
  apply and_then_raise in Hr as [Hr | (h & _ & Hr)].
  - by apply hand_of_raise in Hr.
  - by apply IH in Hr.
Qed.

(** The two ways [process] returns. *)
Lemma process_return {Image} (detect : Image -> _) bgr_frame hd :
  process Image detect bgr_frame = Return hd ->
  hd = _empty_result \/
  exists frame result,
    bgr_frame = Some frame /\ detect frame = Some result /\
    mediapipe.hand_landmarks result <> [] /\
    detected hd = true /\
    hand_count hd = Z.of_nat (length (hands hd)) /\
    length (hands hd) = length (mediapipe.hand_landmarks result) /\
    forall k lm h,
      mediapipe.hand_landmarks result !! k = Some lm ->
      hands hd !! k = Some h -> hand_of result k lm = Return h.
Proof.
  unfold process. destruct bgr_frame as [frame |]; [| intros [= <-]; by left].
  destruct (detect frame) as [result |] eqn:Hdet; [| intros [= <-]; by left].
  destruct (bool_decide _) eqn:Hnil; [intros [= <-]; by left |].
  apply bool_decide_eq_false in Hnil.
  intros Hhd. apply and_then_return in Hhd as (hs & Hhs & [= <-]).
  apply hands_from_return in Hhs as (new & -> & Hlen & Hnew).
  right. exists frame, result. cbn. repeat split; try done.
Qed.

Lemma process_at x y dx dy :
  process unit (detect_at x y dx dy) (Some tt) =
    Return (one_hand (hand_at x y dx dy)).
Proof.
  unfold process, detect_at, result_at. cbn [mediapipe.hand_landmarks].
  rewrite bool_decide_eq_false_2 by done.
  cbn [hands_from and_then]. unfold hand_of.
  cbn [mediapipe.handedness mediapipe.category_name].
  rewrite bool_decide_eq_false_2 by done.
  rewrite bool_decide_eq_true_2 by (cbn; lia).
  cbn [negb andb at_index lookup list_lookup and_then].
  unfold one_hand, hand_at. cbn. 
  do 2 f_equal. f_equal.
  f_equal; first [reflexivity | f_equal; lra].
Qed.

Lemma full_result_at x y dx dy : full_result (result_at x y dx dy).
Proof. split; repeat constructor. done. Qed.

(** X21.  What [process] returns is consistent: [hand_count] is the length
    of [hands], [detected] is true exactly when [hands] is not empty, and
    every hand carries the ten landmarks of [_LM] and no other. *)
Theorem process_output {Image} (detect : Image -> _) bgr_frame hd :
  process Image detect bgr_frame = Return hd ->
  hand_count hd = Z.of_nat (length (hands hd)) /\
  (detected hd = true <-> hands hd <> []) /\
  forall h name, h ∈ hands hd ->
    (is_Some (landmarks h !! name) <-> name ∈ landmark_names).
Proof.
  intros Hp. apply process_return in Hp
    as [-> | (frame & result & _ & _ & Hne & Hd & Hn & Hlen & Hh)].
  { split; [done |]. split; [by split |].
    intros h name Hin. by apply elem_of_nil in Hin. }
  split; [done |]. split.
  { split; [| done]. intros _ Hnil. rewrite Hnil in Hlen.
    destruct (mediapipe.hand_landmarks result); [done | discriminate]. }
  intros h name Hin. apply list_elem_of_lookup in Hin as [k Hk].
  destruct (lookup_lt_is_Some_2 (mediapipe.hand_landmarks result) k)
    as [lm Hlm].
  { rewrite <- Hlen. by apply lookup_lt_Some in Hk. }
  destruct (hand_of_return _ _ _ _ (Hh k lm h Hlm Hk))
    as (Hlm21 & Hval & Hnone & _).
  split.
  - intros Hs. destruct (decide (name ∈ landmark_names)) as [| Hn']; [done |].
    rewrite (Hnone name Hn') in Hs. by destruct Hs.
  - intros Hname. apply landmark_names_cases in Hname.
    assert (Hidx : forall idx, (name, idx) ∈ _LM -> (idx < 21)%nat ->
                               is_Some (landmarks h !! name)).
    { intros idx Hin Hlt. rewrite (Hval name idx Hin).
      destruct (lookup_lt_is_Some_2 lm idx) as [l ->]; [lia | by eexists]. }
    repeat (destruct Hname as [-> | Hname];
            [eapply Hidx; [apply LM_cases; tauto | lia] |]).
    subst name. eapply Hidx; [apply LM_cases; tauto | lia].
Qed.

Lemma process_output_witness :
  hand_count (one_hand (hand_at 0.5 0.5 0 (-0.1)))
  = Z.of_nat (length (hands (one_hand (hand_at 0.5 0.5 0 (-0.1))))) /\
  (detected (one_hand (hand_at 0.5 0.5 0 (-0.1))) = true <->
   hands (one_hand (hand_at 0.5 0.5 0 (-0.1))) <> []) /\
  forall h name, h ∈ hands (one_hand (hand_at 0.5 0.5 0 (-0.1))) ->
    (is_Some (landmarks h !! name) <-> name ∈ landmark_names).
Proof.
  apply (process_output (detect_at 0.5 0.5 0 (-0.1)) (Some tt)).
  apply process_at.
Defined.

(** X22.  Each hand that [process] returns is read off the landmark list of
    the same position: every landmark of [_LM] is the point at its index,
    and the palm centre is the mean of the wrist and the four finger
    bases. *)
Theorem process_hand {Image} (detect : Image -> _) frame result hd k lm h :
  detect frame = Some result ->
  process Image detect (Some frame) = Return hd ->
  mediapipe.hand_landmarks result !! k = Some lm ->
  hands hd !! k = Some h ->
  (forall name idx, (name, idx) ∈ _LM ->
     landmarks h !! name = xyz_of <$> lm !! idx) /\
  palm_center h = (palm_mean mediapipe.x lm, palm_mean mediapipe.y lm).
Proof.
  intros Hdet Hp Hlm Hk. apply process_return in Hp
    as [-> | (frame' & result' & [= <-] & Hdet' & _ & _ & _ & _ & Hh)];
    [done |].
  rewrite Hdet in Hdet'. injection Hdet' as <-.
  destruct (hand_of_return _ _ _ _ (Hh k lm h Hlm Hk)) as (_ & Hval & _ & Hpc).
  done.
Qed.

Lemma process_hand_witness :
  let lm := lm_list_at 0.5 0.5 0 (-0.1) in
  let h := hand_at 0.5 0.5 0 (-0.1) in
  (forall name idx, (name, idx) ∈ _LM ->
     landmarks h !! name = xyz_of <$> lm !! idx) /\
  palm_center h = (palm_mean mediapipe.x lm, palm_mean mediapipe.y lm).
Proof.
  apply (process_hand (detect_at 0.5 0.5 0 (-0.1)) tt
           (result_at 0.5 0.5 0 (-0.1))
           (one_hand (hand_at 0.5 0.5 0 (-0.1))) 0).
  - reflexivity.
  - apply process_at.
  - reflexivity.
  - reflexivity.
Defined.

Lemma process_well_formed {Image} (detect : Image -> _) bgr_frame hd :
  process Image detect bgr_frame = Return hd -> well_formed hd.
Proof.
  intros Hp. apply process_return in Hp
    as [-> | (frame & result & _ & _ & Hne & Hd & Hn & Hlen & Hh)].
  { intros i Hi. cbn in Hi. lia. }
  intros i Hi.
  assert (Hlt : (i < length (hands hd))%nat).
  { unfold hands_read in Hi. rewrite Hd in Hi. cbn in Hi.
    repeat destruct (decide _); lia. }
  destruct (lookup_lt_is_Some_2 _ _ Hlt) as [h Hk].
  destruct (lookup_lt_is_Some_2 (mediapipe.hand_landmarks result) i)
    as [lm Hlm]; [lia |].
  exists h. split; [done |].
  destruct (hand_of_return _ _ _ _ (Hh i lm h Hlm Hk)) as (Hlm21 & Hval & _).
  split.
  - rewrite (Hval "wrist" 0%nat) by (apply LM_cases; tauto).
    destruct (lookup_lt_is_Some_2 lm 0) as [l ->]; [lia | by eexists].
  - rewrite (Hval "middle_mcp" 9%nat) by (apply LM_cases; tauto).
    destruct (lookup_lt_is_Some_2 lm 9) as [l ->]; [lia | by eexists].
Qed.

(** X23.  Whatever [process] returns, [update] accepts: on the dict of the
    detector the recogniser raises no exception, whatever the object. *)
Theorem process_then_update {Image} (detect : Image -> _) bgr_frame hd
    wall w :
  process Image detect bgr_frame = Return hd ->
  exists ev w1, update wall hd w = (Return ev, w1).
Proof.
  intros Hp. by apply update_returns, (process_well_formed detect bgr_frame).
Qed.

Lemma process_then_update_witness :
  exists ev w1,
    update pan_clock (one_hand (hand_at 0.55 0.5 0.1 0)) pan_world_3
    = (Return ev, w1).
Proof.
  apply (process_then_update (detect_at 0.55 0.5 0.1 0) (Some tt)).
  apply process_at.
Defined.

(** X24.  On a result as MediaPipe gives them, 21 landmarks for every hand
    and no empty handedness entry, [process] returns; so it does without a
    frame, and when the inference fails. *)
Theorem process_total {Image} (detect : Image -> _) bgr_frame :
  (forall frame result,
     bgr_frame = Some frame -> detect frame = Some result ->
     full_result result) ->
  exists hd, process Image detect bgr_frame = Return hd.
Proof.
  intros Hfull. unfold process.
  destruct bgr_frame as [frame |]; [| by eexists].
  destruct (detect frame) as [result |] eqn:Hdet; [| by eexists].
  destruct (bool_decide _); [by eexists |].
  destruct (Hfull frame result eq_refl Hdet) as [Hlm Hcats].
  destruct (hands_from_total result 0 (mediapipe.hand_landmarks result) [])
    as [hs ->]; [| done | by eexists].
  eapply Forall_impl; [exact Hlm |]. cbn. intros lm ->. lia.
Qed.

Lemma process_total_witness :
  exists hd, process unit (detect_at 0.5 0.5 0 (-0.1)) (Some tt) = Return hd.
Proof.
  apply (process_total (detect_at 0.5 0.5 0 (-0.1)) (Some tt)).
  intros frame result _ [= <-]. apply full_result_at.
Defined.

(** X25.  If the landmark list of some hand has fewer than 21 entries,
    [process] raises [IndexError]; it raises nothing else. *)
Theorem process_short_landmarks {Image} (detect : Image -> _) frame result :
  detect frame = Some result ->
  Exists (fun lm => (length lm < 21)%nat) (mediapipe.hand_landmarks result) ->
  process Image detect (Some frame) = Raise IndexError.
Proof.
  intros Hdet Hex. unfold process. rewrite Hdet.
  rewrite bool_decide_eq_false_2.
  2:{ intros Hnil. rewrite Hnil in Hex. by apply Exists_nil in Hex. }
  destruct (hands_from_short result 0 _ [] Hex) as [e He].
  rewrite He. cbn. f_equal. by apply hands_from_raise in He.
Qed.

Lemma process_short_landmarks_witness :
  process unit (fun _ => Some short_result) (Some tt) = Raise IndexError.
Proof.
  apply (process_short_landmarks (fun _ : unit => Some short_result) tt
           short_result); [reflexivity |].
  apply Exists_cons_hd. cbn. lia.
Defined.

(** X26.  Without a frame, with a failed inference and with no hand in the
    result, [process] returns the same empty result, and [update] answers
    it with the full reset and no event. *)
Theorem no_detection_resets {Image} (detect : Image -> _) bgr_frame wall w :
  bgr_frame = None \/
  (exists frame, bgr_frame = Some frame /\
     (detect frame = None \/
      exists result, detect frame = Some result /\
                     mediapipe.hand_landmarks result = [])) ->
  process Image detect bgr_frame = Return _empty_result /\
  update wall _empty_result w =
    (Return None, {| self := reset_idle (self w); ticks := ticks w |}).
Proof.
  intros Hno. split; [| by apply update_not_detected].
  unfold process.
  destruct Hno as [-> | (frame & -> & [-> | (result & -> & ->)])]; done.
Qed.

Lemma no_detection_resets_witness :
  process unit (fun _ => None) (Some tt) = Return _empty_result /\
  update steady_clock _empty_result pan_world_3 =
    (Return None,
     {| self := reset_idle (self pan_world_3); ticks := ticks pan_world_3 |}).
Proof.
  apply (no_detection_resets (fun _ : unit => None) (Some tt)).
  right. exists tt. split; [reflexivity |]. by left.
Defined.

(** * The server and the camera loop *)

Arguments hand_timeouts : simpl never.
Arguments broadcast : simpl never.
Arguments send_status : simpl never.
Arguments send_gesture : simpl never.

Lemma hand_timeouts_snoc log m :
  hand_timeouts (log ++ [m]) =
    (hand_timeouts log + if is_hand_timeout m then 1 else 0)%nat.
Proof.
  unfold hand_timeouts. rewrite filter_app, length_app.
  destruct (is_hand_timeout m) eqn:Hm.
  - by rewrite filter_cons_True.
  - rewrite filter_cons_False by (by rewrite Hm). cbn. lia.
Qed.

(** What [broadcast] does to the state: nothing, or one more coroutine. *)
Lemma broadcast_cases m p :
  broadcast m p = p \/
  broadcast m p = set_scheduled (scheduled p ++ [m]) p.
Proof. unfold broadcast. destruct (_ || _); auto. Qed.

Lemma send_status_fields wall field p :
  gest (send_status wall field p)
  = {| self := self (gest p); ticks := S (ticks (gest p)) |} /\
  ws_server (send_status wall field p) = ws_server p /\
  last_hand_time (send_status wall field p) = last_hand_time p /\
  hand_timeout_sent (send_status wall field p) = hand_timeout_sent p /\
  (scheduled (send_status wall field p) = scheduled p \/
   scheduled (send_status wall field p) =
     scheduled p ++ [StatusMessage (int (wall (ticks (gest p)) * 1000)) field]).
Proof.
  unfold send_status, clock.
  match goal with |- context [broadcast ?m ?q] =>
    destruct (broadcast_cases m q) as [-> | ->] end; cbn; auto 10.
Qed.

Lemma send_gesture_fields wall e p :
  self (gest (send_gesture wall e p)) = self (gest p) /\
  ticks (gest (send_gesture wall e p)) = S (S (ticks (gest p))) /\
  ws_server (send_gesture wall e p)
  = set_last_gesture_time (wall (S (ticks (gest p))))
      (set_active_gesture (event_gesture e) (ws_server p)) /\
  last_hand_time (send_gesture wall e p) = last_hand_time p /\
  hand_timeout_sent (send_gesture wall e p) = hand_timeout_sent p /\
  (scheduled (send_gesture wall e p) = scheduled p \/
   scheduled (send_gesture wall e p) =
     scheduled p ++ [GestureMessage (event_gesture e) (get_intensity e)
                       (get_velocity e)
                       (int (wall (ticks (gest p)) * 1000))]).
Proof.
  unfold send_gesture, clock.
  match goal with |- context [broadcast ?m ?q] =>
    destruct (broadcast_cases m q) as [-> | ->] end; cbn; auto 10.
Qed.

Section Loop.

Variable wall : nat -> R.
Variable Image : Type.
Variable flip : Image -> Image.
Variable detect : Image -> option mediapipe.HandLandmarkerResult.

Lemma timeout_budget_step shot p :
  (timeout_budget (snd (camera_step wall Image flip detect shot p))
   <= timeout_budget p + if sees_hand flip detect shot then 1 else 0)%nat.
Proof.
  unfold camera_step, sees_hand, timeout_budget.
  destruct (shot_frame shot) as [frame |]; cbn [snd].
  2:{ destruct (send_status_fields wall (camera "disconnected") p)
        as (_ & _ & _ & -> & [-> | ->]); [lia |].
      rewrite hand_timeouts_snoc. cbn. lia. }
  destruct (process _ _ _) as [hd | x]; cbn [snd]; [| lia].
  set (p0 := set_ws_server _ p).
  assert (Hbudget : forall p1 : Process,
    (hand_timeouts (scheduled p1) + (if hand_timeout_sent p1 then 0 else 1)
     <= hand_timeouts (scheduled p)
        + (if hand_timeout_sent p then 0 else 1)
        + (if detected hd then 1 else 0))%nat ->
    (hand_timeouts
       (scheduled
          (snd match update wall hd (gest p1) with
               | (Raise e, w) => (Raise e, set_gest w p1)
               | (Return None, w) => (Return tt, set_gest w p1)
               | (Return (Some event), w) =>
                   (Return tt, send_gesture wall event (set_gest w p1))
               end))
     + (if hand_timeout_sent
             (snd match update wall hd (gest p1) with
                  | (Raise e, w) => (Raise e, set_gest w p1)
                  | (Return None, w) => (Return tt, set_gest w p1)
                  | (Return (Some event), w) =>
                      (Return tt, send_gesture wall event (set_gest w p1))
                  end)
        then 0 else 1)
     <= hand_timeouts (scheduled p)
        + (if hand_timeout_sent p then 0 else 1)
        + (if detected hd then 1 else 0))%nat).
  { intros p1 Hp1.
    destruct (update wall hd (gest p1)) as [[[e |] | x] w]; cbn [snd];
      [| exact Hp1 | exact Hp1].
    destruct (send_gesture_fields wall e (set_gest w p1))
      as (_ & _ & _ & _ & -> & [-> | ->]); [exact Hp1 |].
    rewrite hand_timeouts_snoc. cbn in *. lia. }
  apply Hbudget. unfold p0. clear Hbudget p0.
  destruct (detected hd); unfold clock; cbn; [lia |].
  destruct (bool_decide _); cbn; [| lia].
  destruct (hand_timeout_sent p) eqn:Hsent; cbn; [rewrite Hsent; lia |].
  match goal with |- context [send_status wall ?f ?q] =>
    destruct (send_status_fields wall f q) as (_ & _ & _ & _ & [-> | ->]) end;
    cbn; [lia |].
  rewrite hand_timeouts_snoc. cbn. lia.
Qed.

Lemma timeout_budget_loop shots p :
  (timeout_budget (camera_loop wall Image flip detect shots p)
   <= timeout_budget p
      + length (filter (fun shot => sees_hand flip detect shot = true) shots))%nat.
Proof.
  revert p. induction shots as [| shot rest IH]; intros p; [cbn; lia |].
  cbn [camera_loop].
  pose proof (timeout_budget_step shot p) as Hstep.
  assert (Hlen : (length (filter (fun shot => sees_hand flip detect shot = true)
                            (shot :: rest))
                  = (if sees_hand flip detect shot then 1 else 0)
                    + length (filter (fun shot => sees_hand flip detect shot
                                                  = true) rest))%nat).
  { destruct (sees_hand flip detect shot) eqn:Hs.
    - by rewrite filter_cons_True.
    - rewrite filter_cons_False by (by rewrite Hs). done. }
  rewrite Hlen.
  destruct (camera_step wall Image flip detect shot p) as [[[] | x] p1];
    cbn [snd] in Hstep.
  - specialize (IH p1). lia.
  - lia.
Qed.

End Loop.

(** X27.  The camera loop sends the hand-timeout notice at most once per
    absence: the notices handed to the event loop are at most one more than
    the shots in which a hand was detected, so at most one when no shot
    shows a hand. *)
Theorem hand_timeout_once wall {Image} (flip : Image -> Image) detect
    shots srv :
  (hand_timeouts
     (scheduled (camera_loop wall Image flip detect shots
                   (loop_entry wall srv)))
   <= S (length (filter (fun shot => sees_hand flip detect shot = true)
                   shots)))%nat.
Proof.
  pose proof (timeout_budget_loop wall Image flip detect shots
                (loop_entry wall srv)) as Hloop.
  unfold timeout_budget in Hloop at 1.
  assert (Hentry : timeout_budget (loop_entry wall srv) = 1%nat) by done.
  rewrite Hentry in Hloop. lia.
Qed.

(** ** What the loop hands to the event loop *)

Lemma event_message_ok wall hd w e w1 ts :
  palm_in_zone (self w) ->
  update wall hd w = (Return (Some e), w1) ->
  gesture_message_ok
    (GestureMessage (event_gesture e) (get_intensity e) (get_velocity e) ts).
Proof.
  intros Hpalm Hu.
  destruct (gated_step_update wall hd w) as [_ Hg].
  destruct (bounded_step_update wall hd w Hpalm) as [Hm _].
  pose proof (update_event_of wall hd w e w1 Hu) as He.
  rewrite Hu in Hg, Hm. cbn in Hg, Hm. destruct Hg as [Hkind _].
  unfold magnitude_ok in Hm. cbn in Hm.
  destruct He as (_ & [[_ (_ & He)] | [_ (_ & He)]]).
  - destruct He as [He | He]; destruct e as [g v | g v]; try done;
      cbn in *.
    + destruct He as ([-> | ->] & _); repeat split; try done; lra.
    + destruct He as ([[-> _] | [-> _]] & _); repeat split; try done; lra.
  - destruct He as [[He _] | He]; destruct e as [g v | g v]; try done;
      cbn in *.
    + destruct He as [(-> & _) | (-> & _)]; repeat split; try done; lra.
    + destruct He as ([[-> _] | [-> _]] & _); repeat split; try done; lra.
Qed.

Section Invariant.

Variable wall : nat -> R.
Variable Image : Type.
Variable flip : Image -> Image.
Variable detect : Image -> option mediapipe.HandLandmarkerResult.

Lemma messages_ok_send_status field p :
  messages_ok p -> messages_ok (send_status wall field p).
Proof.
  intros (Hpalm & Hmsg). unfold messages_ok.
  destruct (send_status_fields wall field p)
    as (-> & _ & _ & _ & [-> | ->]); cbn [self].
  - done.
  - split; [done |].
    apply Forall_app. split; [done |]. by repeat constructor.
Qed.

Lemma label_ok_send_status field p :
  label_ok p -> label_ok (send_status wall field p).
Proof.
  unfold label_ok.
  by destruct (send_status_fields wall field p) as (_ & -> & _).
Qed.

(** The state in which a turn with a frame and a detection calls
    [update]. *)
Lemma before_update_ok (hd : HandData) (shot : Shot Image) p :
  let q :=
    if detected hd
    then
      let '(t, p0) :=
        clock wall
          (set_ws_server
             (set_current_fps (shot_fps shot)
                (set_hand_detected (detected hd) (ws_server p))) p) in
      set_hand_timeout_sent false (set_last_hand_time t p0)
    else
      let '(t, p0) :=
        clock wall
          (set_ws_server
             (set_current_fps (shot_fps shot)
                (set_hand_detected (detected hd) (ws_server p))) p) in
      if bool_decide (t - last_hand_time p0 > HAND_TIMEOUT_SEC)
         && negb (hand_timeout_sent p0)
      then set_hand_timeout_sent true
             (send_status wall (hand_timeout true) p0)
      else p0 in
  (messages_ok p -> messages_ok q) /\ (label_ok p -> label_ok q).
Proof.
  destruct (detected hd); unfold clock; cbn.
  - split; [intros (? & ?); by split | done].
  - destruct (_ && _).
    + match goal with |- context [send_status wall ?f ?q] =>
        pose proof (messages_ok_send_status f q) as Hs;
        pose proof (label_ok_send_status f q) as Hl end.
      split.
      * intros (? & ?). destruct Hs as (? & ?); by split.
      * intros ?. by apply Hl.
    + split; [intros (? & ?); by split | done].
Qed.

Lemma messages_ok_step shot p :
  messages_ok p ->
  messages_ok (snd (camera_step wall Image flip detect shot p)).
Proof.
  intros Hp. unfold camera_step.
  destruct (shot_frame shot) as [frame |]; cbn [snd];
    [| by apply messages_ok_send_status].
  destruct (process _ _ _) as [hd | x]; cbn [snd]; [| done].
  destruct (before_update_ok hd shot p) as [Hq _]. cbv zeta in Hq.
  specialize (Hq Hp).
  match goal with |- context [update wall hd (gest ?q0)] =>
    set (q := q0) in *; clearbody q end.
  destruct Hq as (Hpalm & Hmsg).
  destruct (bounded_step_update wall hd (gest q) Hpalm) as [_ Hpalm1].
  specialize (Hpalm1 Hpalm).
  destruct (update wall hd (gest q)) as [[[e |] | x] w] eqn:Hu; cbn [snd] in *.
  - destruct (send_gesture_fields wall e (set_gest w q))
      as (Hself & _ & _ & _ & _ & Hsched).
    unfold messages_ok. rewrite Hself. cbn.
    split; [done |].
    destruct Hsched as [-> | ->]; cbn; [done |].
    apply Forall_app. split; [done |]. constructor; [| constructor].
    by apply (event_message_ok wall hd (gest q) e w).
  - by split.
  - by split.
Qed.

Lemma label_ok_step shot p :
  label_ok p ->
  label_ok (snd (camera_step wall Image flip detect shot p)).
Proof.
  intros Hp. unfold camera_step.
  destruct (shot_frame shot) as [frame |]; cbn [snd];
    [| by apply label_ok_send_status].
  destruct (process _ _ _) as [hd | x]; cbn [snd]; [| done].
  destruct (before_update_ok hd shot p) as [_ Hq]. cbv zeta in Hq.
  specialize (Hq Hp).
  match goal with |- context [update wall hd (gest ?q0)] =>
    set (q := q0) in *; clearbody q end.
  destruct (gated_step_update wall hd (gest q)) as [_ Hg].
  destruct (update wall hd (gest q)) as [[[e |] | x] w]; cbn [snd] in *;
    [| done | done].
  destruct (send_gesture_fields wall e (set_gest w q))
    as (_ & _ & Hsrv & _).
  unfold label_ok. rewrite Hsrv. cbn. destruct Hg as [Hkind _].
  by apply list_elem_of_further.
Qed.

Lemma label_ok_heartbeat p :
  label_ok p ->
  label_ok (snd (heartbeat wall p)) /\
  exists label, heartbeat_label (fst (heartbeat wall p)) = Some label /\
                label ∈ gesture_labels.
Proof.
  unfold label_ok, heartbeat, clock. intros Hlabel. cbn.
  destruct (decide _); cbn.
  - split; [apply list_elem_of_here |].
    eexists. split; [done |]. apply list_elem_of_here.
  - split; [done |]. by eexists.
Qed.

Lemma messages_ok_heartbeat p :
  messages_ok p -> messages_ok (snd (heartbeat wall p)).
Proof.
  unfold messages_ok, heartbeat, clock. intros (Hpalm & Hmsg). cbn.
  by destruct (decide _).
Qed.

Lemma messages_ok_session actions p :
  messages_ok p ->
  messages_ok (snd (session wall flip detect actions p)).
Proof.
  revert p. induction actions as [| [shot |] rest IH]; intros p Hp.
  - done.
  - cbn [session]. pose proof (messages_ok_step shot p Hp) as Hstep.
    destruct (camera_step wall Image flip detect shot p) as [[[] | x] p1];
      cbn [snd] in Hstep; [by apply IH | done].
  - cbn [session]. pose proof (messages_ok_heartbeat p Hp) as Hp1.
    destruct (heartbeat wall p) as [m p1]. cbn [snd] in Hp1.
    specialize (IH p1 Hp1).
    by destruct (session wall flip detect rest p1) as [log p2].
Qed.

Lemma label_ok_session actions p :
  label_ok p ->
  Forall (fun m => exists label, heartbeat_label m = Some label /\
                                 label ∈ gesture_labels)
         (fst (session wall flip detect actions p)).
Proof.
  revert p. induction actions as [| [shot |] rest IH]; intros p Hp.
  - constructor.
  - cbn [session]. pose proof (label_ok_step shot p Hp) as Hstep.
    destruct (camera_step wall Image flip detect shot p) as [[[] | x] p1];
      cbn [snd] in Hstep; [by apply IH | constructor].
  - cbn [session]. destruct (label_ok_heartbeat p Hp) as [Hp1 Hm].
    destruct (heartbeat wall p) as [m p1]. cbn [fst snd] in *.
    specialize (IH p1 Hp1).
    destruct (session wall flip detect rest p1) as [log p2].
    cbn [fst] in *. by constructor.
Qed.

Lemma messages_ok_entry srv : messages_ok (loop_entry wall srv).
Proof.
  unfold loop_entry, clock, messages_ok. cbn.
  split; by apply Forall_nil.
Qed.

End Invariant.

(** X28.  Every gesture message that a session hands to the event loop
    names one of the eight gesture kinds and has both magnitudes in [0, 1];
    a pan carries its magnitude as velocity with intensity 0, every other
    kind as intensity with velocity 0.  A session is any sequence of whole
    turns of the camera loop and of the heartbeat loop. *)
Theorem gesture_messages_ok wall {Image} (flip : Image -> Image) detect
    actions srv m :
  m ∈ scheduled (snd (session wall flip detect actions
                        (loop_entry wall srv))) ->
  gesture_message_ok m.
Proof.
  intros Hin.
  destruct (messages_ok_session wall Image flip detect actions
              (loop_entry wall srv)) as (_ & Hmsg).
  { apply messages_ok_entry. }
  rewrite Forall_forall in Hmsg. by apply Hmsg.
Qed.

(** X29.  The label of every heartbeat of a session is [idle] or one of
    the eight gesture kinds: [send_gesture] writes a gesture kind, the
    heartbeat writes [idle], and nothing else writes the label. *)
Theorem heartbeat_labels wall {Image} (flip : Image -> Image) detect
    actions srv m :
  active_gesture srv ∈ gesture_labels ->
  m ∈ fst (session wall flip detect actions (loop_entry wall srv)) ->
  exists label, heartbeat_label m = Some label /\ label ∈ gesture_labels.
Proof.
  intros Hlabel Hin.
  pose proof (label_ok_session wall Image flip detect actions
                (loop_entry wall srv)) as Hlog.
  rewrite Forall_forall in Hlog. apply Hlog; [| done].
  unfold label_ok, loop_entry, clock. by cbn.
Qed.

(** ** While the camera is down *)

Lemma broadcast_serving m p :
  can_broadcast (ws_server p) ->
  broadcast m p = set_scheduled (scheduled p ++ [m]) p.
Proof.
  intros [Hloop Hclients]. unfold broadcast. rewrite Hloop.
  by rewrite bool_decide_eq_false_2.
Qed.

Lemma camera_down_loop wall {Image} (flip : Image -> Image) detect shots p :
  can_broadcast (ws_server p) ->
  Forall (fun shot => shot_frame shot = None) shots ->
  let p1 := camera_loop wall Image flip detect shots p in
  scheduled p1 =
    scheduled p ++
    ((fun k => StatusMessage (int (wall (ticks (gest p) + k)%nat * 1000))
                 (camera "disconnected")) <$> seq 0 (length shots)) /\
  self (gest p1) = self (gest p) /\
  ws_server p1 = ws_server p /\
  last_hand_time p1 = last_hand_time p /\
  hand_timeout_sent p1 = hand_timeout_sent p.
Proof.
  revert p. induction shots as [| shot rest IH]; intros p Hsrv Hall.
  { cbn. by rewrite app_nil_r. }
  inversion Hall as [| ? ? Hnone Hrest]; subst.
  cbn [camera_loop]. unfold camera_step. rewrite Hnone.
  unfold send_status, clock.
  rewrite broadcast_serving by done. cbn [set_scheduled set_gest scheduled].
  match goal with |- context [camera_loop _ _ _ _ rest ?q] =>
    specialize (IH q Hsrv Hrest) end.
  destruct IH as (Hs & Hg & Hw & Hl & Ht).
  rewrite Hs, Hg, Hw, Hl, Ht. cbn.
  rewrite <- app_assoc. cbn [app].
  repeat split. f_equal. f_equal; [by rewrite Nat.add_0_r |].
  rewrite <- fmap_S_seq, <- list_fmap_compose.
  apply list_fmap_ext. intros i k _. cbn.
  by rewrite Nat.add_succ_r.
Qed.

(** X30.  While the camera delivers no frame the loop notifies the clients
    on every turn, not once: after n such turns a server that can broadcast
    has been handed n more [camera: disconnected] notices, one per turn,
    each stamped with the reading of that turn.  The recogniser, the server
    attributes and the hand-timeout bookkeeping are left as they were. *)
Theorem camera_down_notice_every_turn wall {Image} (flip : Image -> Image)
    detect shots p :
  can_broadcast (ws_server p) ->
  Forall (fun shot => shot_frame shot = None) shots ->
  let p1 := camera_loop wall Image flip detect shots p in
  scheduled p1 =
    scheduled p ++
    ((fun k => StatusMessage (int (wall (ticks (gest p) + k)%nat * 1000))
                 (camera "disconnected")) <$> seq 0 (length shots)) /\
  self (gest p1) = self (gest p) /\
  ws_server p1 = ws_server p /\
  last_hand_time p1 = last_hand_time p /\
  hand_timeout_sent p1 = hand_timeout_sent p.
Proof. apply camera_down_loop. Qed.

(** ** Two hands moving apart *)

Arguments update : simpl never.
Arguments process : simpl never.
Arguments clock : simpl never.

Lemma process_zoom d :
  process R zoom_detect (Some d) =
    Return (two_hands (hand_at 0.35 0.5 0 (-0.1))
                      (hand_at (0.35 + d) 0.5 0 (-0.1))).
Proof.
  unfold process, zoom_detect. cbn [mediapipe.hand_landmarks].
  rewrite bool_decide_eq_false_2 by done.
  cbn [hands_from and_then]. unfold hand_of.
  cbn [mediapipe.handedness].
  rewrite bool_decide_eq_true_2 by done.
  cbn [negb andb and_then].
  unfold two_hands, hand_at. cbn.
  do 2 f_equal. f_equal; [| f_equal].
  all: f_equal; first [reflexivity | f_equal; lra].
Qed.

Lemma eval_two_hand_short wall a b s t wr_a mm_a wr_b mm_b :
  _in_activation_zone (palm_center a) = true \/
  _in_activation_zone (palm_center b) = true ->
  landmarks a !! "wrist" = Some wr_a ->
  landmarks a !! "middle_mcp" = Some mm_a ->
  landmarks b !! "wrist" = Some wr_b ->
  landmarks b !! "middle_mcp" = Some mm_b ->
  let s1 := two_hand_accumulate a b (norm_dy wr_a mm_a) (norm_dy wr_b mm_b) s in
  (length (_dist_buf s1) < 2)%nat ->
  _eval_two_hand wall a b {| self := s; ticks := t |} =
    (Return None, {| self := s1; ticks := t |}).
Proof.
  intros Hzone Hwa Hma Hwb Hmb s1 Hlen.
  unfold _eval_two_hand. cbn.
  replace (negb (_in_activation_zone (palm_center a))
           && negb (_in_activation_zone (palm_center b))) with false
    by (destruct Hzone as [-> | ->]; [done | by rewrite andb_false_r]).
  cbn. rewrite (bind_hand_norm_dy a wr_a mm_a) by done.
  rewrite (bind_hand_norm_dy b wr_b mm_b) by done.
  unfold s1, two_hand_accumulate in *. cbn [_dist_buf] in Hlen.
  destruct (norm_dy wr_a mm_a), (norm_dy wr_b mm_b); cbn;
    by rewrite decide_True.
Qed.

Lemma zoom_dist d :
  0 <= d ->
  math.hypot (fst (palm_center (hand_at 0.35 0.5 0 (-0.1)))
              - fst (palm_center (hand_at (0.35 + d) 0.5 0 (-0.1))))
             (snd (palm_center (hand_at 0.35 0.5 0 (-0.1)))
              - snd (palm_center (hand_at (0.35 + d) 0.5 0 (-0.1)))) = d.
Proof. intros Hd. cbn. apply hypot_eq; [done | lra]. Qed.

(** The first frame fills the buffers, the second one is a zoom out. *)
Lemma zoom_updates wall t t' :
  80 <= wall t' * 1000 ->
  exists w1 v w2,
    update wall (two_hands (hand_at 0.35 0.5 0 (-0.1))
                           (hand_at (0.35 + 0.2) 0.5 0 (-0.1)))
      {| self := __init__; ticks := t |} = (Return None, w1) /\
    ticks w1 = t /\
    update wall (two_hands (hand_at 0.35 0.5 0 (-0.1))
                           (hand_at (0.35 + 0.3) 0.5 0 (-0.1)))
      {| self := self w1; ticks := t' |}
    = (Return (Some (IntensityEvent "zoom_out" v)), w2).
Proof.
  intros Hwall.
  set (a := hand_at 0.35 0.5 0 (-0.1)).
  set (b1 := hand_at (0.35 + 0.2) 0.5 0 (-0.1)).
  set (b2 := hand_at (0.35 + 0.3) 0.5 0 (-0.1)).
  assert (Hza : _in_activation_zone (palm_center a) = true)
    by (apply hand_at_in_zone; lra).
  set (s1 := two_hand_accumulate a b1
               (norm_dy (wrist_of 0.35 0.5 0 (-0.1))
                        (middle_mcp_of 0.35 0.5 0 (-0.1)))
               (norm_dy (wrist_of (0.35 + 0.2) 0.5 0 (-0.1))
                        (middle_mcp_of (0.35 + 0.2) 0.5 0 (-0.1)))
               __init__).
  assert (Hd1 : _dist_buf s1 = [0.2]).
  { unfold s1, two_hand_accumulate. cbn [_dist_buf __init__].
    unfold a, b1. rewrite zoom_dist by lra. apply deque_append_nil. }
  set (s2 := two_hand_accumulate a b2
               (norm_dy (wrist_of 0.35 0.5 0 (-0.1))
                        (middle_mcp_of 0.35 0.5 0 (-0.1)))
               (norm_dy (wrist_of (0.35 + 0.3) 0.5 0 (-0.1))
                        (middle_mcp_of (0.35 + 0.3) 0.5 0 (-0.1)))
               s1).
  assert (Hd2 : _dist_buf s2 = [0.2; 0.3]).
  { unfold s2, two_hand_accumulate. cbn [_dist_buf]. rewrite Hd1.
    unfold a, b2. rewrite zoom_dist by lra.
    by rewrite deque_append_short by (cbv; lia). }
  exists {| self := s1; ticks := t |}.
  exists (round (Rmin (Rabs (window_delta [0.2; 0.3]) / 0.3) 1) 3).
  eexists. split; [| split; [done |]].
  - rewrite (update_two_hands _ _ a b1 []); [| done | cbn; lia | done].
    apply (eval_two_hand_short wall a b1 __init__ t
             (wrist_of 0.35 0.5 0 (-0.1)) (middle_mcp_of 0.35 0.5 0 (-0.1))
             (wrist_of (0.35 + 0.2) 0.5 0 (-0.1))
             (middle_mcp_of (0.35 + 0.2) 0.5 0 (-0.1)));
      [by left | apply hand_at_wrist | apply hand_at_middle_mcp
      | apply hand_at_wrist | apply hand_at_middle_mcp |].
    fold s1. rewrite Hd1. cbn. lia.
  - cbn [self].
    rewrite (update_two_hands _ _ a b2 []); [| done | cbn; lia | done].
    rewrite (eval_two_hand_eq wall a b2 s1 t'
               (wrist_of 0.35 0.5 0 (-0.1)) (middle_mcp_of 0.35 0.5 0 (-0.1))
               (wrist_of (0.35 + 0.3) 0.5 0 (-0.1))
               (middle_mcp_of (0.35 + 0.3) 0.5 0 (-0.1)));
      [| by left | apply hand_at_wrist | apply hand_at_middle_mcp
       | apply hand_at_wrist | apply hand_at_middle_mcp
       | fold s2; rewrite Hd2; cbn; lia].
    fold s2. rewrite Hd2. unfold two_hand_classification.
    assert (Hdelta : window_delta [0.2; 0.3] = 0.1)
      by (unfold window_delta; cbn; lra).
    rewrite decide_True.
    2:{ rewrite Hdelta. unfold config.ZOOM_DIST_RATE_MIN.
        rewrite Rabs_right; lra. }
    rewrite decide_True by (rewrite Hdelta; lra).
    rewrite gate_eq by in_kinds.
    rewrite decide_True; [reflexivity |].
    replace (category_interval_ms "zoom_out") with 80 by reflexivity.
    unfold last_emit, s2, s1. cbn. rewrite lookup_empty. cbn. lra.
Qed.

Lemma steady_clock_late n : 80 <= steady_clock n * 1000.
Proof. unfold steady_clock. pose proof (pos_INR n). lra. Qed.

Lemma serving_can_broadcast : can_broadcast serving.
Proof.
  split; [done |]. unfold serving. cbn [_clients].
  apply (non_empty_singleton_L (C := gset nat)).
Qed.

Lemma zoom_session :
  exists v ts,
    GestureMessage "zoom_out" v 0 ts ∈
      scheduled (snd (session steady_clock no_flip zoom_detect
                        (Camera <$> zoom_shots)
                        (loop_entry steady_clock serving))).
Proof.
  destruct (zoom_updates steady_clock 2 3 (steady_clock_late 3))
    as (w1 & v & w2 & Hu1 & Ht1 & Hu2).
  exists v. eexists.
  unfold zoom_shots. cbn [fmap list_fmap session].
  unfold camera_step at 1. cbn [shot_frame]. unfold no_flip at 1.
  rewrite process_zoom. cbn [detected two_hands].
  unfold loop_entry, clock.
  cbn [gest set_gest set_ws_server set_last_hand_time set_hand_timeout_sent
       ticks self init_world].
  rewrite Hu1.
  unfold camera_step. cbn [shot_frame]. unfold no_flip.
  rewrite process_zoom. cbn [detected two_hands]. unfold clock.
  cbn [gest set_gest set_ws_server set_last_hand_time set_hand_timeout_sent
       ticks self init_world].
  rewrite Ht1, Hu2. cbn [snd].
  unfold send_gesture, clock. rewrite broadcast_serving.
  2:{ apply serving_can_broadcast. }
  cbn. apply list_elem_of_here.
Qed.

Lemma gesture_messages_ok_witness :
  exists v ts, gesture_message_ok (GestureMessage "zoom_out" v 0 ts).
Proof.
  destruct zoom_session as (v & ts & Hin). exists v, ts.
  apply (gesture_messages_ok steady_clock no_flip zoom_detect
           (Camera <$> zoom_shots) serving).
  exact Hin.
Defined.

Lemma heartbeat_labels_witness :
  exists label,
    heartbeat_label
      (fst (heartbeat steady_clock (loop_entry steady_clock serving)))
    = Some label /\
    label ∈ gesture_labels.
Proof.
  apply (heartbeat_labels steady_clock no_flip zoom_detect [Heartbeat]
           serving).
  - apply list_elem_of_here.
  - cbn [session].
    destruct (heartbeat steady_clock (loop_entry steady_clock serving))
      as [m p1].
    cbn. apply list_elem_of_here.
Defined.

Lemma camera_down_notice_every_turn_witness :
  let p := loop_entry steady_clock serving in
  let shots := [blank_shot 30; blank_shot 30] in
  let p1 := camera_loop steady_clock R no_flip zoom_detect shots p in
  scheduled p1 =
    scheduled p ++
    ((fun k => StatusMessage (int (steady_clock (ticks (gest p) + k)%nat
                                   * 1000))
                 (camera "disconnected")) <$> seq 0 (length shots)) /\
  self (gest p1) = self (gest p) /\
  ws_server p1 = ws_server p /\
  last_hand_time p1 = last_hand_time p /\
  hand_timeout_sent p1 = hand_timeout_sent p.
Proof.
  apply (camera_down_notice_every_turn steady_clock no_flip zoom_detect
           [blank_shot 30; blank_shot 30] (loop_entry steady_clock serving)).
  - apply serving_can_broadcast.
  - by repeat constructor.
Defined.

(** ** The magnitude of an event is rounded *)

Lemma round_third : round (1 / 3) 3 = 0.333.
Proof.
  unfold round. replace (1 / 3 * 10 ^ 3) with (1000 / 3) by (cbn; lra).
  assert (Hfloor : Zfloor (1000 / 3) = 333%Z).
  { pose proof (Zfloor_bound (1000 / 3)) as [Hlo Hhi].
    assert (Zfloor (1000 / 3) < 334)%Z by (apply lt_IZR; lra).
    assert (332 < Zfloor (1000 / 3))%Z by (apply lt_IZR; lra).
    lia. }
  unfold round_half_even. rewrite Hfloor.
  rewrite decide_True by lra. cbn. lra.
Qed.

Lemma zoom_run :
  fst <$> run steady_clock zoom_frames init_world =
    [None; Some (IntensityEvent "zoom_out" 0.333)] /\
  _dist_buf (self (final init_world (run steady_clock zoom_frames init_world)))
  = [0.2; 0.3].
Proof.
  set (a := hand_at 0.35 0.5 0 (-0.1)).
  set (b1 := hand_at (0.35 + 0.2) 0.5 0 (-0.1)).
  set (b2 := hand_at (0.35 + 0.3) 0.5 0 (-0.1)).
  assert (Hza : _in_activation_zone (palm_center a) = true)
    by (apply hand_at_in_zone; lra).
  set (s1 := two_hand_accumulate a b1
               (norm_dy (wrist_of 0.35 0.5 0 (-0.1))
                        (middle_mcp_of 0.35 0.5 0 (-0.1)))
               (norm_dy (wrist_of (0.35 + 0.2) 0.5 0 (-0.1))
                        (middle_mcp_of (0.35 + 0.2) 0.5 0 (-0.1)))
               __init__).
  assert (Hd1 : _dist_buf s1 = [0.2]).
  { unfold s1, two_hand_accumulate. cbn [_dist_buf __init__].
    unfold a, b1. rewrite zoom_dist by lra. apply deque_append_nil. }
  set (s2 := two_hand_accumulate a b2
               (norm_dy (wrist_of 0.35 0.5 0 (-0.1))
                        (middle_mcp_of 0.35 0.5 0 (-0.1)))
               (norm_dy (wrist_of (0.35 + 0.3) 0.5 0 (-0.1))
                        (middle_mcp_of (0.35 + 0.3) 0.5 0 (-0.1)))
               s1).
  assert (Hd2 : _dist_buf s2 = [0.2; 0.3]).
  { unfold s2, two_hand_accumulate. cbn [_dist_buf]. rewrite Hd1.
    unfold a, b2. rewrite zoom_dist by lra.
    by rewrite deque_append_short by (cbv; lia). }
  assert (Hu1 : update steady_clock (two_hands a b1) init_world
                = (Return None, {| self := s1; ticks := 0 |})).
  { rewrite (update_two_hands _ _ a b1 []); [| done | cbn; lia | done].
    apply (eval_two_hand_short steady_clock a b1 __init__ 0
             (wrist_of 0.35 0.5 0 (-0.1)) (middle_mcp_of 0.35 0.5 0 (-0.1))
             (wrist_of (0.35 + 0.2) 0.5 0 (-0.1))
             (middle_mcp_of (0.35 + 0.2) 0.5 0 (-0.1)));
      [by left | apply hand_at_wrist | apply hand_at_middle_mcp
      | apply hand_at_wrist | apply hand_at_middle_mcp |].
    fold s1. rewrite Hd1. cbn. lia. }
  assert (Hu2 : update steady_clock (two_hands a b2)
                  {| self := s1; ticks := 0 |}
                = (Return (Some (IntensityEvent "zoom_out" 0.333)),
                   {| self := set_cooldowns
                                (<["zoom_out" := steady_clock 1]>
                                   (_cooldowns (set_state STATE_ZOOM s2)))
                                (set_state STATE_ZOOM s2);
                      ticks := 2 |})).
  { rewrite (update_two_hands _ _ a b2 []); [| done | cbn; lia | done].
    rewrite (eval_two_hand_eq steady_clock a b2 s1 0
               (wrist_of 0.35 0.5 0 (-0.1)) (middle_mcp_of 0.35 0.5 0 (-0.1))
               (wrist_of (0.35 + 0.3) 0.5 0 (-0.1))
               (middle_mcp_of (0.35 + 0.3) 0.5 0 (-0.1)));
      [| by left | apply hand_at_wrist | apply hand_at_middle_mcp
       | apply hand_at_wrist | apply hand_at_middle_mcp
       | fold s2; rewrite Hd2; cbn; lia].
    fold s2. rewrite Hd2. unfold two_hand_classification.
    assert (Hdelta : window_delta [0.2; 0.3] = 0.1)
      by (unfold window_delta; cbn; lra).
    rewrite Hdelta.
    rewrite decide_True
      by (unfold config.ZOOM_DIST_RATE_MIN; rewrite Rabs_right; lra).
    rewrite decide_True by lra.
    replace (Rmin (Rabs 0.1 / 0.3) 1) with (1 / 3).
    2:{ rewrite Rabs_right by lra. rewrite Rmin_left; lra. }
    rewrite round_third, gate_eq by in_kinds.
    rewrite decide_True; [reflexivity |].
    replace (category_interval_ms "zoom_out") with 80 by reflexivity.
    unfold last_emit, s2, s1, steady_clock. cbn. rewrite lookup_empty.
    cbn. lra. }
  unfold zoom_frames. fold a b1 b2.
  rewrite run_cons, Hu1, run_cons, Hu2. cbn [run].
  split; [reflexivity |].
  rewrite !final_cons. unfold final. cbn. exact Hd2.
Qed.

(** C4 as stated fails: a fresh recogniser sees two hands 0.2 apart, then
    0.3 apart.  The window delta of the distance buffer is 0.1 and
    [min(|delta| / 0.3, 1)] is 1/3, but the event that the second call
    returns carries 0.333. *)
Lemma two_hand_decision_counterexample :
  let steps := run steady_clock zoom_frames init_world in
  fst <$> steps = [None; Some (IntensityEvent "zoom_out" 0.333)] /\
  _dist_buf (self (final init_world steps)) = [0.2; 0.3] /\
  window_delta [0.2; 0.3] = 0.1 /\
  Rmin (Rabs 0.1 / 0.3) 1 = 1 / 3 /\
  event_magnitude (IntensityEvent "zoom_out" 0.333)
  <> Rmin (Rabs 0.1 / 0.3) 1.
Proof.
  destruct zoom_run as [Hrun Hbuf].
  assert (Hmin : Rmin (Rabs 0.1 / 0.3) 1 = 1 / 3).
  { rewrite Rabs_right by lra. rewrite Rmin_left; lra. }
  cbv zeta. split; [exact Hrun |]. split; [exact Hbuf |].
  split; [unfold window_delta; cbn; lra |]. split; [exact Hmin |].
  rewrite Hmin. cbn. lra.
Qed.
